(** * playd: the player state machine and the audio pipe

    A shallow embedding of [player.cpp] (the command handlers and the
    state gate) and of [audio/audio.cpp], [audio/audio_sink.cpp] and
    [audio/audio_source.cpp] (the pipe, the SDL sink and its callback, the
    SoX source and the time conversions), followed by the properties of
    the written specification that concern them.

    Conventions.  Unsigned 64-bit values are [Z] with the wrap-around
    written [u64].  Methods that change an object are functions in the
    monad [M E S], whose outcome is a normal return, a C++ exception
    that propagates (with the state the object was left in), or
    [Undefined] for a failed [assert], a null dereference or any other
    behaviour the C++ standard leaves undefined. *)

From Stdlib Require Import ZArith List Bool Lia Sorted.
From Stdlib Require Import Strings.String Strings.Ascii Strings.Byte.
From stdpp Require Import base decidable option numbers list strings gmap pretty.

Local Open Scope string_scope.
Local Open Scope Z_scope.

(** ** Machine integers *)

Definition u64 (z : Z) : Z := z mod 2 ^ 64.
Definition u8 (z : Z) : Z := z mod 2 ^ 8.

(** ** Outcomes and the state-and-exception monad *)

Inductive outcome (E S A : Type) : Type :=
| Returns (a : A) (s : S)
| Throws (e : E) (s : S)
| Undefined.
Arguments Returns {E S A} a s.
Arguments Throws {E S A} e s.
Arguments Undefined {E S A}.

Definition M (E S A : Type) : Type := S -> outcome E S A.

Definition ret {E S A} (a : A) : M E S A := fun s => Returns a s.

Definition bind {E S A B} (m : M E S A) (k : A -> M E S B) : M E S B :=
  fun s =>
    match m s with
    | Returns a s' => k a s'
    | Throws e s' => Throws e s'
    | Undefined => Undefined
    end.

Definition get {E S} : M E S S := fun s => Returns s s.
Definition put {E S} (s : S) : M E S unit := fun _ => Returns tt s.
Definition modify {E S} (f : S -> S) : M E S unit := fun s => Returns tt (f s).
Definition throw {E S A} (e : E) : M E S A := fun s => Throws e s.
Definition undefined {E S A} : M E S A := fun _ => Undefined.

(** [assert(c)]: a violated assertion aborts the process. *)
Definition assert {E S} (c : bool) : M E S unit :=
  if c then ret tt else undefined.

(** [try { m } catch (...) { h }]. *)
Definition try_catch {E S A} (m : M E S A) (h : E -> M E S A) : M E S A :=
  fun s =>
    match m s with
    | Returns a s' => Returns a s'
    | Throws e s' => h e s'
    | Undefined => Undefined
    end.

(** Runs a method of a member object inside the object that owns it. *)
Definition zoom {E S T A} (proj : S -> T) (upd : T -> S -> S)
    (m : M E T A) : M E S A :=
  fun s =>
    match m (proj s) with
    | Returns a t => Returns a (upd t s)
    | Throws e t => Throws e (upd t s)
    | Undefined => Undefined
    end.

Declare Scope eff_scope.
Delimit Scope eff_scope with eff.
Notation "x <- m ;; k" := (bind m (fun x => k))
  (at level 100, m at next level, right associativity) : eff_scope.
Notation "m ;; k" := (bind m (fun _ => k))
  (at level 100, right associativity) : eff_scope.
Local Open Scope eff_scope.

(** [o] is defined and the state it leaves satisfies [P]. *)
Definition leaves {E S A} (P : S -> Prop) (o : outcome E S A) : Prop :=
  match o with
  | Returns _ s => P s
  | Throws _ s => P s
  | Undefined => False
  end.

(** * player.cpp *)

Module Player.

(** [enum state] and the array [STATES] of its names. *)
Inductive state : Set := S_VOID | S_EJCT | S_STOP | S_PLAY | S_QUIT.

Definition state_eqb (a b : state) : bool :=
  match a, b with
  | S_VOID, S_VOID | S_EJCT, S_EJCT | S_STOP, S_STOP
  | S_PLAY, S_PLAY | S_QUIT, S_QUIT => true
  | _, _ => false
  end.

Definition STATES (s : state) : string :=
  match s with
  | S_VOID => "Void"
  | S_EJCT => "Ejct"
  | S_STOP => "Stop"
  | S_PLAY => "Play"
  | S_QUIT => "Quit"
  end.

Definition GEND : state := S_VOID.

(** [enum error], thrown by the audio engine. *)
Definition error : Set := Z.

(** Modelled from the spec: [USECS_IN_SEC] of [constants.h], which is not
    among the sources; the multiplier the specification gives for the
    unit [s]. *)
Definition USECS_IN_SEC : Z := 1000000.

(** The calls to cuppa's [response] that [player.cpp] makes: the code
    and the arguments of the format. *)
Inductive response : Set :=
| R_OHAI
| R_TTFN
| R_STAT (previous current : string)
| R_TIME (time : Z).

(** What [player.cpp] uses and does not define: the [audio] class of
    [audio.h] with the methods the player calls, the broadcast period
    [TIME_USECS] of [constants.h], and the formatted extraction
    [is >> time >> rest] of the C++ library.  [extract_time_rest] gives
    what the locals [time] and [rest] hold after the extraction; on a
    string from which nothing is extracted [time] stays uninitialised,
    and the function gives the value the local then holds. *)
Class Engine (audio : Type) : Type := {
  audio_new : string -> Z -> error + audio;
  start : audio -> audio;
  stop : audio -> audio;
  seek_usec : Z -> audio -> audio * option error;
  halted : audio -> bool;
  usec : audio -> Z;
  decode : audio -> audio;
  TIME_USECS : Z;
  extract_time_rest : string -> Z * string
}.

Section WithEngine.
Context {audio : Type} `{Engine audio}.

(** [class player]; [responses] is the ghost trace of the lines written
    through [response], oldest first. *)
Record player : Type := mkPlayer {
  cstate : state;
  device : Z;
  au : option audio;
  ptime : Z;
  responses : list response
}.

Definition with_cstate (st : state) (p : player) : player :=
  mkPlayer st (device p) (au p) (ptime p) (responses p).
Definition with_au (a : option audio) (p : player) : player :=
  mkPlayer (cstate p) (device p) a (ptime p) (responses p).
Definition with_ptime (t : Z) (p : player) : player :=
  mkPlayer (cstate p) (device p) (au p) t (responses p).
Definition respond (r : response) (p : player) : player :=
  mkPlayer (cstate p) (device p) (au p) (ptime p) (responses p ++ [r]).

Definition PM (A : Type) : Type := M error player A.

(** [player::player].  The constructor does not initialise [ptime];
    [ptime0] is the value the member happens to start with. *)
Definition player_new (device ptime0 : Z) : player :=
  mkPlayer S_EJCT device None ptime0 [].

(** [this->au->f()] for a method that changes the audio. *)
Definition au_call (f : audio -> audio) : PM unit :=
  p <- get ;;
  match au p with
  | None => undefined
  | Some a => put (with_au (Some (f a)) p)
  end.

(** [this->au->f()] for a method that reports on the audio. *)
Definition au_query {A} (f : audio -> A) : PM A :=
  p <- get ;;
  match au p with
  | None => undefined
  | Some a => ret (f a)
  end.

(** [player::state]. *)
Definition state_of : PM state := p <- get ;; ret (cstate p).

(** The loop of [player::gate_state] over its variadic arguments: [i] is
    the argument in hand and [ap] those not yet read.  Reading past the
    last argument is undefined, hence the [option]. *)
Fixpoint gate_loop (cs i : state) (ap : list state) : option bool :=
  if state_eqb i GEND then Some false
  else if state_eqb cs i then
    match ap with
    | [] => None
    | _ :: _ => Some true
    end
  else
    match ap with
    | [] => None
    | j :: ap' => gate_loop cs j ap'
    end.

(** [player::gate_state]. *)
Definition gate_state (s1 : state) (rest : list state) : PM bool :=
  p <- get ;;
  match gate_loop (cstate p) s1 rest with
  | Some in_state => ret in_state
  | None => undefined
  end.

(** [player::set_state]. *)
Definition set_state (st : state) : PM unit :=
  p <- get ;;
  let pstate := cstate p in
  modify (with_cstate st) ;;
  modify (respond (R_STAT (STATES pstate) (STATES st))).

(** [player::cmd_ejct]. *)
Definition cmd_ejct : PM bool :=
  valid <- gate_state S_STOP [S_PLAY; GEND] ;;
  if valid : bool then
    modify (with_au None) ;;
    set_state S_EJCT ;;
    modify (with_ptime 0) ;;
    ret valid
  else ret valid.

(** [player::cmd_play]. *)
Definition cmd_play : PM bool :=
  in_state <- gate_state S_STOP [GEND] ;;
  p <- get ;;
  let valid := in_state && bool_decide (au p <> None) in
  if valid then
    au_call start ;;
    set_state S_PLAY ;;
    ret valid
  else ret valid.

(** [player::cmd_quit]. *)
Definition cmd_quit : PM bool :=
  cmd_ejct ;;
  set_state S_QUIT ;;
  ret true.

(** [player::cmd_stop]. *)
Definition cmd_stop : PM bool :=
  valid <- gate_state S_PLAY [GEND] ;;
  if valid : bool then
    au_call stop ;;
    ret valid
  else ret valid.

(** [new audio(filename, this->device)]. *)
Definition new_audio (filename : string) : PM audio :=
  p <- get ;;
  match audio_new filename (device p) with
  | inl e => throw e
  | inr a => ret a
  end.

(** [player::cmd_load].  The assignment to [au] happens only when the
    constructor returns; the debug line of [dbug] is left out. *)
Definition cmd_load (filename : string) : PM bool :=
  try_catch
    (a <- new_audio filename ;;
     modify (with_au (Some a)) ;;
     set_state S_STOP)
    (fun _ => cmd_ejct ;; ret tt) ;;
  ret true.

(** [this->au->seek_usec(time)]. *)
Definition au_seek_usec (time : Z) : PM unit :=
  p <- get ;;
  match au p with
  | None => undefined
  | Some a =>
      let '(a', thrown) := seek_usec time a in
      put (with_au (Some a') p) ;;
      match thrown with
      | Some e => throw e
      | None => ret tt
      end
  end.

(** [player::cmd_seek]. *)
Definition cmd_seek (time_str : string) : PM bool :=
  let '(time0, rest) := extract_time_rest time_str in
  let time :=
    if (rest =? "s")%string || (rest =? "sec")%string
    then u64 (time0 * USECS_IN_SEC) else time0 in
  valid <- gate_state S_PLAY [S_STOP; GEND] ;;
  if valid : bool then
    p <- get ;;
    let current_state := cstate p in
    cmd_stop ;;
    au_seek_usec time ;;
    (if state_eqb current_state S_PLAY then cmd_play ;; ret tt else ret tt) ;;
    ret valid
  else ret valid.

(** [player::loop_iter]. *)
Definition loop_iter : PM unit :=
  p <- get ;;
  (if state_eqb (cstate p) S_PLAY then
     h <- au_query halted ;;
     if h : bool then cmd_ejct ;; ret tt
     else
       time <- au_query usec ;;
       p1 <- get ;;
       (if time / TIME_USECS >? ptime p1 / TIME_USECS
        then modify (respond (R_TIME time)) else ret tt) ;;
       modify (with_ptime time)
   else ret tt) ;;
  p2 <- get ;;
  if state_eqb (cstate p2) S_PLAY || state_eqb (cstate p2) S_STOP
  then au_call decode
  else ret tt.

(** [words[1]] on a vector that may be too short. *)
Definition word1 (words : list string) : PM string :=
  match words with
  | _ :: w :: _ => ret w
  | _ => undefined
  end.

(** The table [PLAYER_CMDS] of [player::main_loop]. *)
Definition PLAYER_CMDS : list (string * (list string -> PM bool)) :=
  [ ("play", fun words => cmd_play);
    ("stop", fun words => cmd_stop);
    ("ejct", fun words => cmd_ejct);
    ("quit", fun words => cmd_quit);
    ("load", fun words => w <- word1 words ;; cmd_load w);
    ("seek", fun words => w <- word1 words ;; cmd_load w) ].

Fixpoint find_command (verb : string)
    (cmds : list (string * (list string -> PM bool)))
    : option (list string -> PM bool) :=
  match cmds with
  | [] => None
  | (name, handler) :: cmds' =>
      if (name =? verb)%string then Some handler else find_command verb cmds'
  end.

(** One received command line, as cuppa's [check_commands] hands it to
    the table: the handler bound to the first word runs on the words.
    [None] is returned for a line that names no command; the
    acknowledgement cuppa then writes is outside [player.cpp]. *)
Definition run_command (words : list string) : PM (option bool) :=
  match words with
  | [] => ret None
  | verb :: _ =>
      match find_command verb PLAYER_CMDS with
      | None => ret None
      | Some handler => valid <- handler words ;; ret (Some valid)
      end
  end.

Fixpoint run_commands (lines : list (list string)) : PM unit :=
  match lines with
  | [] => ret tt
  | words :: lines' => run_command words ;; run_commands lines'
  end.

(** [player::main_loop] over the command lines that arrive at each
    iteration; the loop ends when the state is [S_QUIT] (or, here, when
    the recorded input does). *)
Fixpoint main_iters (ticks : list (list (list string))) : PM unit :=
  match ticks with
  | [] => ret tt
  | lines :: ticks' =>
      st <- state_of ;;
      if state_eqb st S_QUIT then modify (respond R_TTFN)
      else
        run_commands lines ;;
        loop_iter ;;
        main_iters ticks'
  end.

Definition main_loop (ticks : list (list (list string))) : PM unit :=
  modify (respond R_OHAI) ;;
  main_iters ticks.

(** The handlers by name. *)
Inductive command : Type :=
| CmdPlay
| CmdStop
| CmdEjct
| CmdQuit
| CmdLoad (filename : string)
| CmdSeek (time_str : string).

Definition handler (c : command) : PM bool :=
  match c with
  | CmdPlay => cmd_play
  | CmdStop => cmd_stop
  | CmdEjct => cmd_ejct
  | CmdQuit => cmd_quit
  | CmdLoad f => cmd_load f
  | CmdSeek t => cmd_seek t
  end.

(** A state in which the handler dereferences [au] has an audio. *)
Definition audio_held (p : player) : Prop :=
  cstate p = S_STOP \/ cstate p = S_PLAY -> au p <> None.

End WithEngine.
Arguments player audio : clear implicits.

End Player.

(** * The audio pipe *)

(** ** Shared declarations *)

(** [Audio::State] of [audio/audio.hpp]. *)
Module Audio.
Inductive State : Set := NONE | STOPPED | PLAYING | AT_END.

Definition State_eqb (a b : State) : bool :=
  match a, b with
  | NONE, NONE | STOPPED, STOPPED | PLAYING, PLAYING | AT_END, AT_END => true
  | _, _ => false
  end.
End Audio.

(** Modelled from the spec: the messages of [messages.h] that the audio
    code names; the header is not among the sources, so a message is kept
    by its name, and a message built on the spot by its text. *)
Inductive Message : Set :=
| MSG_CMD_NEEDS_LOADED
| MSG_SEEK_FAIL
| MSG_DECODE_BADRATE
| MSG_TEXT (text : string).

(** Modelled from the spec: the exception classes of [errors.hpp] that
    the audio code throws, each with its message; the header is not among
    the sources. *)
Inductive Error : Set :=
| ConfigError (msg : Message)
| FileError (msg : Message)
| SeekError (msg : Message)
| NoAudioError (msg : Message).

(** Modelled from the spec: [SampleFormat] of [sample_formats.hpp], which
    is not among the sources; the five formats of the specification, under
    the names the table [sdl_from_sf] gives them. *)
Inductive SampleFormat : Set :=
| PACKED_UNSIGNED_INT_8
| PACKED_SIGNED_INT_8
| PACKED_SIGNED_INT_16
| PACKED_SIGNED_INT_32
| PACKED_FLOAT_32.

Definition zero_byte : byte := Byte.x00.

(** An [option] read inside the monad: [None] is undefined behaviour. *)
Definition defined {E S A} (o : option A) : M E S A :=
  match o with
  | Some a => ret a
  | None => undefined
  end.

(** ** audio/audio_source.hpp, and the conversions of audio/audio_source.cpp *)

Module AudioSource.

Inductive DecodeState : Set := WAITING_FOR_FRAME | DECODING | END_OF_FILE.

Definition DecodeState_eqb (a b : DecodeState) : bool :=
  match a, b with
  | WAITING_FOR_FRAME, WAITING_FOR_FRAME
  | DECODING, DECODING
  | END_OF_FILE, END_OF_FILE => true
  | _, _ => false
  end.

Definition DecodeVector : Set := list byte.
Definition DecodeResult : Set := DecodeState * DecodeVector.

(** The [const] accessors of [class AudioSource].  [None] stands for an
    accessor whose assertion fails.  [SampleRate] is the [std::uint32_t]
    of the header. *)
Class Properties (S : Type) : Type := {
  ChannelCount : S -> option Z;
  SampleRate : S -> option Z;
  OutputSampleFormat : S -> SampleFormat;
  BytesPerSample : S -> option Z;
  Path : S -> option string
}.

(** The pure virtual [Decode] and [Seek]. *)
Class Interface (S : Type) `{Properties S} : Type := {
  Decode : M Error S DecodeResult;
  Seek : Z -> M Error S Z
}.

(** [AudioSource::SamplesFromMicros]. *)
Definition SamplesFromMicros {S} `{Properties S} (s : S) (micros : Z)
    : option Z :=
  rate ← SampleRate s;
  Some (u64 (micros * rate) / 1000000).

(** [AudioSource::MicrosFromSamples]; a division by a zero rate is
    undefined. *)
Definition MicrosFromSamples {S} `{Properties S} (s : S) (samples : Z)
    : option Z :=
  rate ← SampleRate s;
  if rate =? 0 then None else Some (u64 (samples * 1000000) / rate).

End AudioSource.

(** ** The ring buffer *)

Module RingBuffer.

(** Modelled from the spec: the [RingBuffer] class of [ringbuffer.hpp],
    which is not among the sources.  The ring is parameterised by [power]
    (its capacity is [2 ^ power] samples) and by the bytes per sample; it
    holds the bytes written and not yet read, oldest first.  [Write] and
    [Read] never block and move at most the capacity on their side;
    [Flush] drops what is pending.  One thread at a time is modelled. *)
Record t : Set := mk {
  power : Z;
  bytes_per_sample : Z;
  pending : list byte
}.

(** Modelled from the spec: the constructor, an empty ring. *)
Definition new (power bytes_per_sample : Z) : t := mk power bytes_per_sample [].

(** Modelled from the spec: [ReadCapacity], the pending samples. *)
Definition ReadCapacity (rb : t) : Z :=
  Z.of_nat (length (pending rb)) / bytes_per_sample rb.

(** Modelled from the spec: [WriteCapacity], the room left. *)
Definition WriteCapacity (rb : t) : Z :=
  2 ^ power rb - ReadCapacity rb.

(** Modelled from the spec: [Write(start, count)]; the result is the
    number of samples written, and the ring after. *)
Definition Write (rb : t) (start : list byte) (count : Z) : Z * t :=
  let n := Z.max 0 (Z.min count (WriteCapacity rb)) in
  let nbytes := Z.to_nat (n * bytes_per_sample rb) in
  (n, mk (power rb) (bytes_per_sample rb) (pending rb ++ take nbytes start)).

(** Modelled from the spec: [Read(out, count)]; the result is the number
    of samples read, their bytes, and the ring after. *)
Definition Read (rb : t) (count : Z) : Z * list byte * t :=
  let n := Z.max 0 (Z.min count (ReadCapacity rb)) in
  let nbytes := Z.to_nat (n * bytes_per_sample rb) in
  (n, take nbytes (pending rb),
   mk (power rb) (bytes_per_sample rb) (drop nbytes (pending rb))).

(** Modelled from the spec: [Flush]. *)
Definition Flush (rb : t) : t := mk (power rb) (bytes_per_sample rb) [].

(** The ring holds whole samples and no more than its capacity. *)
Definition wf (rb : t) : Prop :=
  0 < bytes_per_sample rb /\
  0 <= power rb /\
  (Z.of_nat (length (pending rb)) mod bytes_per_sample rb = 0) /\
  ReadCapacity rb <= 2 ^ power rb.

End RingBuffer.

(** ** audio/audio_sink.cpp *)

(** What the sink asks of SDL.  [SDL_GetAudioDeviceName] gives the name
    of a playback device, [None] for a null pointer;
    [SDL_OpenAudioDevice] gives the handle for a name and the wanted
    format, 0 when it fails; [SDL_GetError] is the text of the last
    error. *)
Inductive SDL_AudioFormat : Set :=
| AUDIO_U8 | AUDIO_S8 | AUDIO_S16 | AUDIO_S32 | AUDIO_F32.

Record SDL_AudioSpec : Set := mkSpec {
  freq : Z;
  format : SDL_AudioFormat;
  channels : Z
}.

Class SDL : Type := {
  SDL_GetAudioDeviceName : Z -> option string;
  SDL_OpenAudioDevice : string -> SDL_AudioSpec -> Z;
  SDL_GetError : string
}.

Module SdlAudioSink.

(** [sdl_from_sf]. *)
Definition sdl_from_sf : list (SampleFormat * SDL_AudioFormat) :=
  [ (PACKED_UNSIGNED_INT_8, AUDIO_U8);
    (PACKED_SIGNED_INT_8, AUDIO_S8);
    (PACKED_SIGNED_INT_16, AUDIO_S16);
    (PACKED_SIGNED_INT_32, AUDIO_S32);
    (PACKED_FLOAT_32, AUDIO_F32) ].

Definition SampleFormat_eqb (a b : SampleFormat) : bool :=
  match a, b with
  | PACKED_UNSIGNED_INT_8, PACKED_UNSIGNED_INT_8
  | PACKED_SIGNED_INT_8, PACKED_SIGNED_INT_8
  | PACKED_SIGNED_INT_16, PACKED_SIGNED_INT_16
  | PACKED_SIGNED_INT_32, PACKED_SIGNED_INT_32
  | PACKED_FLOAT_32, PACKED_FLOAT_32 => true
  | _, _ => false
  end.

(** [SdlAudioSink::SDLFormat]. *)
Definition SDLFormat (fmt : SampleFormat) : Error + SDL_AudioFormat :=
  match List.find (fun e => SampleFormat_eqb (fst e) fmt) sdl_from_sf with
  | Some e => inr (snd e)
  | None => inl (FileError MSG_DECODE_BADRATE)
  end.

(** [class SdlAudioSink].  [paused] is the pause state of the SDL device,
    which [SDL_PauseAudioDevice] sets; a device is opened paused. *)
Record t : Set := mk {
  bytes_per_sample : Z;
  ring_buf : RingBuffer.t;
  position_sample_count : Z;
  source_out : bool;
  state : Audio.State;
  device : Z;
  paused : bool
}.

Definition with_ring_buf (rb : RingBuffer.t) (k : t) : t :=
  mk (bytes_per_sample k) rb (position_sample_count k) (source_out k)
     (state k) (device k) (paused k).
Definition with_position (n : Z) (k : t) : t :=
  mk (bytes_per_sample k) (ring_buf k) n (source_out k)
     (state k) (device k) (paused k).
Definition with_source_out (b : bool) (k : t) : t :=
  mk (bytes_per_sample k) (ring_buf k) (position_sample_count k) b
     (state k) (device k) (paused k).
Definition with_state (st : Audio.State) (k : t) : t :=
  mk (bytes_per_sample k) (ring_buf k) (position_sample_count k)
     (source_out k) st (device k) (paused k).
Definition with_paused (b : bool) (k : t) : t :=
  mk (bytes_per_sample k) (ring_buf k) (position_sample_count k)
     (source_out k) (state k) (device k) b.

Definition SM (A : Type) : Type := M Error t A.

Definition RINGBUF_POWER : Z := 16.

(** The constructor of [SdlAudioSink]; the result is the sink built. *)
Definition SdlAudioSink `{SDL} {S : Type} `{AudioSource.Properties S}
    (source : S) (device_id : Z) : M Error unit t :=
  bps <- defined (AudioSource.BytesPerSample source) ;;
  match SDL_GetAudioDeviceName device_id with
  | None =>
      throw (ConfigError (MSG_TEXT ("invalid device id: " +:+ pretty device_id)))
  | Some name =>
      rate <- defined (AudioSource.SampleRate source) ;;
      fmt <- match SDLFormat (AudioSource.OutputSampleFormat source) with
             | inl e => throw e
             | inr f => ret f
             end ;;
      count <- defined (AudioSource.ChannelCount source) ;;
      let want := mkSpec rate fmt count in
      let device := SDL_OpenAudioDevice name want in
      if device =? 0
      then throw (ConfigError
                    (MSG_TEXT ("couldn't open device: " +:+ SDL_GetError)))
      else ret (mk bps (RingBuffer.new RINGBUF_POWER bps)
                  0 false Audio.STOPPED device true)
  end.

(** [SdlAudioSink::Start]. *)
Definition Start : SM unit :=
  k <- get ;;
  if negb (Audio.State_eqb (state k) Audio.STOPPED) then ret tt
  else
    modify (with_paused false) ;;
    modify (with_state Audio.PLAYING).

(** [SdlAudioSink::Stop]. *)
Definition Stop : SM unit :=
  k <- get ;;
  if Audio.State_eqb (state k) Audio.STOPPED then ret tt
  else
    modify (with_paused true) ;;
    modify (with_state Audio.STOPPED).

(** [SdlAudioSink::State]. *)
Definition State (k : t) : Audio.State := state k.

(** [SdlAudioSink::SourceOut]. *)
Definition SourceOut : SM unit :=
  k <- get ;;
  assert (source_out k || negb (Audio.State_eqb (state k) Audio.AT_END)) ;;
  modify (with_source_out true).

(** [SdlAudioSink::Position]. *)
Definition Position (k : t) : Z := position_sample_count k.

(** [SdlAudioSink::SetPosition]. *)
Definition SetPosition (samples : Z) : SM unit :=
  modify (with_position samples) ;;
  modify (with_source_out false) ;;
  k <- get ;;
  (if Audio.State_eqb (state k) Audio.AT_END then
     modify (with_state Audio.STOPPED) ;;
     Stop
   else ret tt) ;;
  k' <- get ;;
  modify (with_ring_buf (RingBuffer.Flush (ring_buf k'))).

(** [SdlAudioSink::Transfer] on the vector [v], from the iterator [start]
    to the iterator [end_], both as offsets into [v]; the result is
    [start] as the call leaves it.  A remainder or quotient by a sample
    size of zero is undefined. *)
Definition Transfer (v : list byte) (start end_ : Z) : SM Z :=
  assert (start <=? end_) ;;
  if start =? end_ then ret start
  else
    let bytes := end_ - start in
    k <- get ;;
    assert (negb (bytes_per_sample k =? 0)) ;;
    assert (bytes mod bytes_per_sample k =? 0) ;;
    assert (0 <? bytes) ;;
    let samples := bytes / bytes_per_sample k in
    let count := Z.min samples (RingBuffer.WriteCapacity (ring_buf k)) in
    if count =? 0 then ret start
    else
      let '(written_count, rb) :=
        RingBuffer.Write (ring_buf k) (drop (Z.to_nat start) v) count in
      modify (with_ring_buf rb) ;;
      assert (written_count =? count) ;;
      let start' := start + written_count * bytes_per_sample k in
      assert (start' <=? end_) ;;
      ret start'.

(** [memset(out, 0, n)] on a buffer of [length out] bytes. *)
Definition memset_zero (out : list byte) (n : Z) : option (list byte) :=
  if (0 <=? n) && (n <=? Z.of_nat (length out))
  then Some (replicate (Z.to_nat n) zero_byte ++ drop (Z.to_nat n) out)%list
  else None.

(** The bytes a read from the ring stores at the front of [out]. *)
Definition store_front (out data : list byte) : option (list byte) :=
  if (length data <=? length out)%nat
  then Some (data ++ drop (length data) out)%list
  else None.

(** [SdlAudioSink::Callback]; the result is the buffer [out] as the call
    leaves it.  A quotient by a sample size of zero is undefined. *)
Definition Callback (out : list byte) (nbytes : Z) : SM (list byte) :=
  assert (0 <=? nbytes) ;;
  let lnbytes := nbytes in
  out0 <- defined (memset_zero out lnbytes) ;;
  k <- get ;;
  if negb (Audio.State_eqb (state k) Audio.PLAYING) then ret out0
  else
    let avail_samples := RingBuffer.ReadCapacity (ring_buf k) in
    if avail_samples =? 0 then
      (if source_out k then modify (with_state Audio.AT_END) else ret tt) ;;
      ret out0
    else
      assert (negb (bytes_per_sample k =? 0)) ;;
      let req_samples := lnbytes / bytes_per_sample k in
      let samples := Z.min req_samples avail_samples in
      let '(read_samples, data, rb) := RingBuffer.Read (ring_buf k) samples in
      modify (with_ring_buf rb) ;;
      out1 <- defined (store_front out0 data) ;;
      modify (with_position (u64 (position_sample_count k + read_samples))) ;;
      ret out1.

(** The sink and its ring agree on the sample size, and the sink is at
    the end only when the source is out. *)
Definition wf (k : t) : Prop :=
  RingBuffer.wf (ring_buf k) /\
  RingBuffer.bytes_per_sample (ring_buf k) = bytes_per_sample k /\
  (state k = Audio.AT_END -> source_out k = true).

End SdlAudioSink.

(** ** The SoX source of audio/audio_source.cpp *)

Module SoXAudioSource.

(** libsox, as far as the source touches it.  A [sox_format_t] carries
    the file name and the signal description the source reads, and the
    decoder's stream: every sample of the file, channels interleaved,
    with the offset of the next one.  [sox_read] hands out at most [len]
    samples; [sox_seek] moves the offset of a seekable file and fails on
    any other. *)
Record sox_format_t : Set := mk_sox {
  filename : string;
  signal_rate : Z;
  signal_channels : Z;
  signal_length : Z;
  seekable : bool;
  stream : list Z;
  offset : Z
}.

Definition sox_read (ft : sox_format_t) (len : Z) : list Z * sox_format_t :=
  let got := take (Z.to_nat len) (drop (Z.to_nat (offset ft)) (stream ft)) in
  (got,
   mk_sox (filename ft) (signal_rate ft) (signal_channels ft)
     (signal_length ft) (seekable ft) (stream ft)
     (offset ft + Z.of_nat (length got))).

Definition sox_seek (ft : sox_format_t) (off : Z) : bool * sox_format_t :=
  if seekable ft
  then (true,
        mk_sox (filename ft) (signal_rate ft) (signal_channels ft)
          (signal_length ft) true (stream ft) off)
  else (false, ft).

(** [sox_open_read] on a path: the files that can be opened. *)
Class LibSoX : Type := {
  sox_open_read : string -> option sox_format_t
}.

(** [class SoXAudioSource]. *)
Record t : Set := mk {
  buffer : list byte;
  context : option sox_format_t;
  decode_state : AudioSource.DecodeState
}.

Definition with_buffer (b : list byte) (s : t) : t :=
  mk b (context s) (decode_state s).
Definition with_context (c : option sox_format_t) (s : t) : t :=
  mk (buffer s) c (decode_state s).
Definition with_decode_state (d : AudioSource.DecodeState) (s : t) : t :=
  mk (buffer s) (context s) d.

Definition BUFFER_SIZE : Z := 16384.

(** [SoXAudioSource::Path]. *)
Definition Path (s : t) : option string :=
  ctx ← context s; Some (filename ctx).

(** [SoXAudioSource::ChannelCount], a [std::uint8_t]. *)
Definition ChannelCount (s : t) : option Z :=
  ctx ← context s; Some (u8 (signal_channels ctx)).

(** [SoXAudioSource::SampleRate].  The definition in [audio_source.cpp]
    returns the [double] of libsox, the declaration in
    [audio_source.hpp] a [std::uint32_t], and the conversions compute in
    integers: the rate is kept as an integer, and one that does not fit
    32 bits has no defined conversion. *)
Definition SampleRate (s : t) : option Z :=
  ctx ← context s;
  if (0 <=? signal_rate ctx) && (signal_rate ctx <? 2 ^ 32)
  then Some (signal_rate ctx) else None.

(** [SoXAudioSource::BytesPerSample]. *)
Definition BytesPerSample (s : t) : option Z :=
  channels ← ChannelCount s; Some (4 * channels).

(** [SoXAudioSource::OutputSampleFormat]. *)
Definition OutputSampleFormat (s : t) : SampleFormat :=
  PACKED_SIGNED_INT_32.

#[global] Instance SoX_properties : AudioSource.Properties t := {|
  AudioSource.ChannelCount := ChannelCount;
  AudioSource.SampleRate := SampleRate;
  AudioSource.OutputSampleFormat := OutputSampleFormat;
  AudioSource.BytesPerSample := BytesPerSample;
  AudioSource.Path := Path
|}.

(** [SoXAudioSource::BufferSampleCapacity]. *)
Definition BufferSampleCapacity (s : t) : option Z :=
  bps ← BytesPerSample s;
  if bps =? 0 then None else Some (Z.of_nat (length (buffer s)) / bps).

(** The four bytes of a [sox_sample_t], least significant first. *)
Definition byte_of_Z (z : Z) : byte :=
  default Byte.x00 (Byte.of_N (Z.to_N (z mod 256))).

Definition sample_bytes (z : Z) : list byte :=
  [ byte_of_Z z; byte_of_Z (z / 2 ^ 8);
    byte_of_Z (z / 2 ^ 16); byte_of_Z (z / 2 ^ 24) ].

Definition samples_bytes (l : list Z) : list byte :=
  concat (map sample_bytes l).

Section WithLibSoX.
Context `{LibSoX}.

(** [SoXAudioSource::Close]. *)
Definition Close : M Error t unit := modify (with_context None).

(** [SoXAudioSource::Open]. *)
Definition Open (path : string) : M Error t unit :=
  Close ;;
  modify (with_context (sox_open_read path)) ;;
  s <- get ;;
  match context s with
  | None => throw (FileError (MSG_TEXT ("couldn't open " +:+ path)))
  | Some _ => ret tt
  end.

(** The constructor.  Its initialiser list leaves [decode_state] alone;
    [ds0] is the value the member starts with. *)
Definition SoXAudioSource (path : string) (ds0 : AudioSource.DecodeState)
    : outcome Error t unit :=
  Open path (mk (replicate (Z.to_nat BUFFER_SIZE) zero_byte) None ds0).

(** [SoXAudioSource::Seek]. *)
Definition Seek (position : Z) : M Error t Z :=
  s <- get ;;
  _ <- defined (context s) ;;
  samples <- defined (AudioSource.SamplesFromMicros s position) ;;
  channels <- defined (ChannelCount s) ;;
  let sox_samples := u64 (samples * channels) in
  (if AudioSource.DecodeState_eqb (decode_state s) AudioSource.END_OF_FILE then
     path <- defined (Path s) ;;
     Close ;;
     Open path
   else ret tt) ;;
  s1 <- get ;;
  ctx <- defined (context s1) ;;
  if signal_length ctx <? sox_samples then throw (SeekError MSG_SEEK_FAIL)
  else
    let '(success, ctx') := sox_seek ctx sox_samples in
    modify (with_context (Some ctx')) ;;
    if negb success then throw (SeekError MSG_SEEK_FAIL)
    else
      modify (with_decode_state AudioSource.DECODING) ;;
      ret samples.

(** [SoXAudioSource::Decode]. *)
Definition Decode : M Error t AudioSource.DecodeResult :=
  s <- get ;;
  ctx <- defined (context s) ;;
  _ <- defined (head (buffer s)) ;;
  capacity <- defined (BufferSampleCapacity s) ;;
  channels <- defined (ChannelCount s) ;;
  let sox_capacity := u64 (capacity * channels) in
  let '(got, ctx') := sox_read ctx sox_capacity in
  let read := Z.of_nat (length got) in
  modify (with_context (Some ctx')) ;;
  modify (with_buffer
            (samples_bytes got ++ drop (length (samples_bytes got)) (buffer s))) ;;
  if read =? 0 then
    modify (with_decode_state AudioSource.END_OF_FILE) ;;
    ret (AudioSource.END_OF_FILE, [])
  else
    modify (with_decode_state AudioSource.DECODING) ;;
    s' <- get ;;
    bps <- defined (BytesPerSample s') ;;
    let read_bytes := u64 (bps * read) / channels in
    ret (AudioSource.DECODING, take (Z.to_nat read_bytes) (buffer s')).

#[global] Instance SoX_interface : AudioSource.Interface t := {|
  AudioSource.Decode := Decode;
  AudioSource.Seek := Seek
|}.

End WithLibSoX.

(** A source whose file is open, with at least one channel, the buffer
    of the constructor, and a stream of whole frames read up to a frame
    boundary. *)
Definition wf (s : t) : Prop :=
  match context s with
  | None => False
  | Some ctx =>
      let c := u8 (signal_channels ctx) in
      0 < c /\
      Z.of_nat (length (buffer s)) = BUFFER_SIZE /\
      0 <= offset ctx /\
      offset ctx mod c = 0 /\
      Z.of_nat (length (stream ctx)) mod c = 0
  end.

End SoXAudioSource.

(** ** audio/audio.cpp *)

Module Response.

(** Modelled from the spec: [Response::Code] of [response.hpp], which is
    not among the sources; the codes of the specification's response
    table. *)
Inductive Code : Set := OHAI | TTFN | STATE | TIME | FILE | END | ACK.

(** Modelled from the spec: the [Response] class of [response.hpp], a
    code followed by its arguments. *)
Record t : Set := mk { code : Code; args : list string }.

(** Modelled from the spec: the constructor [Response(code)], a response
    without arguments. *)
Definition Response (c : Code) : t := mk c [].

(** Modelled from the spec: [AddArg], which appends an argument. *)
Definition AddArg (arg : string) (r : t) : t := mk (code r) (args r ++ [arg]).

End Response.

(** A [const ResponseSink *] that is not null, by its address. *)
Definition ResponseSink : Set := positive.

(** One call [sink->Respond(r, id)]. *)
Record Respond : Set := mkRespond {
  to_sink : ResponseSink;
  to_id : Z;
  sent : Response.t
}.

(** [std::to_string] on a [std::uint64_t]. *)
Definition to_string (n : Z) : string := pretty (Z.to_N n).

Module NoAudio.

(** [NoAudio::Update]. *)
Definition Update : M Error unit Audio.State := ret Audio.NONE.

(** [NoAudio::Emit]; the result is the call to [Respond] it makes, if
    any. *)
Definition Emit (code : Response.Code) (sink : option ResponseSink) (id : Z)
    : M Error unit (option Respond) :=
  match sink with
  | None => ret None
  | Some rs =>
      match code with
      | Response.STATE =>
          let r := Response.AddArg "Ejected" (Response.Response Response.STATE) in
          ret (Some (mkRespond rs id r))
      | _ => ret None
      end
  end.

(** [NoAudio::SetPlaying]. *)
Definition SetPlaying (playing : bool) : M Error unit unit :=
  throw (NoAudioError MSG_CMD_NEEDS_LOADED).

(** [NoAudio::Seek]. *)
Definition Seek (position : Z) : M Error unit unit :=
  throw (NoAudioError MSG_CMD_NEEDS_LOADED).

(** [NoAudio::Position]. *)
Definition Position : M Error unit Z :=
  throw (NoAudioError MSG_CMD_NEEDS_LOADED).

End NoAudio.

Module PipeAudio.
Import AudioSource.

Section WithSource.
Context {S : Type} `{Interface S}.

(** [class PipeAudio].  The two [unique_ptr] members are held by value:
    the assertions that they are not null hold by construction.
    [frame_iterator] is the offset of the iterator into [frame]. *)
Record t : Type := mk {
  src : S;
  sink : SdlAudioSink.t;
  frame : DecodeVector;
  frame_iterator : Z;
  last_times : gmap ResponseSink Z
}.

Definition with_src (s : S) (p : t) : t :=
  mk s (sink p) (frame p) (frame_iterator p) (last_times p).
Definition with_sink (k : SdlAudioSink.t) (p : t) : t :=
  mk (src p) k (frame p) (frame_iterator p) (last_times p).
Definition with_frame (f : DecodeVector) (p : t) : t :=
  mk (src p) (sink p) f (frame_iterator p) (last_times p).
Definition with_frame_iterator (i : Z) (p : t) : t :=
  mk (src p) (sink p) (frame p) i (last_times p).
Definition with_last_times (m : gmap ResponseSink Z) (p : t) : t :=
  mk (src p) (sink p) (frame p) (frame_iterator p) m.

Definition PM (A : Type) : Type := M Error t A.

Definition on_src {A} (m : M Error S A) : PM A := zoom src with_src m.
Definition on_sink {A} (m : M Error SdlAudioSink.t A) : PM A :=
  zoom sink with_sink m.

Definition frame_end (p : t) : Z := Z.of_nat (length (frame p)).
Definition frame_empty (p : t) : bool :=
  match frame p with [] => true | _ :: _ => false end.

(** [PipeAudio::ClearFrame]. *)
Definition ClearFrame : PM unit :=
  modify (with_frame []) ;;
  p <- get ;;
  modify (with_frame_iterator (frame_end p)).

(** The constructor. *)
Definition PipeAudio (src : S) (sink : SdlAudioSink.t) : outcome Error t unit :=
  ClearFrame (mk src sink [] 0 ∅).

(** [PipeAudio::FrameFinished]. *)
Definition FrameFinished (p : t) : bool := frame_end p <=? frame_iterator p.

(** [PipeAudio::SetPlaying]. *)
Definition SetPlaying (playing : bool) : PM unit :=
  if playing then on_sink SdlAudioSink.Start else on_sink SdlAudioSink.Stop.

(** [PipeAudio::Position]. *)
Definition Position (p : t) : option Z :=
  MicrosFromSamples (src p) (SdlAudioSink.Position (sink p)).

(** [PipeAudio::Seek]. *)
Definition Seek (position : Z) : PM unit :=
  p <- get ;;
  in_samples <- defined (SamplesFromMicros (src p) position) ;;
  out_samples <- on_src (AudioSource.Seek in_samples) ;;
  on_sink (SdlAudioSink.SetPosition out_samples) ;;
  modify (with_last_times ∅) ;;
  ClearFrame.

(** [PipeAudio::DecodeIfFrameEmpty]. *)
Definition DecodeIfFrameEmpty : PM bool :=
  p <- get ;;
  assert (frame_empty p || negb (FrameFinished p)) ;;
  if negb (FrameFinished p) then ret true
  else
    result <- on_src Decode ;;
    modify (with_frame (snd result)) ;;
    modify (with_frame_iterator 0) ;;
    ret (negb (DecodeState_eqb (fst result) END_OF_FILE)).

(** [PipeAudio::TransferFrame]. *)
Definition TransferFrame : PM unit :=
  p <- get ;;
  assert (negb (frame_empty p)) ;;
  it <- on_sink (SdlAudioSink.Transfer (frame p) (frame_iterator p) (frame_end p)) ;;
  modify (with_frame_iterator it) ;;
  p1 <- get ;;
  (if FrameFinished p1 then
     ClearFrame ;;
     p2 <- get ;;
     assert (FrameFinished p2)
   else ret tt) ;;
  p3 <- get ;;
  assert (frame_empty p3
          || ((0 <=? frame_iterator p3) && (frame_iterator p3 <? frame_end p3))).

(** [PipeAudio::Update]. *)
Definition Update : PM Audio.State :=
  more_available <- DecodeIfFrameEmpty ;;
  (if negb more_available then on_sink SdlAudioSink.SourceOut else ret tt) ;;
  p <- get ;;
  (if negb (FrameFinished p) then TransferFrame else ret tt) ;;
  p' <- get ;;
  ret (SdlAudioSink.State (sink p')).

(** [std::map::emplace]: no effect on a key that is present. *)
Definition emplace (rs : ResponseSink) (secs : Z) (m : gmap ResponseSink Z)
    : gmap ResponseSink Z :=
  match m !! rs with
  | Some _ => m
  | None => <[rs := secs]> m
  end.

(** [PipeAudio::CanAnnounceTime]. *)
Definition CanAnnounceTime (micros : Z) (rs : ResponseSink) : PM bool :=
  let secs := micros / 1000 / 1000 in
  p <- get ;;
  let last_entry := last_times p !! rs in
  announce <-
    match last_entry with
    | Some last =>
        let announce := last <? secs in
        (if announce then modify (with_last_times (delete rs (last_times p)))
         else ret tt) ;;
        ret announce
    | None => ret true
    end ;;
  (if announce : bool then
     p' <- get ;;
     modify (with_last_times (emplace rs secs (last_times p')))
   else ret tt) ;;
  ret announce.

(** [PipeAudio::Emit]; the result is the call to [Respond] it makes, if
    any. *)
Definition Emit (code : Response.Code) (rs : option ResponseSink) (id : Z)
    : PM (option Respond) :=
  match rs with
  | None => ret None
  | Some rs =>
      let r := Response.Response code in
      match code with
      | Response.STATE =>
          p <- get ;;
          let state := SdlAudioSink.State (sink p) in
          let playing := Audio.State_eqb state Audio.PLAYING in
          let r := Response.AddArg (if playing then "Playing" else "Stopped") r in
          ret (Some (mkRespond rs id r))
      | Response.FILE =>
          p <- get ;;
          path <- defined (Path (src p)) ;;
          let r := Response.AddArg path r in
          ret (Some (mkRespond rs id r))
      | Response.TIME =>
          p <- get ;;
          micros <- defined (Position p) ;;
          can <- (if 0 <? id then ret true else CanAnnounceTime micros rs) ;;
          if negb can then ret None
          else
            let r := Response.AddArg (to_string micros) r in
            ret (Some (mkRespond rs id r))
      | _ => ret None
      end
  end.

(** The whole second of a position in microseconds, as
    [CanAnnounceTime] computes it. *)
Definition whole_second (micros : Z) : Z := micros / 1000 / 1000.

(** A stretch of the pipe's life without a seek, as far as TIME responses
    go: at each step the sink is whatever playback has made of it, and
    then [Emit] is asked for a TIME response for some sink and id.  The
    result lists the whole seconds of the broadcasts (id 0) that were
    made to [rs], oldest first. *)
Fixpoint announced_seconds (rs : ResponseSink)
    (steps : list (SdlAudioSink.t * ResponseSink * Z)) (p : t) : list Z :=
  match steps with
  | [] => []
  | (k, rs', id) :: steps' =>
      let p0 := with_sink k p in
      match Emit Response.TIME (Some rs') id p0, Position p0 with
      | Returns (Some _) p', Some micros =>
          if bool_decide (rs' = rs) && (id =? 0)
          then whole_second micros :: announced_seconds rs steps' p'
          else announced_seconds rs steps' p'
      | Returns None p', _ => announced_seconds rs steps' p'
      | Throws _ p', _ => announced_seconds rs steps' p'
      | _, _ => []
      end
  end.

(** After a tick: the frame is empty, or the iterator is inside a frame
    of whole samples, itself on a sample boundary. *)
Definition frame_in_progress (bps : Z) (p : t) : Prop :=
  0 <= frame_iterator p < frame_end p /\
  0 < frame_end p /\
  frame_end p mod bps = 0 /\
  frame_iterator p mod bps = 0.

Definition frame_ok (bps : Z) (p : t) : Prop :=
  (frame p = [] /\ frame_iterator p = 0) \/ frame_in_progress bps p.

(** What one call of the source's [Decode] has to deliver for the pipe:
    no undefined behaviour, whole samples, and the same sample size
    after as before. *)
Definition decode_delivers (bps : Z) (s : S) : Prop :=
  match Decode s with
  | Returns result s' =>
      Z.of_nat (length (snd result)) mod bps = 0 /\
      BytesPerSample s' = Some bps
  | Throws _ s' => BytesPerSample s' = Some bps
  | Undefined => False
  end.

(** The pipe between ticks: source and sink agree on the sample size,
    the sink is well formed, and the frame is empty or in progress. *)
Definition wf (bps : Z) (p : t) : Prop :=
  BytesPerSample (src p) = Some bps /\
  SdlAudioSink.bytes_per_sample (sink p) = bps /\
  SdlAudioSink.wf (sink p) /\
  frame_ok bps p.

(** What a tick leaves: a well-formed pipe with no finished frame in it. *)
Definition tick_done (bps : Z) (p : t) : Prop :=
  wf bps p /\ (FrameFinished p = true -> frame p = []).

(** Ticks in a row.  Between two ticks the callback runs at its own
    pace: before each tick the sink is whatever playback has made of it.
    The run stops at the first tick that does not return. *)
Fixpoint ticks (sinks : list SdlAudioSink.t) (p : t) : outcome Error t unit :=
  match sinks with
  | [] => Returns tt p
  | k :: sinks' =>
      match Update (with_sink k p) with
      | Returns _ p' => ticks sinks' p'
      | Throws e p' => Throws e p'
      | Undefined => Undefined
      end
  end.

End WithSource.
Arguments t S : clear implicits.

End PipeAudio.

(** The [Audio] a player holds: the null object or a pipe; a virtual call
    goes to the method of the variant. *)
Module AudioObject.
Import AudioSource.

Inductive t (S : Type) : Type :=
| Null
| Pipe (p : PipeAudio.t S).
Arguments Null {S}.
Arguments Pipe {S} p.

Section WithSource.
Context {S : Type} `{Interface S}.

Definition lift_null {A} (m : M Error unit A) : M Error (t S) A :=
  zoom (fun _ => tt) (fun _ a => a) m.

Definition lift_pipe {A} (p : PipeAudio.t S) (m : M Error (PipeAudio.t S) A)
    : M Error (t S) A :=
  zoom (fun _ => p) (fun p' _ => Pipe p') m.

Definition Emit (code : Response.Code) (rs : option ResponseSink) (id : Z)
    : M Error (t S) (option Respond) :=
  a <- get ;;
  match a with
  | Null => lift_null (NoAudio.Emit code rs id)
  | Pipe p => lift_pipe p (PipeAudio.Emit code rs id)
  end.

Definition Update : M Error (t S) Audio.State :=
  a <- get ;;
  match a with
  | Null => lift_null NoAudio.Update
  | Pipe p => lift_pipe p PipeAudio.Update
  end.

Definition SetPlaying (playing : bool) : M Error (t S) unit :=
  a <- get ;;
  match a with
  | Null => lift_null (NoAudio.SetPlaying playing)
  | Pipe p => lift_pipe p (PipeAudio.SetPlaying playing)
  end.

Definition Seek (position : Z) : M Error (t S) unit :=
  a <- get ;;
  match a with
  | Null => lift_null (NoAudio.Seek position)
  | Pipe p => lift_pipe p (PipeAudio.Seek position)
  end.

Definition Position : M Error (t S) Z :=
  a <- get ;;
  match a with
  | Null => lift_null NoAudio.Position
  | Pipe p => defined (PipeAudio.Position p)
  end.

End WithSource.

End AudioObject.

(** ** Loading a file *)

Module AudioSystem.
Import AudioSource.

Section WithHost.
Context `{SoXAudioSource.LibSoX} `{SDL}.

(** Modelled from the spec: [AudioSystem::Load] of [audio_system.cpp],
    which is not among the sources.  By the header it creates the audio
    for a file by chaining a source for the file to a sink on the
    system's device; here the source is the SoX source and the sink the
    SDL sink, built by their constructors and bound by the constructor
    of the pipe.  [ds0] is the initial [decode_state] of the source. *)
Definition Load (path : string) (device_id : Z) (ds0 : DecodeState)
    : outcome Error unit (PipeAudio.t SoXAudioSource.t) :=
  match SoXAudioSource.SoXAudioSource path ds0 with
  | Returns _ source =>
      match SdlAudioSink.SdlAudioSink source device_id tt with
      | Returns sink _ =>
          match PipeAudio.PipeAudio source sink with
          | Returns _ p => Returns p tt
          | Throws e _ => Throws e tt
          | Undefined => Undefined
          end
      | Throws e _ => Throws e tt
      | Undefined => Undefined
      end
  | Throws e _ => Throws e tt
  | Undefined => Undefined
  end.

End WithHost.

End AudioSystem.

(** * time_parser.cpp *)

Module TimeParser.

(** Modelled from the spec: [TimeParser::Multiplier] of [time_parser.hpp],
    which is not among the sources; the multipliers the specification
    gives for the units. *)
Inductive Multiplier : Set :=
| MICROSECONDS | MILLISECONDS | SECONDS | MINUTES | HOURS.

Definition Multiplier_value (m : Multiplier) : Z :=
  match m with
  | MICROSECONDS => 1
  | MILLISECONDS => 1000
  | SECONDS => 1000000
  | MINUTES => 60000000
  | HOURS => 3600000000
  end.

(** What [time_parser.cpp] throws: an [Error] of playd, or the
    [std::out_of_range] of the standard library with its message. *)
Inductive Exception : Set :=
| PlaydError (e : Error)
| out_of_range (what : string).

(** Modelled from the spec: [MicrosecondPosition] of [time_parser.hpp],
    which is not among the sources; an unsigned count of microseconds,
    64 bits wide like the positions [audio.cpp] takes.  The function is
    the conversion to the type. *)
Definition MicrosecondPosition (z : Z) : Z := u64 z.

(** ** Formatted extraction from a [std::istringstream]

    The stream is the characters not yet read.  Extraction skips the
    whitespace of the C locale first. *)
Definition isspace (c : ascii) : bool :=
  let n := Z.of_nat (nat_of_ascii c) in
  (n =? 32) || ((9 <=? n) && (n <=? 13)).

Definition isdigit (c : ascii) : bool :=
  let n := Z.of_nat (nat_of_ascii c) in (48 <=? n) && (n <=? 57).

Fixpoint skipws (s : string) : string :=
  match s with
  | EmptyString => EmptyString
  | String c s' => if isspace c then skipws s' else s
  end.

(** The decimal digits at the front of the stream, accumulated onto
    [acc]; [seen] tells whether a digit has been read. *)
Fixpoint read_digits (s : string) (acc : Z) (seen : bool)
    : Z * bool * string :=
  match s with
  | EmptyString => (acc, seen, EmptyString)
  | String c s' =>
      if isdigit c
      then read_digits s' (acc * 10 + (Z.of_nat (nat_of_ascii c) - 48)) true
      else (acc, seen, s)
  end.

(** [is >> raw_time] for a [MicrosecondPosition].  The field is an
    optional sign and decimal digits; without a digit, or with a value
    that does not fit the 64 bits of the type, the extraction fails; a
    minus sign negates in unsigned arithmetic.  The result is the value
    and the stream after it, [None] for a stream with [failbit] set. *)
Definition extract_unsigned (s : string) : option (Z * string) :=
  let s1 := skipws s in
  let '(negative, s2) :=
    match s1 with
    | String c s' =>
        if Ascii.eqb c "-" then (true, s')
        else if Ascii.eqb c "+" then (false, s')
        else (false, s1)
    | EmptyString => (false, s1)
    end in
  let '(n, seen, s3) := read_digits s2 0 false in
  if negb seen then None
  else if 2 ^ 64 <=? n then None
  else Some (if negative : bool then MicrosecondPosition (- n) else n, s3).

Fixpoint read_word (s : string) : string :=
  match s with
  | EmptyString => EmptyString
  | String c s' => if isspace c then EmptyString else String c (read_word s')
  end.

(** [is >> rest] for a [std::string] that starts empty: the next word,
    or nothing when the stream holds no more. *)
Definition extract_word (s : string) : string := read_word (skipws s).

(** [TimeParser::UnitMultiplier]. *)
Definition UnitMultiplier (unit : string) : Exception + Multiplier :=
  if (unit =? EmptyString)%string then inr MICROSECONDS
  else if (unit =? "us")%string then inr MICROSECONDS
  else if (unit =? "ms")%string then inr MILLISECONDS
  else if (unit =? "s")%string then inr SECONDS
  else if (unit =? "m")%string then inr MINUTES
  else if (unit =? "h")%string then inr HOURS
  else inl (out_of_range unit).

(** [TimeParser::IsIn]. *)
Definition IsIn (unit : string) (list : list string) : bool :=
  existsb (String.eqb unit) list.

(** [TimeParser::Split]. *)
Definition Split (time_str : string) : Exception + (string * Z) :=
  match extract_unsigned time_str with
  | None => inl (PlaydError (SeekError MSG_SEEK_FAIL))
  | Some (raw_time, is_) =>
      let rest := extract_word is_ in
      inr (rest, raw_time)
  end.

(** [TimeParser::Parse]. *)
Definition Parse (time_str : string) : Exception + Z :=
  match Split time_str with
  | inl e => inl e
  | inr seek =>
      let unit := fst seek in
      let num_units := snd seek in
      match UnitMultiplier unit with
      | inl e => inl e
      | inr m =>
          inr (MicrosecondPosition
                 (MicrosecondPosition (Multiplier_value m) * num_units))
      end
  end.

(** A stream that does not go on with a digit, and one that goes on
    with neither a digit nor a sign. *)
Definition no_digit_ahead (s : string) : Prop :=
  match s with
  | EmptyString => True
  | String c _ => isdigit c = false
  end.

Definition no_number_ahead (s : string) : Prop :=
  match s with
  | EmptyString => True
  | String c _ =>
      isdigit c = false /\ Ascii.eqb c "-" = false /\ Ascii.eqb c "+" = false
  end.

(** A word: characters without whitespace among them. *)
Definition no_space_in (s : string) : Prop :=
  Forall (fun c => isspace c = false) (list_ascii_of_string s).

(** The units [UnitMultiplier] knows. *)
Definition units : list string := [EmptyString; "us"; "ms"; "s"; "m"; "h"].

End TimeParser.

(** * The extraction of [player::cmd_seek] *)

Module SeekStream.
Import TimeParser.

(** [is >> time >> rest] on a fresh [std::istringstream] over [s], for
    the [uint64_t time] and the empty [std::string rest] of
    [player::cmd_seek]; the result is what the two locals hold after
    it.  On a string that is empty or all whitespace nothing is stored
    and [time] stays uninitialised: [None].  Otherwise [time] is
    written: the number read, 0 when no digit follows the optional
    sign, the largest value when the digits do not fit 64 bits; in
    these last two cases the stream has failed and [rest] stays
    empty. *)
Definition extract_time_and_rest (s : string) : option (Z * string) :=
  match skipws s with
  | EmptyString => None
  | String c s' =>
      let '(negative, s2) :=
        if Ascii.eqb c "-" then (true, s')
        else if Ascii.eqb c "+" then (false, s')
        else (false, String c s') in
      let '(n, seen, s3) := read_digits s2 0 false in
      if negb seen then Some (0, EmptyString)
      else if 2 ^ 64 <=? n then Some (2 ^ 64 - 1, EmptyString)
      else Some (if negative : bool then u64 (- n) else n, extract_word s3)
  end.

End SeekStream.

(** * The playback devices, [audio_sink.cpp] *)

(** [SDL_GetNumAudioDevices(0)], the number of playback devices SDL
    reports. *)
Class SDL_devices `{SDL} : Type := {
  SDL_GetNumAudioDevices : Z
}.

Module SdlAudioSinkDevices.

(** [SdlAudioSink::GetDevicesInfo]: the loop over [0 <= i < is], which
    skips the ids SDL has no name for. *)
Definition GetDevicesInfo `{SDL_devices} : list (Z * string) :=
  let is_ := SDL_GetNumAudioDevices in
  omap (fun i =>
          match SDL_GetAudioDeviceName i with
          | None => None
          | Some n => Some (i, n)
          end)
       (seqZ 0 is_).

(** [SdlAudioSink::IsOutputDevice]. *)
Definition IsOutputDevice `{SDL_devices} (id : Z) : bool :=
  let ids := SDL_GetNumAudioDevices in
  (0 <=? id) && (id <? ids).

End SdlAudioSinkDevices.

(** * Decoding a file to its end *)

Module SoXRounds.

(** The rounds of [SoXAudioSource::Decode] a caller makes until one
    reports the end of the file, at most [rounds] of them; the result is
    the bytes the rounds delivered, in order, and the source after the
    last. *)
Fixpoint decode_to_end `{SoXAudioSource.LibSoX} (rounds : nat)
    (s : SoXAudioSource.t) : option (list byte * SoXAudioSource.t) :=
  match rounds with
  | O => None
  | Datatypes.S rounds' =>
      match SoXAudioSource.Decode s with
      | Returns (AudioSource.END_OF_FILE, decoded) s' => Some (decoded, s')
      | Returns (_, decoded) s' =>
          match decode_to_end rounds' s' with
          | Some (more, s'') => Some ((decoded ++ more)%list, s'')
          | None => None
          end
      | _ => None
      end
  end.

End SoXRounds.

(** * The bytes on their way through the pipe *)

Module PipeQueue.

(** The bytes decoded and not yet played: those waiting in the ring of
    the sink, then those of the frame from the iterator on. *)
Definition queued {S : Type} `{AudioSource.Interface S}
    (p : PipeAudio.t S) : list byte :=
  (RingBuffer.pending (SdlAudioSink.ring_buf (PipeAudio.sink p))
   ++ drop (Z.to_nat (PipeAudio.frame_iterator p)) (PipeAudio.frame p))%list.

End PipeQueue.

(** * Concrete surroundings *)

(** ** A small engine for running the player *)

Module DemoEngine.

(** Modelled from the spec: the [audio] class of [audio.h], which is not
    among the sources.  An audio is a loaded path with a playing flag, a
    position in microseconds and a length. *)
Record demo_audio : Set := mkDemo {
  da_path : string;
  da_playing : bool;
  da_usec : Z;
  da_length : Z
}.

Definition demo_files : list (string * Z) := [("a.wav", 10000000)].

Fixpoint file_length (files : list (string * Z)) (path : string) : option Z :=
  match files with
  | [] => None
  | (name, len) :: files' =>
      if (name =? path)%string then Some len else file_length files' path
  end.

(** The extraction [is >> time >> rest] as the C++ library performs it.
    On a blank string, which leaves [time] uninitialised, this engine
    takes the local to hold 0. *)
Definition extract (s : string) : Z * string :=
  match SeekStream.extract_time_and_rest s with
  | Some held => held
  | None => (0, EmptyString)
  end.

(** Modelled from the spec: the methods of the [audio] class of
    [audio.h].  Loading succeeds for the files of [demo_files]; starting
    and stopping set the playing flag; seeking sets the position and
    fails past the length; the audio has halted when the position has
    reached the length. *)
#[global] Instance demo_engine : Player.Engine demo_audio := {|
  Player.audio_new path dev :=
    match file_length demo_files path with
    | Some len => inr (mkDemo path false 0 len)
    | None => inl 1
    end;
  Player.start a := mkDemo (da_path a) true (da_usec a) (da_length a);
  Player.stop a := mkDemo (da_path a) false (da_usec a) (da_length a);
  Player.seek_usec t a :=
    if t <=? da_length a
    then (mkDemo (da_path a) (da_playing a) t (da_length a), None)
    else (a, Some 2);
  Player.halted a := da_length a <=? da_usec a;
  Player.usec a := da_usec a;
  Player.decode a := a;
  Player.TIME_USECS := 1000000;
  Player.extract_time_rest := extract
|}.

(** A player that has loaded [a.wav] and is playing it from the start. *)
Definition playing_player : Player.player demo_audio :=
  Player.mkPlayer Player.S_PLAY 0
    (Some (mkDemo "a.wav" true 0 10000000)) 0 [].

Definition stopped_player : Player.player demo_audio :=
  Player.mkPlayer Player.S_STOP 0
    (Some (mkDemo "a.wav" false 0 10000000)) 0 [].

End DemoEngine.

(** ** A host for running the pipe

    One playback device, and one file: a tenth of a second of silence at
    44100 Hz in two channels. *)

Module DemoHost.
Import SoXAudioSource.

Definition silence : sox_format_t :=
  mk_sox "a.wav" 44100 2 8820 true (replicate (Z.to_nat 8820) 0) 0.

#[global] Instance demo_libsox : LibSoX := {|
  sox_open_read path := if (path =? "a.wav")%string then Some silence else None
|}.

#[global] Instance demo_sdl : SDL := {|
  SDL_GetAudioDeviceName id := if id =? 0 then Some "default" else None;
  SDL_OpenAudioDevice name want := 2;
  SDL_GetError := ""
|}.

(** The source on [a.wav], freshly opened. *)
Definition demo_source : SoXAudioSource.t :=
  SoXAudioSource.mk (replicate (Z.to_nat BUFFER_SIZE) zero_byte)
    (Some silence) AudioSource.DECODING.

(** A sink for [demo_source] in a given state, with [pending] in its
    ring. *)
Definition demo_sink (st : Audio.State) (out : bool) (position : Z)
    (pending : list byte) : SdlAudioSink.t :=
  SdlAudioSink.mk 8 (RingBuffer.mk 16 8 pending) position out st 2
    (negb (Audio.State_eqb st Audio.PLAYING)).

(** The pipe [Load] builds for [a.wav]. *)
Definition demo_pipe : PipeAudio.t SoXAudioSource.t :=
  PipeAudio.mk demo_source (demo_sink Audio.STOPPED false 0 []) [] 0 ∅.

(** Two samples for the ring, and a buffer of three samples' size with
    stale contents. *)
Definition two_samples : list byte :=
  [ Byte.x01; Byte.x02; Byte.x03; Byte.x04; Byte.x05; Byte.x06; Byte.x07; Byte.x08;
    Byte.x11; Byte.x12; Byte.x13; Byte.x14; Byte.x15; Byte.x16; Byte.x17; Byte.x18 ].

Definition stale_buffer : list byte := replicate 24%nat Byte.xff.

(** The pipe on [a.wav] with the sink in a given state and position and
    a given record of announced seconds. *)
Definition pipe_at (st : Audio.State) (position : Z)
    (lt : gmap ResponseSink Z) : PipeAudio.t SoXAudioSource.t :=
  PipeAudio.mk demo_source (demo_sink st false position []) [] 0 lt.

End DemoHost.

(** ** A host with three device ids, one of them without a name *)

Module DemoDevices.

Definition three_ids : SDL := {|
  SDL_GetAudioDeviceName id :=
    if id =? 0 then Some "default"
    else if id =? 2 then Some "headphones" else None;
  SDL_OpenAudioDevice name want := 2;
  SDL_GetError := ""
|}.

Definition three_devices : @SDL_devices three_ids := {|
  SDL_GetNumAudioDevices := 3
|}.

End DemoDevices.

(** ** The file of the host, decoded to its end *)

Module DemoEnd.
Import SoXAudioSource.

Definition played_out : sox_format_t :=
  mk_sox "a.wav" 44100 2 8820 true (replicate (Z.to_nat 8820) 0) 8820.

(** The source on [a.wav] with every sample read. *)
Definition ended_source (st : AudioSource.DecodeState) : SoXAudioSource.t :=
  SoXAudioSource.mk (replicate (Z.to_nat BUFFER_SIZE) zero_byte)
    (Some played_out) st.

End DemoEnd.

(** * Properties *)

(** ** Running the monad *)

Lemma bind_Returns {E S A B} (m : M E S A) (k : A -> M E S B) (s s' : S) (a : A) :
  m s = Returns a s' -> bind m k s = k a s'.
Proof. intros Hm. unfold bind. rewrite Hm. reflexivity. Qed.

Lemma bind_Throws {E S A B} (m : M E S A) (k : A -> M E S B) (s s' : S) (e : E) :
  m s = Throws e s' -> bind m k s = Throws e s'.
Proof. intros Hm. unfold bind. rewrite Hm. reflexivity. Qed.

Lemma bind_get {E S B} (k : S -> M E S B) (s : S) : bind get k s = k s s.
Proof. reflexivity. Qed.

Lemma u64_small (z : Z) : 0 <= z < 2 ^ 64 -> u64 z = z.
Proof. intros Hz. unfold u64. apply Z.mod_small. exact Hz. Qed.

(** ** The player *)

Section PlayerProperties.
Import Player.
Context {audio : Type} `{Engine audio}.

Ltac run_player :=
  repeat first
    [ progress simpl in *
    | progress subst
    | progress unfold cmd_play, cmd_stop, cmd_ejct, cmd_quit, cmd_load, cmd_seek,
        loop_iter, au_call, au_query, au_seek_usec, new_audio, gate_state,
        set_state, try_catch, bind, get, put, modify, ret, throw, undefined,
        with_au, with_cstate, with_ptime, respond in * ].

(** A handler whose state gate refuses the current state (play outside
    Stop, stop outside Play, ejct outside Stop and Play, and the handler
    [cmd_seek] outside Play and Stop) returns [false], the value the
    command layer reports as a user error, and leaves the whole player
    as it was: state, audio (and with it the position), last announced
    time, and responses written. *)
Lemma gate_refusal_changes_nothing (p : player audio) :
  (cstate p <> S_STOP -> cmd_play p = Returns false p) /\
  (cstate p <> S_PLAY -> cmd_stop p = Returns false p) /\
  (cstate p <> S_STOP -> cstate p <> S_PLAY -> cmd_ejct p = Returns false p) /\
  (cstate p <> S_PLAY -> cstate p <> S_STOP ->
   forall time_str, cmd_seek time_str p = Returns false p).
Proof.
  destruct p as [cs dev a pt rs]. cbn [cstate].
  repeat split; intros; destruct cs; try congruence; run_player;
    try reflexivity.
  all: destruct (extract_time_rest time_str) as [t0 rest]; reflexivity.
Qed.

(** The same for the verbs as the table binds them; [seek] is not among
    them, the table binds it to [cmd_load]. *)
Lemma refused_verb_changes_nothing (p : player audio) :
  (cstate p <> S_STOP -> run_command ["play"] p = Returns (Some false) p) /\
  (cstate p <> S_PLAY -> run_command ["stop"] p = Returns (Some false) p) /\
  (cstate p <> S_STOP -> cstate p <> S_PLAY ->
   run_command ["ejct"] p = Returns (Some false) p).
Proof.
  destruct p as [cs dev a pt rs]. cbn [cstate].
  repeat split; intros; destruct cs; try congruence; reflexivity.
Qed.

(** The [stop] handler in state Play: the audio is stopped, the handler
    returns [true], and nothing else changes; [set_state] is not called. *)
Lemma cmd_stop_in_play (p : player audio) (a : audio) :
  cstate p = S_PLAY ->
  au p = Some a ->
  cmd_stop p = Returns true (with_au (Some (stop a)) p).
Proof.
  intros Hs Ha. destruct p as [cs dev a0 pt rs]. simpl in *. subst.
  reflexivity.
Qed.

(** C4.  After [stop] in state Play the audio has been stopped, but the
    player's state is still Play and no STAT line was written. *)
Theorem cmd_stop_keeps_state_play (p : player audio) (a : audio) :
  cstate p = S_PLAY ->
  au p = Some a ->
  exists p',
    cmd_stop p = Returns true p' /\
    au p' = Some (stop a) /\
    cstate p' = S_PLAY /\
    cstate p' <> S_STOP /\
    responses p' = responses p.
Proof.
  intros Hs Ha. exists (with_au (Some (stop a)) p).
  rewrite (cmd_stop_in_play p a Hs Ha). simpl.
  rewrite Hs. repeat split; discriminate.
Qed.

(** [cmd_load] on any player: the new audio and Stop when the constructor
    returns, and an eject when it throws. *)
Lemma cmd_load_outcome (filename : string) (p : player audio) :
  exists p',
    cmd_load filename p = Returns true p' /\
    match audio_new filename (device p) with
    | inr a => au p' = Some a /\ cstate p' = S_STOP
    | inl _ =>
        if state_eqb (cstate p) S_STOP || state_eqb (cstate p) S_PLAY
        then au p' = None /\ cstate p' = S_EJCT
        else p' = p
    end.
Proof.
  destruct p as [cs dev a pt rs]. run_player.
  destruct (audio_new filename dev) as [e|a'] eqn:Hnew; simpl.
  - destruct cs; simpl; eexists; split; try reflexivity; simpl; auto.
  - eexists; split; [reflexivity|]. simpl. auto.
Qed.

(** C8.  The verb [seek] is not refused outside Play and Stop.  The
    table binds it to [cmd_load], which has no state gate: in every such
    state [seek t] is reported as valid, never as refused, and when [t]
    names a file that loads the player moves to Stop holding that file
    and writes the STAT line; only when no such file loads is the player
    left as it was.  The verbs play, stop and ejct are refused as the
    claim says. *)
Theorem seek_verb_is_not_gated (t : string) (p : player audio) :
  cstate p <> S_PLAY ->
  cstate p <> S_STOP ->
  exists p',
    run_command ["seek"; t] p = Returns (Some true) p' /\
    run_command ["seek"; t] p <> Returns (Some false) p /\
    match audio_new t (device p) with
    | inr a =>
        p' = mkPlayer S_STOP (device p) (Some a) (ptime p)
               (responses p ++ [R_STAT (STATES (cstate p)) "Stop"]) /\
        cstate p' <> cstate p /\
        au p' = Some a
    | inl _ => p' = p
    end.
Proof.
  intros Hplay Hstop. destruct p as [cs dev a pt rs]. cbn [cstate] in *.
  unfold run_command. cbn [find_command PLAYER_CMDS String.eqb Ascii.eqb
                           Bool.eqb word1].
  unfold bind at 1. unfold bind at 2. unfold ret at 1.
  unfold cmd_load, new_audio, try_catch, bind, get, put, ret, throw,
    set_state, modify, with_au, with_cstate, respond.
  cbn [device cstate au ptime responses].
  destruct (audio_new t dev) as [e|a'].
  - destruct cs; try congruence;
      (eexists; split; [reflexivity|split; [discriminate|reflexivity]]).
  - eexists. split; [reflexivity|]. split; [discriminate|].
    split; [reflexivity|]. split; [|reflexivity].
    cbn [cstate]. congruence.
Qed.

(** C1.  The table binds the verb [seek] to [cmd_load]: received in state
    Play, [seek t] builds an audio from the file named [t] and ends in
    Stop, or ejects when there is no such file; it never ends in Play and
    never calls [seek_usec]. *)
Theorem seek_verb_loads_a_file (t : string) (p : player audio) :
  cstate p = S_PLAY ->
  exists p',
    run_command ["seek"; t] p = Returns (Some true) p' /\
    run_command ["seek"; t] p = run_command ["load"; t] p /\
    cstate p' <> cstate p /\
    match audio_new t (device p) with
    | inr a => au p' = Some a /\ cstate p' = S_STOP
    | inl _ => au p' = None /\ cstate p' = S_EJCT
    end.
Proof.
  intros Hs.
  destruct (cmd_load_outcome t p) as (p' & Hrun & Hspec).
  exists p'. rewrite Hs in Hspec. simpl in Hspec.
  assert (Hseek : run_command ["seek"; t] p = Returns (Some true) p').
  { unfold run_command. simpl. unfold word1, bind, ret in *.
    unfold bind, ret in Hrun. simpl. rewrite Hrun. reflexivity. }
  split; [exact Hseek|]. split; [reflexivity|].
  rewrite Hs.
  destruct (audio_new t (device p)); destruct Hspec as [Ha Hc]; rewrite Hc;
    repeat split; auto; discriminate.
Qed.

(** The handler [cmd_seek], which the table never reaches, in state Play:
    the audio is stopped and sought, and the closing [cmd_play] is
    refused because the state is still Play, so the audio is not
    restarted. *)
Lemma cmd_seek_in_play (time_str : string) (p : player audio) (a : audio) :
  cstate p = S_PLAY ->
  au p = Some a ->
  let '(time0, rest) := extract_time_rest time_str in
  let time :=
    if (rest =? "s")%string || (rest =? "sec")%string
    then u64 (time0 * USECS_IN_SEC) else time0 in
  cmd_seek time_str p =
    match seek_usec time (stop a) with
    | (a', None) => Returns true (with_au (Some a') p)
    | (a', Some e) => Throws e (with_au (Some a') p)
    end.
Proof.
  intros Hs Ha. destruct p as [cs dev a0 pt rs]. simpl in *. subst.
  unfold cmd_seek.
  destruct (extract_time_rest time_str) as [time0 rest].
  run_player.
  destruct (seek_usec _ (stop a)) as [a' [e|]]; reflexivity.
Qed.

Ltac held :=
  solve [ auto
        | intros; congruence
        | intros [?|?]; discriminate
        | match goal with Hinv : _ -> _ <> None |- _ => apply Hinv; auto end ].

Lemma handler_keeps_audio (c : command) (p : player audio) :
  audio_held p -> leaves audio_held (handler c p).
Proof.
  unfold audio_held. intros Hinv.
  destruct p as [cs dev a pt rs]. simpl in Hinv.
  destruct c; simpl.
  - (* play *)
    destruct cs; run_player; auto.
    destruct a as [a|]; simpl; held.
  - (* stop *)
    destruct cs; run_player; auto.
    destruct a as [a|]; simpl; held.
  - (* ejct *)
    destruct cs; run_player; held.
  - (* quit *)
    destruct cs; run_player; held.
  - (* load *)
    run_player.
    destruct (audio_new filename dev) as [e|a']; simpl; [|held].
    destruct cs; simpl; held.
  - (* seek *)
    unfold cmd_seek.
    destruct (extract_time_rest time_str) as [time0 rest].
    destruct cs; run_player; auto.
    + destruct a as [a|]; simpl; [|held].
      destruct (seek_usec _ a) as [a' [e|]]; simpl; held.
    + destruct a as [a|]; simpl; [|held].
      destruct (seek_usec _ (stop a)) as [a' [e|]]; simpl; held.
Qed.

Lemma loop_iter_keeps_audio (p : player audio) :
  audio_held p -> leaves audio_held (loop_iter p).
Proof.
  unfold audio_held. intros Hinv.
  destruct p as [cs dev a pt rs]. simpl in Hinv.
  destruct cs; run_player; auto.
  - destruct a as [a|]; simpl; held.
  - destruct a as [a|]; simpl; [|held].
    destruct (halted a); simpl; [held|].
    destruct (_ >? _); simpl; held.
Qed.

(** C10.  A player in state Stop or Play holds an audio: the constructor
    establishes this, every handler and the loop iteration preserve it,
    whether they return or let an exception through, and under it none
    of them dereferences a null [au] (their outcome is never
    [Undefined]). *)
Theorem audio_held_invariant :
  (forall dev ptime0 : Z, audio_held (player_new (audio := audio) dev ptime0)) /\
  (forall (c : command) (p : player audio),
     audio_held p -> leaves audio_held (handler c p)) /\
  (forall p : player audio,
     audio_held p -> leaves audio_held (loop_iter p)).
Proof.
  split; [|split].
  - intros dev ptime0 [Hs|Hs]; discriminate.
  - apply handler_keeps_audio.
  - apply loop_iter_keeps_audio.
Qed.

End PlayerProperties.

(** ** The player on the demo engine *)

Section PlayerRuns.
Import Player DemoEngine.

Lemma gate_refusal_changes_nothing_witness :
  cstate playing_player <> S_STOP /\
  cmd_play playing_player = Returns false playing_player /\
  cstate (player_new (audio := demo_audio) 0 0) <> S_PLAY /\
  cstate (player_new (audio := demo_audio) 0 0) <> S_STOP /\
  cmd_seek "5s" (player_new 0 0) = Returns false (player_new 0 0).
Proof.
  assert (H1 : cstate playing_player <> S_STOP) by discriminate.
  assert (H2 : cstate (player_new (audio := demo_audio) 0 0) <> S_PLAY)
    by discriminate.
  assert (H3 : cstate (player_new (audio := demo_audio) 0 0) <> S_STOP)
    by discriminate.
  split; [exact H1|].
  split; [exact (proj1 (gate_refusal_changes_nothing playing_player) H1)|].
  split; [exact H2|]. split; [exact H3|].
  destruct (gate_refusal_changes_nothing (player_new (audio := demo_audio) 0 0))
    as (_ & _ & _ & Hseek).
  exact (Hseek H2 H3 "5s").
Defined.

Lemma seek_verb_is_not_gated_witness :
  cstate (player_new (audio := demo_audio) 0 0) <> S_PLAY /\
  cstate (player_new (audio := demo_audio) 0 0) <> S_STOP /\
  exists p',
    run_command ["seek"; "a.wav"] (player_new 0 0) = Returns (Some true) p' /\
    run_command ["seek"; "a.wav"] (player_new (audio := demo_audio) 0 0)
      <> Returns (Some false) (player_new 0 0) /\
    p' = mkPlayer S_STOP 0 (Some (mkDemo "a.wav" false 0 10000000)) 0
           [R_STAT "Ejct" "Stop"] /\
    cstate p' <> cstate (player_new (audio := demo_audio) 0 0) /\
    au p' = Some (mkDemo "a.wav" false 0 10000000).
Proof.
  assert (H1 : cstate (player_new (audio := demo_audio) 0 0) <> S_PLAY)
    by discriminate.
  assert (H2 : cstate (player_new (audio := demo_audio) 0 0) <> S_STOP)
    by discriminate.
  split; [exact H1|]. split; [exact H2|].
  exact (seek_verb_is_not_gated "a.wav" (player_new 0 0) H1 H2).
Defined.

Lemma cmd_stop_keeps_state_play_witness :
  cstate playing_player = S_PLAY /\
  au playing_player = Some (mkDemo "a.wav" true 0 10000000) /\
  exists p',
    cmd_stop playing_player = Returns true p' /\
    au p' = Some (stop (mkDemo "a.wav" true 0 10000000)) /\
    cstate p' = S_PLAY /\
    cstate p' <> S_STOP /\
    responses p' = responses playing_player.
Proof.
  split; [reflexivity|]. split; [reflexivity|].
  apply (cmd_stop_keeps_state_play playing_player
           (mkDemo "a.wav" true 0 10000000)); reflexivity.
Defined.

Lemma seek_verb_loads_a_file_witness :
  cstate playing_player = S_PLAY /\
  exists p',
    run_command ["seek"; "5s"] playing_player = Returns (Some true) p' /\
    run_command ["seek"; "5s"] playing_player
      = run_command ["load"; "5s"] playing_player /\
    cstate p' <> cstate playing_player /\
    match audio_new "5s" (device playing_player) with
    | inr a => au p' = Some a /\ cstate p' = S_STOP
    | inl _ => au p' = None /\ cstate p' = S_EJCT
    end.
Proof.
  split; [reflexivity|].
  apply (seek_verb_loads_a_file "5s" playing_player); reflexivity.
Defined.

(** The same runs, evaluated. *)
Example seek_5s_while_playing_ejects :
  run_command ["seek"; "5s"] playing_player
  = Returns (Some true)
      (mkPlayer S_EJCT 0 None 0 [R_STAT "Play" "Ejct"]).
Proof. reflexivity. Qed.

Example stop_while_playing :
  cmd_stop playing_player
  = Returns true
      (mkPlayer S_PLAY 0 (Some (mkDemo "a.wav" false 0 10000000)) 0 []).
Proof. reflexivity. Qed.

Example cmd_seek_5s_while_playing :
  cmd_seek "5s" playing_player
  = Returns true
      (mkPlayer S_PLAY 0 (Some (mkDemo "a.wav" false 5000000 10000000)) 0 []).
Proof. reflexivity. Qed.

(** With nothing loaded, [seek a.wav] loads [a.wav]: the verb is not
    gated. *)
Example seek_verb_while_ejected_loads :
  run_command ["seek"; "a.wav"] (player_new (audio := demo_audio) 0 0)
  = Returns (Some true)
      (mkPlayer S_STOP 0 (Some (mkDemo "a.wav" false 0 10000000)) 0
         [R_STAT "Ejct" "Stop"]).
Proof. reflexivity. Qed.

(** A session: load, play, stop, seek, quit, one line per iteration. *)
Example a_session :
  main_loop
    [ [["load"; "a.wav"]]; [["play"]]; [["stop"]]; [["seek"; "5s"]];
      [["quit"]]; [] ]
    (player_new (audio := demo_audio) 0 0)
  = Returns tt
      (mkPlayer S_QUIT 0 None 0
         [ R_OHAI; R_STAT "Ejct" "Stop"; R_STAT "Stop" "Play";
           R_STAT "Play" "Ejct"; R_STAT "Ejct" "Quit"; R_TTFN ]).
Proof. reflexivity. Qed.

Lemma audio_held_invariant_witness :
  audio_held (player_new (audio := demo_audio) 0 0) /\
  audio_held stopped_player /\
  leaves audio_held (handler CmdPlay stopped_player) /\
  leaves audio_held (loop_iter stopped_player).
Proof.
  assert (Hheld : audio_held stopped_player) by (intros _; discriminate).
  destruct (audio_held_invariant (audio := demo_audio)) as (Hnew & Hcmd & Hloop).
  split; [apply Hnew|]. split; [exact Hheld|]. split.
  - apply (Hcmd CmdPlay stopped_player Hheld).
  - apply (Hloop stopped_player Hheld).
Defined.

End PlayerRuns.

(** ** The audio pipe *)

Section TimeConversions.
Import AudioSource.
Context {S : Type} `{Properties S}.

Lemma MicrosFromSamples_in_range (s : S) (rate n : Z) :
  SampleRate s = Some rate ->
  0 < rate ->
  0 <= n -> n * 1000000 < 2 ^ 64 ->
  MicrosFromSamples s n = Some (n * 1000000 / rate).
Proof.
  intros Hrate Hpos Hn Hrange. unfold MicrosFromSamples.
  rewrite Hrate. simpl.
  destruct (Z.eqb_spec rate 0) as [->|_]; [lia|].
  rewrite u64_small by lia. reflexivity.
Qed.

Lemma SamplesFromMicros_in_range (s : S) (rate m : Z) :
  SampleRate s = Some rate ->
  0 <= m * rate < 2 ^ 64 ->
  SamplesFromMicros s m = Some (m * rate / 1000000).
Proof.
  intros Hrate Hrange. unfold SamplesFromMicros.
  rewrite Hrate. simpl. rewrite u64_small by lia. reflexivity.
Qed.

(** What the two truncating divisions lose: a sample, unless the rate
    divides the numerator. *)
Lemma truncated_round_trip (rate n : Z) :
  0 < rate -> 0 <= n ->
  let m := n * 1000000 / rate in
  let r := m * rate / 1000000 in
  0 <= m * rate <= n * 1000000 /\
  r <= n /\
  (r = n <-> (n * 1000000) mod rate = 0) /\
  (rate <= 1000000 -> n - 1 <= r).
Proof.
  intros Hrate Hn m r.
  pose proof (Z.div_mod (n * 1000000) rate ltac:(lia)) as Hdm.
  pose proof (Z.mod_pos_bound (n * 1000000) rate Hrate) as Hq.
  fold m in Hdm.
  set (q := (n * 1000000) mod rate) in *.
  assert (Hm : 0 <= m) by (apply Z.div_pos; lia).
  assert (Hmr : m * rate = n * 1000000 - q) by lia.
  assert (Hr : r = (n * 1000000 - q) / 1000000) by (unfold r; rewrite Hmr; reflexivity).
  split; [nia|].
  assert (Hle : r <= n).
  { rewrite Hr. apply Z.div_le_upper_bound; lia. }
  split; [exact Hle|]. split.
  - split.
    + intros Heq.
      assert (n * 1000000 <= n * 1000000 - q).
      { rewrite <- Heq at 1. rewrite Hr, Z.mul_comm.
        apply Z.mul_div_le. lia. }
      lia.
    + intros Hq0. rewrite Hr, Hq0, Z.sub_0_r. apply Z.div_mul. lia.
  - intros Hsmall. rewrite Hr.
    apply Z.div_le_lower_bound; lia.
Qed.

(** C7, as the code has it.  For a positive rate and a sample count [n]
    whose conversions stay below 2^64, converting to microseconds and
    back gives [n] exactly when the rate divides [n * 1000000]; otherwise
    it gives less, and [n - 1] at the least when the rate is at most
    1 MHz. *)
Theorem samples_round_trip_loses_at_most_one (s : S) (rate n : Z) :
  SampleRate s = Some rate ->
  0 < rate ->
  0 <= n ->
  n * 1000000 < 2 ^ 64 ->
  exists m r,
    MicrosFromSamples s n = Some m /\
    SamplesFromMicros s m = Some r /\
    0 <= m * rate < 2 ^ 64 /\
    r <= n /\
    (r = n <-> (n * 1000000) mod rate = 0) /\
    (rate <= 1000000 -> n - 1 <= r).
Proof.
  intros Hrate Hpos Hn Hrange.
  destruct (truncated_round_trip rate n Hpos Hn) as (Hmr & Hle & Hiff & Hlow).
  exists (n * 1000000 / rate), (n * 1000000 / rate * rate / 1000000).
  split; [apply MicrosFromSamples_in_range; assumption|].
  split; [apply SamplesFromMicros_in_range; [assumption|lia]|].
  split; [lia|]. auto.
Qed.

End TimeConversions.

Section TimeConversionRuns.
Import DemoHost.

(** C7 as written fails at one sample of a 44100 Hz source: one sample is
    22 microseconds, and 22 microseconds are no sample. *)
Lemma round_trip_of_one_sample_is_zero :
  AudioSource.SampleRate demo_source = Some 44100 /\
  1 * 1000000 < 2 ^ 64 /\
  AudioSource.MicrosFromSamples demo_source 1 = Some 22 /\
  22 * 44100 < 2 ^ 64 /\
  AudioSource.SamplesFromMicros demo_source 22 = Some 0 /\
  (AudioSource.MicrosFromSamples demo_source 1 ≫= AudioSource.SamplesFromMicros demo_source) <> Some 1.
Proof. vm_compute. repeat split; congruence. Qed.

Lemma samples_round_trip_loses_at_most_one_witness :
  AudioSource.SampleRate demo_source = Some 44100 /\
  0 < 44100 /\ 0 <= 441 /\ 441 * 1000000 < 2 ^ 64 /\
  exists m r,
    AudioSource.MicrosFromSamples demo_source 441 = Some m /\
    AudioSource.SamplesFromMicros demo_source m = Some r /\
    0 <= m * 44100 < 2 ^ 64 /\
    r <= 441 /\
    (r = 441 <-> (441 * 1000000) mod 44100 = 0) /\
    (44100 <= 1000000 -> 441 - 1 <= r).
Proof.
  split; [reflexivity|]. split; [lia|]. split; [lia|]. split; [lia|].
  apply (samples_round_trip_loses_at_most_one demo_source 44100 441);
    [reflexivity | lia | lia | lia].
Defined.

End TimeConversionRuns.

Section Emission.
Import AudioSource.
Context {S : Type} `{Interface S}.

(** C9, as the code has it.  A STATE response carries "Ejected" for the
    null audio, "Playing" for a pipe whose sink is playing, and "Stopped"
    for a pipe whose sink is in any other state, at the end included;
    emitting it changes nothing. *)
Theorem state_response_argument
    (a : AudioObject.t S) (rs : ResponseSink) (id : Z) :
  let argument :=
    match a with
    | AudioObject.Null => "Ejected"
    | AudioObject.Pipe p =>
        match SdlAudioSink.State (PipeAudio.sink p) with
        | Audio.PLAYING => "Playing"
        | Audio.STOPPED | Audio.AT_END | Audio.NONE => "Stopped"
        end
    end in
  AudioObject.Emit Response.STATE (Some rs) id a
  = Returns (Some (mkRespond rs id (Response.mk Response.STATE [argument]))) a.
Proof.
  destruct a as [|p]; simpl; [reflexivity|].
  destruct p as [src k fr it lt]. unfold AudioObject.Emit, AudioObject.lift_pipe, zoom, bind, get. simpl.
  unfold bind, get, ret, SdlAudioSink.State. simpl.
  destruct (SdlAudioSink.state k); reflexivity.
Qed.

(** [Emit] on a TIME request, in full. *)
Lemma Emit_TIME (p : PipeAudio.t S) (rs : ResponseSink) (id micros : Z) :
  PipeAudio.Position p = Some micros ->
  0 <= id ->
  let secs := PipeAudio.whole_second micros in
  let response :=
    mkRespond rs id (Response.mk Response.TIME [to_string micros]) in
  let fresh :=
    match PipeAudio.last_times p !! rs with
    | None => true
    | Some last => last <? secs
    end in
  PipeAudio.Emit Response.TIME (Some rs) id p =
    if 0 <? id then Returns (Some response) p
    else if fresh
    then Returns (Some response)
           (PipeAudio.with_last_times (<[rs := secs]> (PipeAudio.last_times p)) p)
    else Returns None p.
Proof.
  intros Hpos Hid secs response fresh.
  unfold PipeAudio.Emit, bind, get, defined. rewrite Hpos. simpl.
  destruct (Z.ltb_spec 0 id) as [Hlt|Hge]; [reflexivity|].
  unfold PipeAudio.CanAnnounceTime, bind, get, modify, ret. simpl.
  subst fresh. fold (PipeAudio.whole_second micros). fold secs.
  destruct p as [src k fr it lt]. simpl.
  destruct (lt !! rs) as [last|] eqn:Hlast; simpl.
  - destruct (last <? secs) eqn:Hcmp; simpl; [|reflexivity].
    unfold PipeAudio.with_last_times, PipeAudio.emplace. simpl.
    rewrite lookup_delete_eq, insert_delete_eq. reflexivity.
  - unfold PipeAudio.with_last_times, PipeAudio.emplace. simpl.
    rewrite Hlast. reflexivity.
Qed.

(** Along a stretch without a seek, the seconds broadcast to [rs] rise
    above the second on record for it, and above one another. *)
Lemma announced_seconds_rise (rs : ResponseSink)
    (steps : list (SdlAudioSink.t * ResponseSink * Z)) :
  Forall (fun step => 0 <= snd step) steps ->
  forall p : PipeAudio.t S,
    StronglySorted Z.lt (PipeAudio.announced_seconds rs steps p) /\
    forall last, PipeAudio.last_times p !! rs = Some last ->
      Forall (Z.lt last) (PipeAudio.announced_seconds rs steps p).
Proof.
  induction steps as [|[[k rs'] id] steps IH]; intros Hids p.
  - split; [constructor|]. intros; constructor.
  - inversion Hids as [|? ? Hid Hids']; subst. simpl in Hid.
    specialize (IH Hids').
    cbn [PipeAudio.announced_seconds].
    set (p0 := PipeAudio.with_sink k p).
    destruct (PipeAudio.Position p0) as [micros|] eqn:Hpos.
    2:{ unfold PipeAudio.Emit, bind, get, defined. rewrite Hpos. simpl.
        split; [constructor|]. intros; constructor. }
    rewrite (Emit_TIME p0 rs' id micros Hpos Hid).
    assert (Hlt0 : PipeAudio.last_times p0 = PipeAudio.last_times p)
      by (destruct p; reflexivity).
    destruct (Z.ltb_spec 0 id) as [Hlt|Hge].
    + (* a unicast: the record stays *)
      replace (bool_decide (rs' = rs) && (id =? 0)) with false
        by (destruct (Z.eqb_spec id 0); [lia|]; rewrite andb_false_r; reflexivity).
      destruct (IH p0) as [Hs Hb]. split; [exact Hs|].
      intros last Hlast. apply Hb. rewrite Hlt0. exact Hlast.
    + assert (id = 0) by lia. subst id. rewrite andb_true_r.
      destruct (PipeAudio.last_times p0 !! rs') as [last'|] eqn:Hrec.
      * destruct (Z.ltb_spec last' (PipeAudio.whole_second micros)) as [Hnew|Hold].
        -- set (p1 := PipeAudio.with_last_times _ p0).
           destruct (IH p1) as [Hs Hb].
           case_bool_decide as Heq.
           ++ subst rs'. assert (Hrec1 : PipeAudio.last_times p1 !! rs
                                   = Some (PipeAudio.whole_second micros)).
              { unfold p1. destruct p0. simpl. apply lookup_insert_eq. }
              split.
              ** constructor; [exact Hs|]. apply Hb. exact Hrec1.
              ** intros last Hlast. rewrite <- Hlt0, Hrec in Hlast.
                 inversion Hlast; subst.
                 constructor; [exact Hnew|].
                 eapply Forall_impl; [apply Hb; exact Hrec1|].
                 intros x Hx. simpl in Hx. lia.
           ++ split; [exact Hs|]. intros last Hlast. apply Hb.
              unfold p1. destruct p0. simpl in *. rewrite lookup_insert_ne by exact Heq.
              rewrite Hlt0. exact Hlast.
        -- destruct (IH p0) as [Hs Hb]. split; [exact Hs|].
           intros last Hlast. apply Hb. rewrite Hlt0. exact Hlast.
      * set (p1 := PipeAudio.with_last_times _ p0).
        destruct (IH p1) as [Hs Hb].
        case_bool_decide as Heq.
        -- subst rs'. assert (Hrec1 : PipeAudio.last_times p1 !! rs
                                = Some (PipeAudio.whole_second micros)).
           { unfold p1. destruct p0. simpl. apply lookup_insert_eq. }
           split.
           ++ constructor; [exact Hs|]. apply Hb. exact Hrec1.
           ++ intros last Hlast. rewrite <- Hlt0, Hrec in Hlast. discriminate.
        -- split; [exact Hs|]. intros last Hlast. apply Hb.
           unfold p1. destruct p0. simpl in *. rewrite lookup_insert_ne by exact Heq.
           rewrite Hlt0. exact Hlast.
Qed.

(** C6, as the code has it.  With the position at [micros]: a unicast
    (id above 0) is always sent and neither reads nor writes the record
    of whole seconds; a broadcast (id 0) is sent to [rs] exactly when
    there is no record for [rs] or the record is below the current whole
    second, and when it is sent the record becomes the current whole
    second, otherwise nothing changes; and so, along any stretch without
    a seek, the whole seconds broadcast to [rs] strictly increase: none
    is broadcast twice. *)
Theorem time_broadcast_once_per_second
    (p : PipeAudio.t S) (rs : ResponseSink) (micros : Z) :
  PipeAudio.Position p = Some micros ->
  let secs := PipeAudio.whole_second micros in
  let response id :=
    mkRespond rs id (Response.mk Response.TIME [to_string micros]) in
  (forall id, 0 < id ->
     PipeAudio.Emit Response.TIME (Some rs) id p
     = Returns (Some (response id)) p) /\
  (PipeAudio.last_times p !! rs = None \/
   (exists last, PipeAudio.last_times p !! rs = Some last /\ last < secs) ->
     PipeAudio.Emit Response.TIME (Some rs) 0 p
     = Returns (Some (response 0))
         (PipeAudio.with_last_times (<[rs := secs]> (PipeAudio.last_times p)) p)) /\
  (forall last, PipeAudio.last_times p !! rs = Some last -> secs <= last ->
     PipeAudio.Emit Response.TIME (Some rs) 0 p = Returns None p) /\
  (forall steps, Forall (fun step => 0 <= snd step) steps ->
     StronglySorted Z.lt (PipeAudio.announced_seconds rs steps p)).
Proof.
  intros Hpos secs response.
  split; [|split; [|split]].
  - intros id Hid.
    rewrite (Emit_TIME p rs id micros Hpos) by lia.
    destruct (Z.ltb_spec 0 id); [reflexivity|lia].
  - intros Hfresh.
    rewrite (Emit_TIME p rs 0 micros Hpos) by lia. simpl.
    destruct Hfresh as [Hnone|(last & Hlast & Hlt)].
    + rewrite Hnone. reflexivity.
    + rewrite Hlast. fold secs.
      destruct (Z.ltb_spec last secs); [reflexivity|lia].
  - intros last Hlast Hle.
    rewrite (Emit_TIME p rs 0 micros Hpos) by lia. simpl.
    rewrite Hlast. fold secs.
    destruct (Z.ltb_spec last secs); [lia|reflexivity].
  - intros steps Hsteps. apply announced_seconds_rise. exact Hsteps.
Qed.

End Emission.

Section SinkCallback.

(** C3.  The callback on a buffer [out] of [nbytes] bytes, for a sink
    whose sample size is positive and is that of its ring.  The buffer
    is zeroed; a sink that is not playing is left as it is; a playing
    sink with nothing to read goes to the end exactly when the source is
    out, and its position stays; otherwise
    [min (nbytes / bytes_per_sample) (read capacity)] samples leave the
    ring for the front of the buffer and the position grows by that
    number (in 64 bits). *)
Theorem callback_behaviour
    (k : SdlAudioSink.t) (out : list byte) (nbytes : Z) :
  0 < SdlAudioSink.bytes_per_sample k ->
  RingBuffer.bytes_per_sample (SdlAudioSink.ring_buf k)
    = SdlAudioSink.bytes_per_sample k ->
  nbytes = Z.of_nat (length out) ->
  let bps := SdlAudioSink.bytes_per_sample k in
  let ring := SdlAudioSink.ring_buf k in
  let silence := replicate (length out) zero_byte in
  (SdlAudioSink.state k <> Audio.PLAYING ->
     SdlAudioSink.Callback out nbytes k = Returns silence k) /\
  (SdlAudioSink.state k = Audio.PLAYING ->
   RingBuffer.ReadCapacity ring = 0 ->
     exists k',
       SdlAudioSink.Callback out nbytes k = Returns silence k' /\
       (SdlAudioSink.state k' = Audio.AT_END
          <-> SdlAudioSink.source_out k = true) /\
       SdlAudioSink.position_sample_count k'
         = SdlAudioSink.position_sample_count k /\
       k' = (if SdlAudioSink.source_out k
             then SdlAudioSink.with_state Audio.AT_END k else k)) /\
  (SdlAudioSink.state k = Audio.PLAYING ->
   RingBuffer.ReadCapacity ring <> 0 ->
     let n := Z.min (nbytes / bps) (RingBuffer.ReadCapacity ring) in
     let data := take (Z.to_nat (n * bps)) (RingBuffer.pending ring) in
     exists k',
       SdlAudioSink.Callback out nbytes k
         = Returns (data ++ replicate (length out - length data) zero_byte)%list k' /\
       Z.of_nat (length data) = n * bps /\
       SdlAudioSink.position_sample_count k'
         = u64 (SdlAudioSink.position_sample_count k + n) /\
       (0 <= SdlAudioSink.position_sample_count k ->
        SdlAudioSink.position_sample_count k + n < 2 ^ 64 ->
        SdlAudioSink.position_sample_count k'
          = SdlAudioSink.position_sample_count k + n) /\
       RingBuffer.pending (SdlAudioSink.ring_buf k')
         = drop (Z.to_nat (n * bps)) (RingBuffer.pending ring) /\
       RingBuffer.ReadCapacity (SdlAudioSink.ring_buf k')
         = RingBuffer.ReadCapacity ring - n /\
       SdlAudioSink.state k' = Audio.PLAYING /\
       SdlAudioSink.source_out k' = SdlAudioSink.source_out k).
Proof.
  intros Hbps Hring Hlen bps ring silence.
  assert (Hmemset : SdlAudioSink.memset_zero out nbytes = Some silence).
  { unfold SdlAudioSink.memset_zero. subst nbytes.
    rewrite Nat2Z.id.
    destruct (Z.leb_spec 0 (Z.of_nat (length out))); [|lia].
    rewrite Z.leb_refl. simpl.
    rewrite drop_all, app_nil_r. reflexivity. }
  assert (Hnn : (0 <=? nbytes) = true) by (apply Z.leb_le; lia).
  split; [|split].
  - intros Hstate.
    unfold SdlAudioSink.Callback, bind, assert, defined, get, ret.
    rewrite Hnn, Hmemset. simpl.
    destruct (SdlAudioSink.state k); try reflexivity. congruence.
  - intros Hstate Hcap.
    exists (if SdlAudioSink.source_out k
            then SdlAudioSink.with_state Audio.AT_END k else k).
    unfold SdlAudioSink.Callback, bind, assert, defined, get, ret, modify.
    rewrite Hnn, Hmemset. simpl. rewrite Hstate. simpl.
    fold ring. rewrite Hcap. simpl.
    destruct (SdlAudioSink.source_out k) eqn:Hout; simpl;
      repeat split; auto; congruence.
  - intros Hstate Hcap n data.
    assert (Hlenp : 0 <= Z.of_nat (length (RingBuffer.pending ring))) by lia.
    assert (Hcap0 : 0 <= RingBuffer.ReadCapacity ring).
    { unfold RingBuffer.ReadCapacity. apply Z.div_pos; [lia|].
      fold ring in Hring. rewrite Hring. exact Hbps. }
    assert (Hreq : 0 <= nbytes / bps) by (apply Z.div_pos; [lia|exact Hbps]).
    assert (Hn0 : 0 <= n) by (unfold n; lia).
    assert (Hncap : n <= RingBuffer.ReadCapacity ring) by (unfold n; lia).
    assert (Hnreq : n * bps <= nbytes).
    { pose proof (Z.mul_div_le nbytes bps Hbps). unfold n. nia. }
    assert (Hnpend : n * bps <= Z.of_nat (length (RingBuffer.pending ring))).
    { unfold RingBuffer.ReadCapacity in Hncap. fold ring in Hring.
      rewrite Hring in Hncap. fold bps in Hncap.
      pose proof (Z.mul_div_le (Z.of_nat (length (RingBuffer.pending ring))) bps Hbps).
      nia. }
    assert (Hdata : Z.of_nat (length data) = n * bps).
    { unfold data. rewrite length_take. nia. }
    assert (Hmax : Z.max 0 (Z.min n (RingBuffer.ReadCapacity ring)) = n) by lia.
    assert (Hring' : RingBuffer.bytes_per_sample ring = bps) by exact Hring.
    assert (Hstore : SdlAudioSink.store_front silence data
              = Some (data ++ replicate (length out - length data) zero_byte)%list).
    { unfold SdlAudioSink.store_front, silence.
      rewrite length_replicate.
      destruct (Nat.leb_spec (length data) (length out)) as [Hle|Hgt]; [|lia].
      rewrite drop_replicate. reflexivity. }
    eexists.
    unfold SdlAudioSink.Callback, bind, assert, defined, get, ret, modify.
    rewrite Hnn, Hmemset. simpl. rewrite Hstate. simpl.
    fold ring.
    destruct (Z.eqb_spec (RingBuffer.ReadCapacity ring) 0) as [Heq|_]; [congruence|].
    fold bps.
    destruct (Z.eqb_spec bps 0) as [Heq|_]; [lia|]. simpl.
    fold n. rewrite Hmax, Hring'. fold data. rewrite Hstore. simpl.
    split; [reflexivity|]. simpl.
    split; [exact Hdata|].
    split; [reflexivity|].
    split; [intros; apply u64_small; lia|].
    split; [reflexivity|].
    split.
    { unfold RingBuffer.ReadCapacity. simpl. fold ring in Hring.
      rewrite Hring. fold bps. rewrite length_drop.
      replace (Z.of_nat (length (RingBuffer.pending ring) - Z.to_nat (n * bps)))
        with (Z.of_nat (length (RingBuffer.pending ring)) + (- n) * bps) by lia.
      rewrite Z.div_add by lia. lia. }
    split; [exact Hstate|reflexivity].
Qed.

(** The callback keeps the sink well formed: what it takes from the
    ring is whole samples, and it moves to the end only when the source
    is out. *)
Lemma Callback_keeps_wf (k : SdlAudioSink.t) (out : list byte) (nbytes : Z) :
  SdlAudioSink.wf k ->
  nbytes = Z.of_nat (length out) ->
  exists out' k',
    SdlAudioSink.Callback out nbytes k = Returns out' k' /\
    SdlAudioSink.wf k' /\
    SdlAudioSink.bytes_per_sample k' = SdlAudioSink.bytes_per_sample k.
Proof.
  intros Hwf Hlen.
  pose proof Hwf as ((Hrbps & Hpow & Hpend & Hcap) & Hsame & Hend).
  set (bps := SdlAudioSink.bytes_per_sample k) in *.
  set (ring := SdlAudioSink.ring_buf k) in *.
  rewrite Hsame in Hrbps, Hpend.
  assert (Hmemset : SdlAudioSink.memset_zero out nbytes
                    = Some (replicate (length out) zero_byte)).
  { unfold SdlAudioSink.memset_zero. subst nbytes.
    rewrite Nat2Z.id.
    destruct (Z.leb_spec 0 (Z.of_nat (length out))); [|lia].
    rewrite Z.leb_refl. simpl.
    rewrite drop_all, app_nil_r. reflexivity. }
  assert (Hnn : (0 <=? nbytes) = true) by (apply Z.leb_le; lia).
  unfold SdlAudioSink.Callback, bind, assert, defined, get, ret, modify.
  rewrite Hnn, Hmemset. cbn [negb].
  destruct (SdlAudioSink.state k) eqn:Hst; cbn [Audio.State_eqb negb];
    try (eexists _, k; split; [reflexivity|split; [exact Hwf|reflexivity]]).
  fold ring.
  destruct (Z.eqb_spec (RingBuffer.ReadCapacity ring) 0) as [Hzero|Hnonzero].
  - destruct (SdlAudioSink.source_out k) eqn:Hout.
    + eexists _, _. split; [reflexivity|]. split; [|reflexivity].
      split; [apply Hwf|]. split; [exact Hsame|]. intros _. exact Hout.
    + eexists _, k. split; [reflexivity|]. split; [exact Hwf|reflexivity].
  - fold bps. destruct (Z.eqb_spec bps 0) as [?|_]; [lia|]. cbn [negb].
    assert (Hcap0 : 0 <= RingBuffer.ReadCapacity ring).
    { unfold RingBuffer.ReadCapacity. apply Z.div_pos; [lia|].
      fold ring in Hsame. rewrite Hsame. exact Hrbps. }
    assert (Hreq : 0 <= nbytes / bps) by (apply Z.div_pos; lia).
    set (n := Z.min (nbytes / bps) (RingBuffer.ReadCapacity ring)).
    assert (Hn : 0 <= n <= RingBuffer.ReadCapacity ring) by (unfold n; lia).
    assert (Hnreq : n * bps <= nbytes).
    { pose proof (Z.mul_div_le nbytes bps Hrbps). unfold n. nia. }
    assert (Hexact : Z.of_nat (length (RingBuffer.pending ring))
                     = RingBuffer.ReadCapacity ring * bps).
    { unfold RingBuffer.ReadCapacity. fold ring in Hsame. rewrite Hsame.
      pose proof (Z.div_mod (Z.of_nat (length (RingBuffer.pending ring))) bps
                    ltac:(lia)). lia. }
    unfold RingBuffer.Read.
    replace (Z.max 0 (Z.min n (RingBuffer.ReadCapacity ring))) with n by lia.
    fold ring in Hsame. rewrite Hsame.
    set (data := take (Z.to_nat (n * bps)) (RingBuffer.pending ring)).
    assert (Hdata : Z.of_nat (length data) = n * bps).
    { unfold data. rewrite length_take. nia. }
    unfold SdlAudioSink.store_front. rewrite length_replicate.
    destruct (Nat.leb_spec (length data) (length out)) as [_|?]; [|lia].
    eexists _, _. split; [reflexivity|]. split; [|reflexivity].
    unfold SdlAudioSink.wf, RingBuffer.wf, RingBuffer.ReadCapacity.
    cbn [SdlAudioSink.ring_buf SdlAudioSink.with_position
         SdlAudioSink.with_ring_buf SdlAudioSink.state
         SdlAudioSink.source_out SdlAudioSink.bytes_per_sample
         RingBuffer.bytes_per_sample RingBuffer.power RingBuffer.pending].
    fold bps. fold ring.
    assert (Hrest : Z.of_nat (length (drop (Z.to_nat (n * bps))
                                        (RingBuffer.pending ring)))
                    = (RingBuffer.ReadCapacity ring - n) * bps).
    { rewrite length_drop. nia. }
    rewrite Hrest.
    split; [|split; [reflexivity|rewrite Hst; discriminate]].
    split; [exact Hrbps|]. split; [exact Hpow|].
    split; [apply Z.mod_mul; lia|].
    rewrite Z.div_mul by lia. lia.
Qed.

End SinkCallback.

Section PipeTick.
Import AudioSource.
Context {S : Type} `{Interface S}.

(** A transfer from inside a frame of whole samples: the iterator moves
    forward by whole samples, not past the end, and the sink stays well
    formed. *)
Lemma Transfer_advances (k : SdlAudioSink.t) (v : list byte) (start : Z) :
  SdlAudioSink.wf k ->
  0 < SdlAudioSink.bytes_per_sample k ->
  0 <= start < Z.of_nat (length v) ->
  (Z.of_nat (length v) - start) mod SdlAudioSink.bytes_per_sample k = 0 ->
  exists start' k',
    SdlAudioSink.Transfer v start (Z.of_nat (length v)) k = Returns start' k' /\
    start <= start' <= Z.of_nat (length v) /\
    (start' - start) mod SdlAudioSink.bytes_per_sample k = 0 /\
    SdlAudioSink.wf k' /\
    SdlAudioSink.bytes_per_sample k' = SdlAudioSink.bytes_per_sample k.
Proof.
  intros (Hrb & Hsame & Hend) Hbps Hstart Hwhole.
  destruct Hrb as (Hrbps & Hpow & Hpend & Hcap).
  set (bps := SdlAudioSink.bytes_per_sample k) in *.
  set (e := Z.of_nat (length v)) in *.
  set (rb := SdlAudioSink.ring_buf k) in *.
  assert (Hsamples : (e - start) = (e - start) / bps * bps).
  { pose proof (Z.div_mod (e - start) bps ltac:(lia)). lia. }
  assert (Hspos : 0 < (e - start) / bps) by nia.
  assert (Hrc : 0 <= RingBuffer.ReadCapacity rb).
  { unfold RingBuffer.ReadCapacity. apply Z.div_pos; lia. }
  unfold SdlAudioSink.Transfer, bind, assert, get, ret, modify, undefined.
  destruct (Z.leb_spec start e) as [_|?]; [|lia].
  destruct (Z.eqb_spec start e) as [?|_]; [lia|].
  fold bps.
  destruct (Z.eqb_spec bps 0) as [?|_]; [lia|]. cbn [negb].
  rewrite Hwhole. cbn [Z.eqb].
  destruct (Z.ltb_spec 0 (e - start)) as [_|?]; [|lia].
  fold rb.
  set (count := Z.min ((e - start) / bps) (RingBuffer.WriteCapacity rb)).
  destruct (Z.eqb_spec count 0) as [Hzero|Hnonzero].
  - exists start, k. split; [reflexivity|].
    split; [lia|]. split; [rewrite Z.sub_diag; apply Z.mod_0_l; lia|].
    split; [|reflexivity].
    repeat split; assumption.
  - assert (Hwc : 0 <= RingBuffer.WriteCapacity rb)
      by (unfold RingBuffer.WriteCapacity; lia).
    assert (Hcount : 0 < count) by (unfold count in *; lia).
    assert (Hcs : count <= (e - start) / bps) by (unfold count; lia).
    assert (Hcw : count <= RingBuffer.WriteCapacity rb) by (unfold count; lia).
    unfold RingBuffer.Write.
    replace (Z.max 0 (Z.min count (RingBuffer.WriteCapacity rb))) with count by lia.
    rewrite Hsame. fold bps. cbn beta iota.
    rewrite Z.eqb_refl.
    destruct (Z.leb_spec (start + count * bps) e) as [_|?]; [|nia].
    eexists _, _. split; [reflexivity|].
    split; [nia|].
    split; [replace (start + count * bps - start) with (count * bps) by lia;
            apply Z.mod_mul; lia|].
    split; [|reflexivity].
    assert (Hlen : Z.of_nat (length (RingBuffer.pending rb
                     ++ take (Z.to_nat (count * bps)) (drop (Z.to_nat start) v)))
                   = Z.of_nat (length (RingBuffer.pending rb)) + count * bps).
    { assert (0 <= count * bps <= e - start) by nia.
      rewrite length_app, length_take, length_drop. unfold e in *. lia. }
    unfold SdlAudioSink.wf, RingBuffer.wf, SdlAudioSink.with_ring_buf,
      RingBuffer.ReadCapacity. cbn.
    fold rb. fold bps. rewrite Hlen.
    rewrite Hsame in Hpend. fold bps in Hpend.
    repeat split; try assumption; try lia.
    + rewrite Z_mod_plus_full. exact Hpend.
    + rewrite Z.div_add by lia.
      unfold RingBuffer.WriteCapacity, RingBuffer.ReadCapacity in Hcw.
      rewrite Hsame in Hcw. fold bps in Hcw. lia.
Qed.

(** [TransferFrame] on a frame in progress. *)
Lemma TransferFrame_in_progress (bps : Z) (p : PipeAudio.t S) :
  0 < bps ->
  BytesPerSample (PipeAudio.src p) = Some bps ->
  SdlAudioSink.bytes_per_sample (PipeAudio.sink p) = bps ->
  SdlAudioSink.wf (PipeAudio.sink p) ->
  PipeAudio.frame_in_progress bps p ->
  exists p',
    PipeAudio.TransferFrame p = Returns tt p' /\
    PipeAudio.wf bps p' /\
    (PipeAudio.FrameFinished p' = true -> PipeAudio.frame p' = []) /\
    PipeAudio.src p' = PipeAudio.src p.
Proof.
  intros Hbps Hsrc Hsink Hwf (Hit & Hlen & Hwhole & Halign).
  destruct p as [s k v it lt]. unfold PipeAudio.frame_end in *. simpl in *.
  subst bps.
  assert (Hrest : (Z.of_nat (length v) - it) mod SdlAudioSink.bytes_per_sample k = 0).
  { rewrite Zminus_mod, Hwhole, Halign. reflexivity. }
  destruct (Transfer_advances k v it Hwf Hbps Hit Hrest)
    as (it' & k' & Hrun & Hrange & Hstep & Hwf' & Hbps').
  assert (Halign' : it' mod SdlAudioSink.bytes_per_sample k = 0).
  { replace it' with (it + (it' - it)) by lia.
    rewrite Zplus_mod, Halign, Hstep. reflexivity. }
  destruct v as [|b v']; [simpl in Hlen; lia|].
  unfold PipeAudio.TransferFrame, PipeAudio.on_sink, zoom, bind, get, assert,
    modify, ret, PipeAudio.ClearFrame, PipeAudio.FrameFinished,
    PipeAudio.frame_end, PipeAudio.frame_empty.
  cbn [PipeAudio.frame PipeAudio.sink PipeAudio.frame_iterator negb].
  rewrite Hrun.
  set (e := Z.of_nat (length (b :: v'))) in *.
  simpl.
  change (Z.of_nat (Datatypes.S (length v'))) with e.
  destruct (Z.leb_spec e it') as [Hdone|Hmore]; simpl.
  - (* the frame is finished, and cleared *)
    eexists. split; [reflexivity|].
    split; [|split; [intros _; reflexivity|reflexivity]].
    unfold PipeAudio.wf.
    split; [exact Hsrc|]. split; [exact Hbps'|]. split; [exact Hwf'|].
    left. split; reflexivity.
  - (* the frame stays, with the iterator inside it *)
    change (Z.of_nat (Datatypes.S (length v'))) with e.
    destruct (Z.leb_spec 0 it') as [_|?]; [|lia].
    destruct (Z.ltb_spec it' e) as [_|?]; [|lia].
    simpl.
    eexists. split; [reflexivity|].
    split.
    + unfold PipeAudio.wf.
      split; [exact Hsrc|]. split; [exact Hbps'|]. split; [exact Hwf'|].
      right. unfold PipeAudio.frame_in_progress, PipeAudio.frame_end,
        PipeAudio.with_frame_iterator, PipeAudio.with_sink.
      cbn [PipeAudio.frame PipeAudio.frame_iterator]. fold e.
      repeat split; try assumption; lia.
    + split; [|reflexivity].
      unfold PipeAudio.FrameFinished, PipeAudio.frame_end,
        PipeAudio.with_frame_iterator, PipeAudio.with_sink.
      cbn [PipeAudio.frame PipeAudio.frame_iterator]. fold e.
      intros Hfin. apply Z.leb_le in Hfin. lia.
Qed.

(** [SourceOut] on a well-formed sink. *)
Lemma SourceOut_wf (k : SdlAudioSink.t) :
  SdlAudioSink.wf k ->
  SdlAudioSink.SourceOut k = Returns tt (SdlAudioSink.with_source_out true k) /\
  SdlAudioSink.wf (SdlAudioSink.with_source_out true k).
Proof.
  intros (Hrb & Hsame & Hend).
  unfold SdlAudioSink.SourceOut, bind, get, assert, modify, ret.
  split.
  - destruct (SdlAudioSink.state k) eqn:Hst; simpl;
      try (destruct (SdlAudioSink.source_out k); reflexivity).
    rewrite (Hend eq_refl). reflexivity.
  - repeat split; try apply Hrb; assumption.
Qed.

Lemma Update_in_progress (bps : Z) (p : PipeAudio.t S) :
  0 < bps ->
  PipeAudio.wf bps p ->
  PipeAudio.frame_in_progress bps p ->
  exists p',
    PipeAudio.Update p
      = Returns (SdlAudioSink.State (PipeAudio.sink p')) p' /\
    PipeAudio.tick_done bps p' /\
    PipeAudio.src p' = PipeAudio.src p.
Proof.
  intros Hbps (Hsrc & Hsink & Hkwf & _) Hprog.
  destruct (TransferFrame_in_progress bps p Hbps Hsrc Hsink Hkwf Hprog)
    as (p' & Hrun & Hwf' & Hfin' & Hsame).
  exists p'. split; [|split; [split; assumption|exact Hsame]].
  assert (Hff : PipeAudio.FrameFinished p = false).
  { destruct Hprog as (Hit & _). unfold PipeAudio.FrameFinished.
    apply Z.leb_gt. lia. }
  unfold PipeAudio.Update, PipeAudio.DecodeIfFrameEmpty, bind, get, assert, ret.
  rewrite Hff. rewrite orb_true_r. cbn [negb]. rewrite Hff. cbn [negb].
  rewrite Hrun. reflexivity.
Qed.

Lemma Update_decoding (bps : Z) (p : PipeAudio.t S) :
  0 < bps ->
  PipeAudio.wf bps p ->
  PipeAudio.frame p = [] ->
  PipeAudio.frame_iterator p = 0 ->
  PipeAudio.decode_delivers bps (PipeAudio.src p) ->
  match PipeAudio.Update p with
  | Returns st p' =>
      st = SdlAudioSink.State (PipeAudio.sink p') /\
      PipeAudio.tick_done bps p' /\
      exists result, Decode (PipeAudio.src p) = Returns result (PipeAudio.src p')
  | Throws e p' =>
      PipeAudio.tick_done bps p' /\
      Decode (PipeAudio.src p) = Throws e (PipeAudio.src p')
  | Undefined => False
  end.
Proof.
  intros Hbps (Hsrc & Hsink & Hkwf & _) Hempty Hzero Hdec.
  destruct p as [s k v it lt]. simpl in *. subst v it.
  unfold PipeAudio.decode_delivers in Hdec.
  destruct (Decode s) as [[st bytes] s'|e s'|] eqn:HD; [| |contradiction].
  2:{ (* the decoder throws: the pipe is as it was *)
      assert (HA : PipeAudio.DecodeIfFrameEmpty (PipeAudio.mk s k [] 0 lt)
                   = Throws e (PipeAudio.mk s' k [] 0 lt)).
      { unfold PipeAudio.DecodeIfFrameEmpty, PipeAudio.on_src, zoom, bind, get,
          assert, ret. simpl. rewrite HD. reflexivity. }
      unfold PipeAudio.Update. rewrite (bind_Throws _ _ _ _ _ HA).
      split; [|reflexivity].
      split; [|intros _; reflexivity].
      split; [exact Hdec|]. split; [exact Hsink|]. split; [exact Hkwf|].
      left. split; reflexivity. }
  destruct Hdec as [Hwhole Hsrc']. simpl in Hwhole.
  destruct (SourceOut_wf k Hkwf) as [Hout Hkwf1].
  set (eof := DecodeState_eqb st END_OF_FILE).
  (* the sink after the end-of-file check *)
  set (k1 := if eof then SdlAudioSink.with_source_out true k else k).
  assert (Hk1 : SdlAudioSink.wf k1 /\ SdlAudioSink.bytes_per_sample k1 = bps).
  { unfold k1. destruct eof; split; assumption. }
  destruct Hk1 as [Hkwf1' Hbps1].
  set (p1 := PipeAudio.mk s' k1 bytes 0 lt).
  assert (HA : PipeAudio.DecodeIfFrameEmpty (PipeAudio.mk s k [] 0 lt)
               = Returns (negb eof) (PipeAudio.mk s' k bytes 0 lt)).
  { unfold PipeAudio.DecodeIfFrameEmpty, PipeAudio.on_src, zoom, bind, get,
      assert, ret, modify. simpl. rewrite HD. reflexivity. }
  assert (HB : (if negb (negb eof)
                then PipeAudio.on_sink SdlAudioSink.SourceOut else ret tt)
                 (PipeAudio.mk s' k bytes 0 lt)
               = Returns tt p1).
  { unfold p1, k1. destruct eof; simpl; [|reflexivity].
    unfold PipeAudio.on_sink, zoom. simpl. rewrite Hout. reflexivity. }
  unfold PipeAudio.Update.
  rewrite (bind_Returns _ _ _ _ _ HA), (bind_Returns _ _ _ _ _ HB), bind_get.
  destruct bytes as [|b bytes'].
  - (* nothing was decoded: the frame stays empty *)
    change (PipeAudio.FrameFinished p1) with true. cbn [negb].
    unfold bind, ret, get. simpl.
    split; [reflexivity|].
    split; [|eexists; reflexivity].
    split; [|intros _; reflexivity].
    split; [exact Hsrc'|]. split; [exact Hbps1|]. split; [exact Hkwf1'|].
    left. split; reflexivity.
  - assert (Hprog : PipeAudio.frame_in_progress bps p1).
    { unfold PipeAudio.frame_in_progress, PipeAudio.frame_end, p1.
      cbn [PipeAudio.frame PipeAudio.frame_iterator].
      repeat split; try lia; try assumption;
        try (rewrite length_cons; lia). }
    destruct (TransferFrame_in_progress bps p1 Hbps Hsrc' Hbps1 Hkwf1' Hprog)
      as (p' & Hrun & Hwf' & Hfin' & Hsame).
    change (PipeAudio.FrameFinished p1) with false. cbn [negb].
    rewrite (bind_Returns _ _ _ _ _ Hrun), bind_get.
    split; [reflexivity|]. split; [split; assumption|].
    rewrite Hsame. eexists. reflexivity.
Qed.

(** The frame is empty when the pipe is built and after every seek, so
    the ticks start from a frame that is in order. *)
Lemma PipeAudio_starts_empty (src : S) (sink : SdlAudioSink.t) :
  exists p,
    PipeAudio.PipeAudio src sink = Returns tt p /\
    PipeAudio.frame p = [] /\ PipeAudio.frame_iterator p = 0 /\
    PipeAudio.src p = src /\ PipeAudio.sink p = sink.
Proof. eexists. split; [reflexivity|]. repeat split. Qed.

Lemma SetPosition_returns (samples : Z) (k : SdlAudioSink.t) :
  exists k', SdlAudioSink.SetPosition samples k = Returns tt k'.
Proof.
  unfold SdlAudioSink.SetPosition, SdlAudioSink.Stop, bind, modify, get, ret.
  destruct k as [kb kr kp ko kst kd kpa]. destruct kst; eexists; reflexivity.
Qed.

Lemma Seek_clears_frame (position : Z) (p p' : PipeAudio.t S) :
  PipeAudio.Seek position p = Returns tt p' ->
  PipeAudio.frame p' = [] /\ PipeAudio.frame_iterator p' = 0 /\
  PipeAudio.last_times p' = ∅.
Proof.
  unfold PipeAudio.Seek. rewrite bind_get.
  destruct (SamplesFromMicros (PipeAudio.src p) position) as [in_samples|];
    [|discriminate].
  cbn [defined]. unfold bind at 1, ret at 1.
  unfold bind at 1, PipeAudio.on_src at 1, zoom at 1.
  destruct (Seek in_samples (PipeAudio.src p)) as [out_samples s'|e s'|];
    [|discriminate|discriminate].
  unfold bind at 1, PipeAudio.on_sink at 1, zoom at 1.
  cbn [PipeAudio.sink PipeAudio.with_src].
  destruct (SetPosition_returns out_samples (PipeAudio.sink p)) as [k' Hk'].
  rewrite Hk'.
  unfold bind, modify, PipeAudio.ClearFrame, bind, modify, get.
  intros Hrun. inversion Hrun. repeat split.
Qed.

(** C5.  One tick of a well-formed pipe whose decoder, if it is asked,
    delivers whole samples: [Update] runs to its end (or lets the
    decoder's exception through), and it leaves the pipe well formed:
    the frame is empty, or the iterator is at [0 <= cursor < len] in a
    frame whose length is a positive multiple of the sample size.  A
    finished frame is never left in place. *)
Theorem update_retains_no_finished_frame (bps : Z) (p : PipeAudio.t S) :
  0 < bps ->
  PipeAudio.wf bps p ->
  (PipeAudio.FrameFinished p = true ->
   PipeAudio.decode_delivers bps (PipeAudio.src p)) ->
  match PipeAudio.Update p with
  | Returns st p' =>
      st = SdlAudioSink.State (PipeAudio.sink p') /\
      PipeAudio.wf bps p' /\
      PipeAudio.frame_ok bps p' /\
      (PipeAudio.FrameFinished p' = true -> PipeAudio.frame p' = [])
  | Throws _ p' =>
      PipeAudio.wf bps p' /\
      PipeAudio.frame_ok bps p' /\
      (PipeAudio.FrameFinished p' = true -> PipeAudio.frame p' = [])
  | Undefined => False
  end.
Proof.
  intros Hbps Hwf Hdec.
  assert (Hframe : PipeAudio.frame_ok bps p) by apply Hwf.
  destruct Hframe as [[Hempty Hzero]|Hprog].
  - assert (Hff : PipeAudio.FrameFinished p = true).
    { unfold PipeAudio.FrameFinished, PipeAudio.frame_end.
      rewrite Hempty, Hzero. reflexivity. }
    pose proof (Update_decoding bps p Hbps Hwf Hempty Hzero (Hdec Hff)) as Hrun.
    destruct (PipeAudio.Update p) as [st p'|e p'|]; [| |exact Hrun].
    + destruct Hrun as (Hst & (Hwf' & Hfin) & _).
      repeat split; try assumption; apply Hwf'.
    + destruct Hrun as ((Hwf' & Hfin) & _).
      repeat split; try assumption; apply Hwf'.
  - destruct (Update_in_progress bps p Hbps Hwf Hprog)
      as (p' & Hrun & (Hwf' & Hfin) & _).
    rewrite Hrun. repeat split; try assumption; apply Hwf'.
Qed.

End PipeTick.

Section SoXTicks.
Import SoXAudioSource.
Context `{LibSoX}.

Lemma length_samples_bytes (l : list Z) :
  Z.of_nat (length (samples_bytes l)) = 4 * Z.of_nat (length l).
Proof.
  unfold samples_bytes. induction l as [|z l IH]; [reflexivity|].
  cbn [map concat]. rewrite length_app, Nat2Z.inj_add, IH.
  cbn [sample_bytes length]. lia.
Qed.

(** The SoX source delivers what the pipe needs: a decoding round on a
    well-formed source returns whole samples and leaves the source well
    formed, with the sample size it had. *)
Lemma SoX_Decode_delivers (s : SoXAudioSource.t) :
  SoXAudioSource.wf s ->
  exists bps,
    0 < bps /\
    AudioSource.BytesPerSample s = Some bps /\
    PipeAudio.decode_delivers bps s /\
    match AudioSource.Decode s with
    | Returns _ s' => SoXAudioSource.wf s'
    | _ => False
    end.
Proof.
  destruct s as [buf c ds]. unfold SoXAudioSource.wf. cbn [context buffer].
  destruct c as [ctx|]; [|contradiction].
  intros (Hc & Hbuf & Hoff & Hoffc & Hlenc).
  set (c := u8 (signal_channels ctx)) in *.
  exists (4 * c). split; [lia|]. split; [reflexivity|].
  assert (Hc256 : c < 256) by (unfold c, u8; apply Z.mod_pos_bound; lia).
  unfold BUFFER_SIZE in Hbuf.
  pose proof (Z.mul_div_le 16384 (4 * c) ltac:(lia)) as Hcap.
  set (cap := 16384 / (4 * c)) in *.
  assert (Hcap0 : 0 <= cap) by (apply Z.div_pos; lia).
  assert (Hbig : 2 ^ 64 = 18446744073709551616) by reflexivity.
  set (got := take (Z.to_nat (cap * c)) (drop (Z.to_nat (offset ctx)) (stream ctx))).
  assert (Hread : Z.of_nat (length got) <= cap * c).
  { unfold got. rewrite length_take. nia. }
  assert (Hgotc : Z.of_nat (length got) mod c = 0).
  { unfold got. rewrite length_take, length_drop.
    destruct (Nat.le_gt_cases (Z.to_nat (cap * c))
                (length (stream ctx) - Z.to_nat (offset ctx))) as [Hle|Hgt].
    - rewrite Nat.min_l by exact Hle. rewrite Z2Nat.id by nia.
      apply Z.mod_mul. lia.
    - rewrite Nat.min_r by lia.
      destruct (Nat.le_gt_cases (Z.to_nat (offset ctx)) (length (stream ctx))).
      + rewrite Nat2Z.inj_sub by assumption. rewrite Z2Nat.id by lia.
        rewrite Zminus_mod, Hlenc, Hoffc. reflexivity.
      + replace (length (stream ctx) - Z.to_nat (offset ctx))%nat with 0%nat by lia.
        apply Z.mod_0_l. lia. }
  assert (Hrun :
    SoXAudioSource.Decode (mk buf (Some ctx) ds)
    = let ctx' := snd (sox_read ctx (cap * c)) in
      let buf' := (samples_bytes got ++ drop (length (samples_bytes got)) buf)%list in
      if Z.of_nat (length got) =? 0
      then Returns (AudioSource.END_OF_FILE, []) (mk buf' (Some ctx') AudioSource.END_OF_FILE)
      else Returns (AudioSource.DECODING, samples_bytes got) (mk buf' (Some ctx') AudioSource.DECODING)).
  { unfold SoXAudioSource.Decode, bind, get, defined, ret, modify.
    cbn [context buffer].
    destruct buf as [|b0 buf']; [simpl in Hbuf; lia|].
    cbn [head].
    unfold BufferSampleCapacity, SoXAudioSource.BytesPerSample, SoXAudioSource.ChannelCount.
    cbn [context buffer mbind option_bind]. fold c.
    destruct (Z.eqb_spec (4 * c) 0); [lia|].
    rewrite Hbuf. fold cap.
    rewrite (u64_small (cap * c)) by nia.
    unfold sox_read. fold got. cbn [snd].
    destruct (Z.eqb_spec (Z.of_nat (length got)) 0) as [Hz|Hnz]; [reflexivity|].
    unfold with_decode_state, with_buffer, with_context.
    cbn [buffer context decode_state mbind option_bind signal_channels]. fold c.
    assert (Hsmall : 0 <= 4 * c * Z.of_nat (length got) <= 16384 * 256) by nia.
    rewrite u64_small by lia.
    replace (4 * c * Z.of_nat (length got) / c) with (4 * Z.of_nat (length got))
      by (symmetry; rewrite <- Z.mul_assoc, (Z.mul_comm c), Z.mul_assoc;
          apply Z.div_mul; lia).
    rewrite <- length_samples_bytes, Nat2Z.id.
    rewrite take_app_length. reflexivity. }
  assert (Hwf' : forall d,
    SoXAudioSource.wf
      (mk (samples_bytes got ++ drop (length (samples_bytes got)) buf)
          (Some (snd (sox_read ctx (cap * c)))) d)).
  { intros d. unfold SoXAudioSource.wf, sox_read. fold got.
    cbn [context buffer snd signal_channels offset stream]. fold c.
    split; [exact Hc|]. split.
    - rewrite length_app, length_drop.
      pose proof (length_samples_bytes got). unfold BUFFER_SIZE. nia.
    - split; [lia|]. split; [|exact Hlenc].
      rewrite Zplus_mod, Hoffc, Hgotc. reflexivity. }
  unfold PipeAudio.decode_delivers.
  cbn [AudioSource.Decode SoX_interface AudioSource.BytesPerSample SoX_properties].
  rewrite Hrun. cbn zeta.
  destruct (Z.eqb_spec (Z.of_nat (length got)) 0) as [Hz|Hnz].
  - split; [|apply Hwf'].
    split; [cbn [snd length]; apply Z.mod_0_l; lia|].
    unfold SoXAudioSource.BytesPerSample, SoXAudioSource.ChannelCount, sox_read.
    cbn [context signal_channels snd mbind option_bind]. reflexivity.
  - split; [|apply Hwf'].
    split.
    + cbn [snd]. rewrite length_samples_bytes.
      apply Z.mod_divide; [lia|].
      apply Z.mod_divide in Hgotc; [|lia].
      destruct Hgotc as [q Hq]. exists q. lia.
    + unfold SoXAudioSource.BytesPerSample, SoXAudioSource.ChannelCount, sox_read.
      cbn [context signal_channels snd mbind option_bind]. reflexivity.
Qed.

(** Any number of ticks of a pipe on a SoX source, with the sink altered
    between them in any way that keeps it well formed: every tick
    returns, and pipe and source stay well formed. *)
Lemma SoX_pipe_ticks (bps : Z) (sinks : list SdlAudioSink.t) :
  0 < bps ->
  Forall (fun k => SdlAudioSink.wf k /\ SdlAudioSink.bytes_per_sample k = bps)
    sinks ->
  forall p : PipeAudio.t SoXAudioSource.t,
    PipeAudio.wf bps p ->
    SoXAudioSource.wf (PipeAudio.src p) ->
    exists p',
      PipeAudio.ticks sinks p = Returns tt p' /\
      PipeAudio.wf bps p' /\
      SoXAudioSource.wf (PipeAudio.src p') /\
      (sinks <> [] -> PipeAudio.tick_done bps p').
Proof.
  intros Hbps Hsinks.
  induction Hsinks as [|k sinks [Hk Hkbps] _ IH]; intros p Hwf Hsrc.
  - exists p. split; [reflexivity|]. split; [exact Hwf|]. split; [exact Hsrc|].
    intros Hne. contradiction Hne. reflexivity.
  - cbn [PipeAudio.ticks].
    set (p1 := PipeAudio.with_sink k p).
    assert (Hwf1 : PipeAudio.wf bps p1).
    { destruct Hwf as (Hs & _ & _ & Hf). destruct p as [s0 k0 v it lt].
      split; [exact Hs|]. split; [exact Hkbps|]. split; [exact Hk|]. exact Hf. }
    assert (Hsrc1 : PipeAudio.src p1 = PipeAudio.src p) by (destruct p; reflexivity).
    assert (Hnext : exists p2,
              PipeAudio.Update p1 = Returns (SdlAudioSink.State (PipeAudio.sink p2)) p2 /\
              PipeAudio.tick_done bps p2 /\
              SoXAudioSource.wf (PipeAudio.src p2)).
    { assert (Hframe : PipeAudio.frame_ok bps p1) by apply Hwf1.
      destruct Hframe as [[Hempty Hzero]|Hprog].
      - destruct (SoX_Decode_delivers (PipeAudio.src p1))
          as (bps' & _ & Hbps' & Hdel & Hdec); [rewrite Hsrc1; exact Hsrc|].
        assert (bps' = bps).
        { destruct Hwf1 as (Hs & _). rewrite Hs in Hbps'. congruence. }
        subst bps'.
        pose proof (Update_decoding bps p1 Hbps Hwf1 Hempty Hzero Hdel) as Hrun.
        destruct (PipeAudio.Update p1) as [st p2|e p2|]; [| |contradiction].
        + destruct Hrun as (Hst & Hdone & result & Hres).
          exists p2. subst st. split; [reflexivity|]. split; [exact Hdone|].
          rewrite Hres in Hdec. exact Hdec.
        + destruct Hrun as (_ & Hthrow). rewrite Hthrow in Hdec. contradiction.
      - destruct (Update_in_progress bps p1 Hbps Hwf1 Hprog)
          as (p2 & Hrun & Hdone & Hsame).
        exists p2. split; [exact Hrun|]. split; [exact Hdone|].
        rewrite Hsame, Hsrc1. exact Hsrc. }
    destruct Hnext as (p2 & Hrun & Hdone & Hsrc2).
    rewrite Hrun.
    destruct (IH p2 (proj1 Hdone) Hsrc2) as (p' & Hticks & Hwf' & Hsrc' & Hlater).
    exists p'. split; [exact Hticks|]. split; [exact Hwf'|]. split; [exact Hsrc'|].
    intros _. destruct sinks as [|k' sinks'].
    + cbn in Hticks. inversion Hticks; subst. exact Hdone.
    + apply Hlater. discriminate.
Qed.

End SoXTicks.

Section SeekRoundTrip.
Import SoXAudioSource.
Context `{LibSoX}.

(** [PipeAudio::Seek] on a SoX source that has not reached the end of
    its file: the pipe converts the microseconds to samples and hands
    them to [SoXAudioSource::Seek], which converts its argument from
    microseconds to samples again.  The position the sink is given is the
    result of both conversions. *)
Lemma Seek_converts_twice
    (p : PipeAudio.t SoXAudioSource.t) (ctx : sox_format_t) (t : Z) :
  context (PipeAudio.src p) = Some ctx ->
  decode_state (PipeAudio.src p) <> AudioSource.END_OF_FILE ->
  0 < signal_rate ctx < 2 ^ 32 ->
  seekable ctx = true ->
  let rate := signal_rate ctx in
  let in_samples := u64 (t * rate) / 1000000 in
  let out_samples := u64 (in_samples * rate) / 1000000 in
  u64 (out_samples * u8 (signal_channels ctx)) <= signal_length ctx ->
  exists p',
    PipeAudio.Seek t p = Returns tt p' /\
    SdlAudioSink.Position (PipeAudio.sink p') = out_samples /\
    PipeAudio.Position p' = Some (u64 (out_samples * 1000000) / rate) /\
    PipeAudio.last_times p' = ∅ /\
    PipeAudio.frame p' = [].
Proof.
  intros Hctx Hds Hrate Hseekable rate in_samples out_samples Hlen.
  destruct p as [s k v it lt]. destruct s as [buf c ds]. simpl in *. subst c.
  assert (Hsr : SoXAudioSource.SampleRate (mk buf (Some ctx) ds) = Some rate).
  { unfold SoXAudioSource.SampleRate. simpl. fold rate.
    destruct (Z.leb_spec 0 rate); [|lia].
    destruct (Z.ltb_spec rate (2 ^ 32)); [reflexivity|lia]. }
  assert (Hsrc : SoXAudioSource.Seek in_samples (mk buf (Some ctx) ds)
            = Returns out_samples
                (mk buf (Some (snd (sox_seek ctx (u64 (out_samples * u8 (signal_channels ctx))))))
                   AudioSource.DECODING)).
  { unfold SoXAudioSource.Seek, bind, get, defined, ret, modify, throw.
    cbn [context]. unfold AudioSource.SamplesFromMicros. cbn [AudioSource.SampleRate SoX_properties].
    rewrite Hsr. simpl. fold rate. fold out_samples.
    destruct ds; try congruence; simpl;
      (destruct (Z.ltb_spec (signal_length ctx)
                 (u64 (out_samples * u8 (signal_channels ctx)))); [lia|]);
      unfold sox_seek; rewrite Hseekable; reflexivity. }
  unfold PipeAudio.Seek.
  rewrite bind_get. unfold AudioSource.SamplesFromMicros at 1.
  cbn [AudioSource.SampleRate SoX_properties PipeAudio.src]. rewrite Hsr.
  cbn [mbind option_bind defined].
  unfold bind at 1. unfold ret at 1. fold rate. fold in_samples.
  assert (Hon : PipeAudio.on_src (AudioSource.Seek in_samples)
                  (PipeAudio.mk (mk buf (Some ctx) ds) k v it lt)
                = Returns out_samples
                    (PipeAudio.mk
                       (mk buf (Some (snd (sox_seek ctx (u64 (out_samples * u8 (signal_channels ctx))))))
                          AudioSource.DECODING) k v it lt)).
  { unfold PipeAudio.on_src, zoom. cbn [AudioSource.Seek SoX_interface PipeAudio.src].
    rewrite Hsrc. reflexivity. }
  rewrite (bind_Returns _ _ _ _ _ Hon).
  unfold sox_seek. rewrite Hseekable. cbn [snd].
  assert (Hpos : forall p' : PipeAudio.t SoXAudioSource.t,
            context (PipeAudio.src p') = Some
              (mk_sox (filename ctx) (signal_rate ctx) (signal_channels ctx)
                 (signal_length ctx) true (stream ctx)
                 (u64 (out_samples * u8 (signal_channels ctx)))) ->
            SdlAudioSink.Position (PipeAudio.sink p') = out_samples ->
            PipeAudio.Position p' = Some (u64 (out_samples * 1000000) / rate)).
  { intros p' Hc Hp. unfold PipeAudio.Position, AudioSource.MicrosFromSamples.
    cbn [AudioSource.SampleRate SoX_properties]. unfold SoXAudioSource.SampleRate.
    rewrite Hc, Hp. cbn. fold rate.
    destruct (Z.leb_spec 0 rate); [|lia].
    destruct (Z.ltb_spec rate (2 ^ 32)); [|lia]. cbn.
    destruct (Z.eqb_spec rate 0); [lia|reflexivity]. }
  destruct k as [kb kr kp ko kst kd kpa].
  unfold bind, PipeAudio.on_sink, zoom, SdlAudioSink.SetPosition, bind,
    modify, get, ret, PipeAudio.ClearFrame, bind, modify, get.
  destruct kst; cbn;
    (eexists; split; [reflexivity|]; split; [reflexivity|];
     split; [apply Hpos; reflexivity|]; split; reflexivity).
Qed.

End SeekRoundTrip.

(** ** The audio pipe on the demo host *)

Section PipeRuns.
Import SoXAudioSource DemoHost.

(** C2.  [a.wav] is loaded and sought to 50000 microseconds, well inside
    its 100000.  The position is then 2199 microseconds: the seek went
    to sample 97 where sample 2205 was asked for.  (One sample lasts
    less than 23 microseconds.) *)
Theorem seek_then_position_is_far_off :
  AudioSystem.Load "a.wav" 0 AudioSource.DECODING = Returns demo_pipe tt /\
  PipeAudio.Position demo_pipe = Some 0 /\
  AudioSource.SamplesFromMicros demo_source 50000 = Some 2205 /\
  exists p',
    PipeAudio.Seek 50000 demo_pipe = Returns tt p' /\
    SdlAudioSink.Position (PipeAudio.sink p') = 97 /\
    PipeAudio.Position p' = Some 2199 /\
    23 < 50000 - 2199.
Proof.
  split; [vm_compute; reflexivity|].
  split; [vm_compute; reflexivity|].
  split; [vm_compute; reflexivity|].
  destruct (Seek_converts_twice demo_pipe silence 50000)
    as (p' & Hrun & Hsink & Hpos & _).
  - reflexivity.
  - discriminate.
  - vm_compute. split; reflexivity.
  - reflexivity.
  - vm_compute. discriminate.
  - exists p'. split; [exact Hrun|].
    split; [rewrite Hsink; vm_compute; reflexivity|].
    split; [rewrite Hpos; vm_compute; reflexivity|lia].
Qed.

Lemma callback_behaviour_witness :
  let k := demo_sink Audio.PLAYING false 100 two_samples in
  0 < SdlAudioSink.bytes_per_sample k /\
  RingBuffer.bytes_per_sample (SdlAudioSink.ring_buf k)
    = SdlAudioSink.bytes_per_sample k /\
  24 = Z.of_nat (length stale_buffer) /\
  exists k',
    SdlAudioSink.Callback stale_buffer 24 k
      = Returns (two_samples ++ replicate 8%nat zero_byte)%list k' /\
    SdlAudioSink.position_sample_count k' = 102 /\
    RingBuffer.pending (SdlAudioSink.ring_buf k') = [] /\
    SdlAudioSink.state k' = Audio.PLAYING.
Proof.
  intros k.
  assert (H1 : 0 < SdlAudioSink.bytes_per_sample k) by reflexivity.
  assert (H2 : RingBuffer.bytes_per_sample (SdlAudioSink.ring_buf k)
               = SdlAudioSink.bytes_per_sample k) by reflexivity.
  assert (H3 : 24 = Z.of_nat (length stale_buffer)) by reflexivity.
  split; [exact H1|]. split; [exact H2|]. split; [exact H3|].
  destruct (callback_behaviour k stale_buffer 24 H1 H2 H3) as (_ & _ & Hread).
  destruct (Hread eq_refl ltac:(vm_compute; discriminate))
    as (k' & Hrun & _ & Hpos & _ & Hpend & _ & Hst & _).
  exists k'. split; [exact Hrun|]. split; [exact Hpos|].
  split; [exact Hpend|exact Hst].
Defined.

Example callback_when_stopped :
  SdlAudioSink.Callback stale_buffer 24
    (demo_sink Audio.STOPPED false 100 two_samples)
  = Returns (replicate 24%nat zero_byte)
      (demo_sink Audio.STOPPED false 100 two_samples).
Proof. reflexivity. Qed.

Example callback_at_the_end :
  SdlAudioSink.Callback stale_buffer 24 (demo_sink Audio.PLAYING true 100 [])
  = Returns (replicate 24%nat zero_byte)
      (SdlAudioSink.with_state Audio.AT_END
         (demo_sink Audio.PLAYING true 100 [])).
Proof. reflexivity. Qed.

(** C9 as written fails for a sink at the end: the response says
    "Stopped". *)
Lemma state_response_at_end_says_stopped :
  let p := pipe_at Audio.AT_END 4410 ∅ in
  SdlAudioSink.State (PipeAudio.sink p) = Audio.AT_END /\
  AudioObject.Emit Response.STATE (Some 1%positive) 0 (AudioObject.Pipe p)
  = Returns
      (Some (mkRespond 1%positive 0 (Response.mk Response.STATE ["Stopped"])))
      (AudioObject.Pipe p) /\
  "Stopped" <> "AtEnd".
Proof. split; [reflexivity|]. split; [reflexivity|discriminate]. Qed.

(** C6 as written fails for a unicast: it is sent, and the record of
    whole seconds stays empty. *)
Lemma unicast_time_leaves_no_record :
  let p := pipe_at Audio.PLAYING 132300 ∅ in
  PipeAudio.Position p = Some 3000000 /\
  exists p',
    PipeAudio.Emit Response.TIME (Some 1%positive) 7 p
    = Returns
        (Some (mkRespond 1%positive 7 (Response.mk Response.TIME ["3000000"])))
        p' /\
    PipeAudio.last_times p' !! 1%positive = None /\
    PipeAudio.last_times p' !! 1%positive
      <> Some (PipeAudio.whole_second 3000000).
Proof.
  split; [vm_compute; reflexivity|].
  eexists. split; [vm_compute; reflexivity|].
  split; [reflexivity|discriminate].
Qed.

Lemma time_broadcast_once_per_second_witness :
  let p := pipe_at Audio.PLAYING 132300 {[ 1%positive := 2 ]} in
  let rs := 1%positive in
  let micros := 3000000 in
  PipeAudio.Position p = Some micros /\
  let secs := PipeAudio.whole_second micros in
  let response id :=
    mkRespond rs id (Response.mk Response.TIME [to_string micros]) in
  (forall id, 0 < id ->
     PipeAudio.Emit Response.TIME (Some rs) id p
     = Returns (Some (response id)) p) /\
  (PipeAudio.last_times p !! rs = None \/
   (exists last, PipeAudio.last_times p !! rs = Some last /\ last < secs) ->
     PipeAudio.Emit Response.TIME (Some rs) 0 p
     = Returns (Some (response 0))
         (PipeAudio.with_last_times (<[rs := secs]> (PipeAudio.last_times p)) p)) /\
  (forall last, PipeAudio.last_times p !! rs = Some last -> secs <= last ->
     PipeAudio.Emit Response.TIME (Some rs) 0 p = Returns None p) /\
  (forall steps, Forall (fun step => 0 <= snd step) steps ->
     StronglySorted Z.lt (PipeAudio.announced_seconds rs steps p)).
Proof.
  intros p rs micros.
  assert (Hpos : PipeAudio.Position p = Some micros) by (vm_compute; reflexivity).
  split; [exact Hpos|].
  exact (time_broadcast_once_per_second p rs micros Hpos).
Defined.

(** Two broadcasts in second 3 and one in second 4, with a unicast in
    between: seconds 3 and 4 are announced once each. *)
Example broadcasts_over_two_seconds :
  PipeAudio.announced_seconds 1%positive
    [ (demo_sink Audio.PLAYING false 132300 [], 1%positive, 0);
      (demo_sink Audio.PLAYING false 140000 [], 1%positive, 5);
      (demo_sink Audio.PLAYING false 150000 [], 1%positive, 0);
      (demo_sink Audio.PLAYING false 176400 [], 1%positive, 0) ]
    (pipe_at Audio.PLAYING 0 ∅)
  = [3; 4].
Proof. vm_compute. reflexivity. Qed.

Lemma update_retains_no_finished_frame_witness :
  0 < 8 /\
  PipeAudio.wf 8 demo_pipe /\
  (PipeAudio.FrameFinished demo_pipe = true ->
   PipeAudio.decode_delivers 8 (PipeAudio.src demo_pipe)) /\
  match PipeAudio.Update demo_pipe with
  | Returns st p' =>
      st = SdlAudioSink.State (PipeAudio.sink p') /\
      PipeAudio.wf 8 p' /\
      PipeAudio.frame_ok 8 p' /\
      (PipeAudio.FrameFinished p' = true -> PipeAudio.frame p' = [])
  | Throws _ p' =>
      PipeAudio.wf 8 p' /\
      PipeAudio.frame_ok 8 p' /\
      (PipeAudio.FrameFinished p' = true -> PipeAudio.frame p' = [])
  | Undefined => False
  end.
Proof.
  assert (H1 : 0 < 8) by lia.
  assert (H2 : PipeAudio.wf 8 demo_pipe).
  { split; [reflexivity|]. split; [reflexivity|]. split.
    - split; [|split; [reflexivity|discriminate]].
      split; [reflexivity|]. split; [discriminate|].
      split; [reflexivity|]. vm_compute. discriminate.
    - left. split; reflexivity. }
  assert (H3 : PipeAudio.FrameFinished demo_pipe = true ->
               PipeAudio.decode_delivers 8 (PipeAudio.src demo_pipe)).
  { intros _. vm_compute. split; reflexivity. }
  split; [exact H1|]. split; [exact H2|]. split; [exact H3|].
  exact (update_retains_no_finished_frame 8 demo_pipe H1 H2 H3).
Defined.

(** The first tick decodes 2048 samples and moves them all to the ring;
    the fourth finds the file at its end. *)
Example first_tick :
  match PipeAudio.Update demo_pipe with
  | Returns st p =>
      st = Audio.STOPPED /\
      PipeAudio.frame p = [] /\
      RingBuffer.ReadCapacity (SdlAudioSink.ring_buf (PipeAudio.sink p)) = 2048 /\
      SdlAudioSink.source_out (PipeAudio.sink p) = false
  | _ => False
  end.
Proof. vm_compute. repeat split; reflexivity. Qed.

Example four_ticks :
  match PipeAudio.ticks (replicate 4%nat (demo_sink Audio.STOPPED false 0 []))
          demo_pipe with
  | Returns _ p =>
      PipeAudio.frame p = [] /\
      decode_state (PipeAudio.src p) = AudioSource.END_OF_FILE /\
      SdlAudioSink.source_out (PipeAudio.sink p) = true
  | _ => False
  end.
Proof. vm_compute. repeat split; reflexivity. Qed.

End PipeRuns.

Section DemoChecks.
Import DemoHost.

Example load_a_wav :
  AudioSystem.Load "a.wav" 0 AudioSource.DECODING = Returns demo_pipe tt.
Proof. vm_compute. reflexivity. Qed.

End DemoChecks.

(** * Further properties *)

(** ** The player's handlers *)

Section PlayerHandlers.
Import Player.
Context {audio : Type} `{Engine audio}.

Ltac run_handler :=
  repeat first
    [ progress simpl in *
    | progress subst
    | progress unfold cmd_play, cmd_stop, cmd_ejct, cmd_quit, cmd_load, cmd_seek,
        loop_iter, au_call, au_query, au_seek_usec, new_audio, gate_state,
        set_state, try_catch, bind, get, put, modify, ret, throw, undefined,
        with_au, with_cstate, with_ptime, respond in * ].

Lemma gate_loop_membership (cs s1 : state) (rest : list state) :
  ~ In S_VOID (s1 :: rest) ->
  gate_loop cs s1 (rest ++ [GEND])
  = Some (existsb (state_eqb cs) (s1 :: rest)).
Proof.
  revert s1. induction rest as [|s2 rest IH]; intros s1 Hvoid.
  - destruct s1; simpl in Hvoid; try tauto; destruct cs; reflexivity.
  - assert (Hs1 : s1 <> S_VOID) by (intros ->; apply Hvoid; left; reflexivity).
    assert (Hrest : ~ In S_VOID (s2 :: rest))
      by (intros Hin; apply Hvoid; right; exact Hin).
    specialize (IH s2 Hrest).
    change (gate_loop cs s1 ((s2 :: rest) ++ [GEND]))
      with (if state_eqb s1 GEND then Some false
            else if state_eqb cs s1 then Some true
            else gate_loop cs s2 (rest ++ [GEND])).
    rewrite IH.
    destruct s1; try tauto; destruct cs; reflexivity.
Qed.

(** X1.  Called with a list of states other than [S_VOID] that [GEND]
    closes, [gate_state] says whether the current state is in the list,
    reads no argument past [GEND], and changes nothing. *)
Theorem gate_state_is_membership
    (s1 : state) (rest : list state) (p : player audio) :
  ~ In S_VOID (s1 :: rest) ->
  gate_state s1 (rest ++ [GEND]) p
  = Returns (existsb (state_eqb (cstate p)) (s1 :: rest)) p.
Proof.
  intros Hvoid. unfold gate_state, bind, get, ret.
  rewrite (gate_loop_membership (cstate p) s1 rest Hvoid). reflexivity.
Qed.

(** X2.  [cmd_play] in state Stop: with an audio it starts the audio,
    moves to Play and writes the STAT line; without one it returns
    [false] and changes nothing. *)
Theorem cmd_play_from_stop (p : player audio) :
  cstate p = S_STOP ->
  cmd_play p =
    match au p with
    | Some a =>
        Returns true
          (mkPlayer S_PLAY (device p) (Some (start a)) (ptime p)
             (responses p ++ [R_STAT "Stop" "Play"]))
    | None => Returns false p
    end.
Proof.
  intros Hs. destruct p as [cs dev a pt rs]. simpl in Hs. subst cs.
  destruct a as [a|]; reflexivity.
Qed.

(** X3.  [cmd_ejct] in state Stop or Play drops the audio, moves to Ejct,
    resets the announced time to 0 and writes the STAT line. *)
Theorem cmd_ejct_drops_audio (p : player audio) :
  cstate p = S_STOP \/ cstate p = S_PLAY ->
  cmd_ejct p =
    Returns true
      (mkPlayer S_EJCT (device p) None 0
         (responses p ++ [R_STAT (STATES (cstate p)) "Ejct"])).
Proof.
  intros Hs. destruct p as [cs dev a pt rs]. simpl in Hs.
  destruct Hs; subst cs; reflexivity.
Qed.

(** X4.  [cmd_quit] is valid in every state and ends in Quit.  From Stop
    or Play it ejects first: the audio is dropped and two STAT lines are
    written; from any other state the audio is left alone and one line
    is written. *)
Theorem cmd_quit_always_quits (p : player audio) :
  cmd_quit p =
    Returns true
      (if state_eqb (cstate p) S_STOP || state_eqb (cstate p) S_PLAY
       then mkPlayer S_QUIT (device p) None 0
              (responses p ++ [R_STAT (STATES (cstate p)) "Ejct";
                               R_STAT "Ejct" "Quit"])
       else mkPlayer S_QUIT (device p) (au p) (ptime p)
              (responses p ++ [R_STAT (STATES (cstate p)) "Quit"])).
Proof.
  destruct p as [cs dev a pt rs].
  destruct cs; run_handler; rewrite <- ?app_assoc; reflexivity.
Qed.

(** X5.  [cmd_load] returns [true] whatever happens.  When the audio is
    built the player holds it and is in Stop, from any state, Quit
    included.  When building throws, a player in Stop or Play is
    ejected, losing the audio it had, and any other player is left as
    it was. *)
Theorem cmd_load_always_valid (filename : string) (p : player audio) :
  cmd_load filename p =
    Returns true
      match audio_new filename (device p) with
      | inr a =>
          mkPlayer S_STOP (device p) (Some a) (ptime p)
            (responses p ++ [R_STAT (STATES (cstate p)) "Stop"])
      | inl _ =>
          if state_eqb (cstate p) S_STOP || state_eqb (cstate p) S_PLAY
          then mkPlayer S_EJCT (device p) None 0
                 (responses p ++ [R_STAT (STATES (cstate p)) "Ejct"])
          else p
      end.
Proof.
  destruct p as [cs dev a pt rs]. run_handler.
  destruct (audio_new filename dev) as [e|a']; [|reflexivity].
  destruct cs; reflexivity.
Qed.


(** X8.  [loop_iter] on a playing audio that has not halted: the time is
    announced exactly when it lies in a later period of [TIME_USECS]
    than the last time seen, the last time seen becomes the current
    one, and the audio decodes once.  In Stop the audio decodes and
    nothing else happens. *)
Theorem loop_iter_pulses_and_decodes (p : player audio) (a : audio) :
  au p = Some a ->
  (cstate p = S_PLAY -> halted a = false ->
     loop_iter p =
       Returns tt
         (mkPlayer S_PLAY (device p) (Some (decode a)) (usec a)
            (if usec a / TIME_USECS >? ptime p / TIME_USECS
             then responses p ++ [R_TIME (usec a)] else responses p))) /\
  (cstate p = S_STOP ->
     loop_iter p =
       Returns tt
         (mkPlayer S_STOP (device p) (Some (decode a)) (ptime p)
            (responses p))).
Proof.
  intros Ha. destruct p as [cs dev a0 pt rs]. simpl in *. subst. split.
  - intros Hs Hh. subst. run_handler. rewrite Hh. cbn.
    destruct (usec a / TIME_USECS >? pt / TIME_USECS); reflexivity.
  - intros Hs. subst. reflexivity.
Qed.

End PlayerHandlers.

Section PlayerHandlerRuns.
Import Player DemoEngine.

Lemma gate_state_is_membership_witness :
  ~ In S_VOID [S_PLAY; S_STOP] /\
  gate_state S_PLAY [S_STOP; GEND] stopped_player
  = Returns true stopped_player.
Proof.
  assert (Hv : ~ In S_VOID [S_PLAY; S_STOP])
    by (intros [Hin|[Hin|[]]]; discriminate Hin).
  split; [exact Hv|].
  exact (gate_state_is_membership S_PLAY [S_STOP] stopped_player Hv).
Defined.

Lemma cmd_play_from_stop_witness :
  cstate stopped_player = S_STOP /\
  cmd_play stopped_player =
    Returns true
      (mkPlayer S_PLAY 0 (Some (mkDemo "a.wav" true 0 10000000)) 0
         [R_STAT "Stop" "Play"]).
Proof.
  split; [reflexivity|].
  exact (cmd_play_from_stop stopped_player eq_refl).
Defined.

Lemma cmd_ejct_drops_audio_witness :
  (cstate playing_player = S_STOP \/ cstate playing_player = S_PLAY) /\
  cmd_ejct playing_player =
    Returns true (mkPlayer S_EJCT 0 None 0 [R_STAT "Play" "Ejct"]).
Proof.
  split; [right; reflexivity|].
  exact (cmd_ejct_drops_audio playing_player (or_intror eq_refl)).
Defined.


Lemma loop_iter_pulses_and_decodes_witness :
  let a := mkDemo "a.wav" true 1000000 10000000 in
  let p := mkPlayer S_PLAY 0 (Some a) 999999 [] in
  au p = Some a /\ cstate p = S_PLAY /\ halted a = false /\
  loop_iter p
  = Returns tt (mkPlayer S_PLAY 0 (Some a) 1000000 [R_TIME 1000000]) /\
  loop_iter stopped_player = Returns tt stopped_player.
Proof.
  intros a p. split; [reflexivity|]. split; [reflexivity|].
  split; [reflexivity|]. split.
  - exact (proj1 (loop_iter_pulses_and_decodes p a eq_refl) eq_refl eq_refl).
  - exact (proj2 (loop_iter_pulses_and_decodes stopped_player
                    (mkDemo "a.wav" false 0 10000000) eq_refl) eq_refl).
Defined.

End PlayerHandlerRuns.

(** ** The sink *)

Section SinkMethods.
Import SdlAudioSink.

(** X9.  [Start] and [Stop] in sequence.  Stopping a sink that was just
    started leaves it stopped with the device paused, and starting one
    that was just stopped leaves it playing with the device running,
    whatever the state before; the second holds at the end of a file
    too, where [Start] alone does nothing.  Each of the two is
    idempotent. *)
Theorem start_stop_compose (k : t) :
  (Start ;; Stop) k = Returns tt (with_state Audio.STOPPED (with_paused true k)) /\
  (Stop ;; Start) k = Returns tt (with_state Audio.PLAYING (with_paused false k)) /\
  (state k = Audio.AT_END -> Start k = Returns tt k) /\
  (Start ;; Start) k = Start k /\
  (Stop ;; Stop) k = Stop k.
Proof.
  destruct k as [bps rb pos out st dev pa].
  split; [destruct st; reflexivity|].
  split; [destruct st; reflexivity|].
  split; [simpl; intros ->; reflexivity|].
  split; destruct st; reflexivity.
Qed.

(** X10.  [SetPosition] sets the position, clears the flag of the source
    having run out, empties the ring and takes a sink at the end of a
    file back to stopped; it never touches the pause state of the
    device, since the [Stop] it calls finds the state already stopped.
    The sink stays well formed and is never at the end afterwards. *)
Theorem SetPosition_resets (samples : Z) (k : t) :
  exists k',
    SetPosition samples k = Returns tt k' /\
    Position k' = samples /\
    source_out k' = false /\
    RingBuffer.pending (ring_buf k') = [] /\
    RingBuffer.ReadCapacity (ring_buf k') = 0 /\
    State k' = (if Audio.State_eqb (state k) Audio.AT_END
                then Audio.STOPPED else state k) /\
    State k' <> Audio.AT_END /\
    paused k' = paused k /\
    (wf k -> wf k').
Proof.
  destruct k as [bps rb pos out st dev pa].
  destruct st; (eexists; split; [reflexivity|]); cbn;
    (split; [reflexivity|]); (split; [reflexivity|]);
    (split; [reflexivity|]); (split; [reflexivity|]);
    (split; [reflexivity|]); (split; [discriminate|]);
    (split; [reflexivity|]);
    intros ((Hb & Hp & Hm & Hc) & Hsame & Hend); cbn in *;
    (split; [|split; [exact Hsame|discriminate]]);
    unfold RingBuffer.wf, RingBuffer.ReadCapacity; cbn;
    (split; [exact Hb|]); (split; [exact Hp|]);
    (split; [apply Z.mod_0_l; lia|]);
    rewrite Z.div_0_l by lia; apply Z.lt_le_incl, Z.pow_pos_nonneg; lia.
Qed.

Lemma Transfer_result (k : t) (v : list byte) (start end_ : Z) :
  wf k ->
  0 <= start <= end_ ->
  end_ <= Z.of_nat (length v) ->
  (end_ - start) mod bytes_per_sample k = 0 ->
  let bps := bytes_per_sample k in
  let n := Z.min ((end_ - start) / bps)
             (RingBuffer.WriteCapacity (ring_buf k)) in
  0 <= n /\
  n * bps <= end_ - start /\
  Transfer v start end_ k =
    Returns (start + n * bps)
      (with_ring_buf
         (RingBuffer.mk (RingBuffer.power (ring_buf k)) bps
            (RingBuffer.pending (ring_buf k)
             ++ take (Z.to_nat (n * bps)) (drop (Z.to_nat start) v))) k).
Proof.
  intros ((Hrbps & Hpow & Hpend & Hcap) & Hsame & Hend) Hstart Hlen Hwhole.
  intros bps n. subst bps.
  set (bps := bytes_per_sample k) in *.
  set (rb := ring_buf k) in *.
  rewrite Hsame in Hrbps.
  assert (Hsamples : end_ - start = (end_ - start) / bps * bps).
  { pose proof (Z.div_mod (end_ - start) bps ltac:(lia)). lia. }
  assert (Hs0 : 0 <= (end_ - start) / bps) by (apply Z.div_pos; lia).
  assert (Hwc : 0 <= RingBuffer.WriteCapacity rb)
    by (unfold RingBuffer.WriteCapacity; lia).
  assert (Hn : 0 <= n) by (unfold n; lia).
  assert (Hns : n <= (end_ - start) / bps) by (unfold n; lia).
  assert (Hnb : n * bps <= end_ - start) by nia.
  split; [exact Hn|]. split; [exact Hnb|].
  assert (Hsame0 : forall l,
            l = RingBuffer.pending rb ->
            k = with_ring_buf
                  (RingBuffer.mk (RingBuffer.power rb) bps l) k).
  { intros l ->. unfold rb, bps in *. destruct k as [b r po so st de pa].
    destruct r as [rp rbp rl]. cbn in *. subst rbp. reflexivity. }
  unfold Transfer, bind, assert, get, ret, modify, undefined.
  destruct (Z.leb_spec start end_) as [_|?]; [|lia].
  destruct (Z.eqb_spec start end_) as [Heq|Hne].
  - assert (Hn0 : n = 0).
    { unfold n. replace (end_ - start) with 0 by lia.
      rewrite Z.div_0_l by lia. lia. }
    rewrite Hn0. cbn [Z.mul Z.to_nat take]. rewrite app_nil_r, Z.add_0_r.
    f_equal. apply Hsame0. reflexivity.
  - fold bps. destruct (Z.eqb_spec bps 0) as [?|_]; [lia|]. cbn [negb].
    rewrite Hwhole. cbn [Z.eqb].
    destruct (Z.ltb_spec 0 (end_ - start)) as [_|?]; [|lia].
    fold rb. fold n.
    destruct (Z.eqb_spec n 0) as [Hzero|Hnonzero].
    + rewrite Hzero. cbn [Z.mul Z.to_nat take]. rewrite app_nil_r, Z.add_0_r.
      f_equal. apply Hsame0. reflexivity.
    + unfold RingBuffer.Write.
      replace (Z.max 0 (Z.min n (RingBuffer.WriteCapacity rb))) with n
        by (unfold n; lia).
      rewrite Hsame. fold bps. cbn beta iota.
      rewrite Z.eqb_refl.
      destruct (Z.leb_spec (start + n * bps) end_) as [_|?]; [|lia].
      reflexivity.
Qed.

(** X11.  [Transfer] moves whole samples only, as many as the range holds
    and the ring has room for: the iterator advances by their size, the
    bytes it passed are appended to the ring in order, and position,
    state and the source flag stay as they were.  With an empty range or
    a full ring nothing moves. *)
Theorem Transfer_appends_whole_samples
    (k : t) (v : list byte) (start end_ : Z) :
  wf k ->
  0 <= start <= end_ ->
  end_ <= Z.of_nat (length v) ->
  (end_ - start) mod bytes_per_sample k = 0 ->
  let bps := bytes_per_sample k in
  let n := Z.min ((end_ - start) / bps)
             (RingBuffer.WriteCapacity (ring_buf k)) in
  exists k',
    Transfer v start end_ k = Returns (start + n * bps) k' /\
    0 <= n /\
    start + n * bps <= end_ /\
    RingBuffer.pending (ring_buf k')
      = (RingBuffer.pending (ring_buf k)
         ++ take (Z.to_nat (n * bps)) (drop (Z.to_nat start) v))%list /\
    RingBuffer.ReadCapacity (ring_buf k')
      = RingBuffer.ReadCapacity (ring_buf k) + n /\
    Position k' = Position k /\
    State k' = State k /\
    source_out k' = source_out k /\
    (start = end_ \/ RingBuffer.WriteCapacity (ring_buf k) = 0 -> k' = k).
Proof.
  intros Hwf Hstart Hlen Hwhole bps n.
  destruct (Transfer_result k v start end_ Hwf Hstart Hlen Hwhole)
    as (Hn & Hnb & Hrun).
  fold bps in Hrun, Hnb, Hn. fold n in Hrun, Hn, Hnb.
  destruct Hwf as ((Hrbps & Hpow & Hpend & Hcap) & Hsame & Hend).
  rewrite Hsame in Hrbps, Hpend. fold bps in Hrbps, Hpend.
  eexists. split; [exact Hrun|].
  split; [exact Hn|]. split; [lia|].
  split; [reflexivity|].
  split.
  { unfold RingBuffer.ReadCapacity. rewrite Hsame. fold bps.
    cbn [ring_buf with_ring_buf RingBuffer.pending RingBuffer.bytes_per_sample].
    assert (Hnb0 : 0 <= n * bps) by nia.
    rewrite length_app, length_take, length_drop, Nat2Z.inj_add.
    replace (Z.of_nat (Z.to_nat (n * bps) `min` (length v - Z.to_nat start)))
      with (n * bps) by lia.
    rewrite Z.div_add by lia. reflexivity. }
  split; [reflexivity|]. split; [reflexivity|]. split; [reflexivity|].
  intros Hnothing.
  assert (Hn0 : n = 0).
  { destruct Hnothing as [Heq|Hfull].
    - unfold n. replace (end_ - start) with 0 by lia.
      rewrite Z.div_0_l by lia.
      unfold RingBuffer.WriteCapacity. lia.
    - unfold n. rewrite Hfull.
      assert (0 <= (end_ - start) / bps) by (apply Z.div_pos; lia). lia. }
  rewrite Hn0. cbn [Z.mul Z.to_nat take]. rewrite app_nil_r.
  unfold bps in *. destruct k as [b r po so st de pa].
  destruct r as [rp rbp rl]. cbn in *. subst rbp. reflexivity.
Qed.

Lemma Callback_playing_result (k : t) (out : list byte) :
  wf k ->
  state k = Audio.PLAYING ->
  RingBuffer.ReadCapacity (ring_buf k) <> 0 ->
  let bps := bytes_per_sample k in
  let ring := ring_buf k in
  let n := Z.min (Z.of_nat (length out) / bps) (RingBuffer.ReadCapacity ring) in
  let data := take (Z.to_nat (n * bps)) (RingBuffer.pending ring) in
  0 <= n /\
  Z.of_nat (length data) = n * bps /\
  (length data <= length out)%nat /\
  Callback out (Z.of_nat (length out)) k =
    Returns (data ++ replicate (length out - length data) zero_byte)%list
      (with_position (u64 (position_sample_count k + n))
         (with_ring_buf
            (RingBuffer.mk (RingBuffer.power ring) bps
               (drop (Z.to_nat (n * bps)) (RingBuffer.pending ring))) k)).
Proof.
  intros ((Hrbps & Hpow & Hpend & Hcap) & Hsame & Hend) Hst Hnonzero.
  intros bps ring n data.
  rewrite Hsame in Hrbps, Hpend. fold bps in Hrbps, Hpend.
  fold ring in Hsame, Hpend, Hnonzero.
  assert (Hcap0 : 0 <= RingBuffer.ReadCapacity ring).
  { unfold RingBuffer.ReadCapacity. apply Z.div_pos; [lia|].
    rewrite Hsame. exact Hrbps. }
  assert (Hreq : 0 <= Z.of_nat (length out) / bps) by (apply Z.div_pos; lia).
  assert (Hn : 0 <= n <= RingBuffer.ReadCapacity ring) by (unfold n; lia).
  assert (Hnreq : n * bps <= Z.of_nat (length out)).
  { pose proof (Z.mul_div_le (Z.of_nat (length out)) bps Hrbps).
    unfold n. nia. }
  assert (Hexact : Z.of_nat (length (RingBuffer.pending ring))
                   = RingBuffer.ReadCapacity ring * bps).
  { unfold RingBuffer.ReadCapacity. rewrite Hsame. fold bps.
    pose proof (Z.div_mod (Z.of_nat (length (RingBuffer.pending ring))) bps
                  ltac:(lia)). lia. }
  assert (Hdata : Z.of_nat (length data) = n * bps).
  { unfold data. rewrite length_take. nia. }
  split; [lia|]. split; [exact Hdata|]. split; [lia|].
  assert (Hmemset : memset_zero out (Z.of_nat (length out))
                    = Some (replicate (length out) zero_byte)).
  { unfold memset_zero. rewrite Nat2Z.id.
    destruct (Z.leb_spec 0 (Z.of_nat (length out))); [|lia].
    rewrite Z.leb_refl. simpl.
    rewrite drop_all, app_nil_r. reflexivity. }
  assert (Hnn : (0 <=? Z.of_nat (length out)) = true) by (apply Z.leb_le; lia).
  unfold Callback, bind, assert, defined, get, ret, modify.
  rewrite Hnn, Hmemset, Hst. cbn [negb Audio.State_eqb].
  fold ring.
  destruct (Z.eqb_spec (RingBuffer.ReadCapacity ring) 0) as [?|_]; [tauto|].
  fold bps. destruct (Z.eqb_spec bps 0) as [?|_]; [lia|]. cbn [negb].
  fold n. unfold RingBuffer.Read.
  replace (Z.max 0 (Z.min n (RingBuffer.ReadCapacity ring))) with n by lia.
  rewrite Hsame. fold bps. fold data.
  unfold store_front. rewrite length_replicate.
  destruct (Nat.leb_spec (length data) (length out)) as [_|?]; [|lia].
  rewrite drop_replicate. reflexivity.
Qed.

(** X12.  What [Transfer] puts into an empty ring, the next [Callback] of
    a playing sink hands to the device: the bytes of the frame come out
    first and in order, silence fills the rest of the device's buffer,
    the ring is empty again and the position has moved by the samples
    of the frame. *)
Theorem transfer_then_callback_round_trip (k : t) (v out : list byte) :
  wf k ->
  state k = Audio.PLAYING ->
  RingBuffer.pending (ring_buf k) = [] ->
  v <> [] ->
  Z.of_nat (length v) mod bytes_per_sample k = 0 ->
  Z.of_nat (length v) / bytes_per_sample k
    <= 2 ^ RingBuffer.power (ring_buf k) ->
  (length v <= length out)%nat ->
  exists k',
    (start <- Transfer v 0 (Z.of_nat (length v)) ;;
     out' <- Callback out (Z.of_nat (length out)) ;;
     ret (start, out')) k
    = Returns (Z.of_nat (length v),
               (v ++ replicate (length out - length v) zero_byte)%list) k' /\
    Position k'
      = u64 (Position k + Z.of_nat (length v) / bytes_per_sample k) /\
    RingBuffer.pending (ring_buf k') = [] /\
    State k' = Audio.PLAYING /\
    wf k'.
Proof.
  intros Hwf Hst Hempty Hv Hwhole Hfits Hout.
  pose proof Hwf as ((Hrbps & Hpow & Hpend & Hcap) & Hsame & Hend).
  rewrite Hsame in Hrbps.
  set (bps := bytes_per_sample k) in *.
  set (len := Z.of_nat (length v)) in *.
  assert (Hlen : 0 < len) by (destruct v; [tauto|unfold len; simpl; lia]).
  assert (Hdiv : len = len / bps * bps).
  { pose proof (Z.div_mod len bps ltac:(lia)). lia. }
  assert (Hs : 0 < len / bps) by nia.
  assert (Hwc : RingBuffer.WriteCapacity (ring_buf k)
                = 2 ^ RingBuffer.power (ring_buf k)).
  { unfold RingBuffer.WriteCapacity, RingBuffer.ReadCapacity.
    rewrite Hempty. simpl. rewrite Z.div_0_l by lia. lia. }
  destruct (Transfer_result k v 0 len Hwf ltac:(lia) ltac:(unfold len; lia))
    as (_ & _ & Hrun).
  { rewrite Z.sub_0_r. exact Hwhole. }
  fold bps in Hrun. rewrite Z.sub_0_r, Hwc in Hrun.
  replace (Z.min (len / bps) (2 ^ RingBuffer.power (ring_buf k)))
    with (len / bps) in Hrun by lia.
  rewrite <- Hdiv, Hempty in Hrun.
  change (Z.to_nat 0) with 0%nat in Hrun. rewrite drop_0 in Hrun.
  replace (Z.to_nat len) with (length v) in Hrun by (unfold len; lia).
  rewrite firstn_all in Hrun.
  cbn [app] in Hrun. rewrite Z.add_0_l in Hrun.
  set (k1 := with_ring_buf _ k) in Hrun.
  assert (Hwf1 : wf k1).
  { unfold k1, wf, RingBuffer.wf, RingBuffer.ReadCapacity. cbn.
    fold len. fold bps.
    split; [|split; [reflexivity|exact Hend]].
    split; [exact Hrbps|]. split; [exact Hpow|].
    split; [exact Hwhole|exact Hfits]. }
  assert (Hrc1 : RingBuffer.ReadCapacity (ring_buf k1) = len / bps)
    by reflexivity.
  destruct (Callback_playing_result k1 out Hwf1 Hst ltac:(rewrite Hrc1; lia))
    as (_ & _ & _ & Hcb).
  rewrite Hrc1 in Hcb.
  change (bytes_per_sample k1) with bps in Hcb.
  change (RingBuffer.pending (ring_buf k1)) with v in Hcb.
  assert (Hreq : len / bps <= Z.of_nat (length out) / bps).
  { apply Z.div_le_mono; unfold len; lia. }
  replace (Z.min (Z.of_nat (length out) / bps) (len / bps))
    with (len / bps) in Hcb by lia.
  rewrite <- Hdiv in Hcb.
  replace (Z.to_nat len) with (length v) in Hcb by (unfold len; lia).
  rewrite firstn_all, drop_all in Hcb.
  rewrite (bind_Returns _ _ _ _ _ Hrun), (bind_Returns _ _ _ _ _ Hcb).
  eexists. split; [reflexivity|].
  split; [reflexivity|]. split; [reflexivity|]. split; [exact Hst|].
  unfold wf, RingBuffer.wf, RingBuffer.ReadCapacity. cbn. fold bps.
  split; [|split; [reflexivity|exact Hend]].
  split; [exact Hrbps|]. split; [exact Hpow|].
  split; [apply Z.mod_0_l; lia|].
  rewrite Z.div_0_l by lia. apply Z.lt_le_incl, Z.pow_pos_nonneg; lia.
Qed.


(** X14.  Every method keeps a well-formed sink well formed, and none
    fails on one: [Start], [Stop], [SetPosition], [SourceOut], whose
    assertion therefore holds, [Callback] on a buffer of the length it
    is given, and [Transfer] of a range of whole samples inside its
    vector. *)
Theorem sink_stays_well_formed (k : t) :
  wf k ->
  leaves wf (Start k) /\
  leaves wf (Stop k) /\
  leaves wf (SourceOut k) /\
  (forall samples, leaves wf (SetPosition samples k)) /\
  (forall out, leaves wf (Callback out (Z.of_nat (length out)) k)) /\
  (forall v start end_,
     0 <= start <= end_ ->
     end_ <= Z.of_nat (length v) ->
     (end_ - start) mod bytes_per_sample k = 0 ->
     leaves wf (Transfer v start end_ k)).
Proof.
  intros Hwf.
  pose proof Hwf as (Hring & Hsame & Hend).
  split.
  { destruct k as [b r po so st de pa]. destruct st; cbn in *;
      try exact Hwf;
      (split; [exact Hring|split; [exact Hsame|discriminate]]). }
  split.
  { destruct k as [b r po so st de pa]. destruct st; cbn in *;
      try exact Hwf;
      (split; [exact Hring|split; [exact Hsame|discriminate]]). }
  split.
  { destruct (SourceOut_wf k Hwf) as [Hrun Hwf']. rewrite Hrun. exact Hwf'. }
  split.
  { intros samples.
    destruct k as [b r po so st de pa]. destruct Hring as (Hb & Hp & Hm & Hc).
    destruct st; cbn in *;
      (split; [|split; [exact Hsame|discriminate]]);
      unfold RingBuffer.wf, RingBuffer.ReadCapacity; cbn;
      (split; [exact Hb|]); (split; [exact Hp|]);
      (split; [apply Z.mod_0_l; lia|]);
      rewrite Z.div_0_l by lia; apply Z.lt_le_incl, Z.pow_pos_nonneg; lia. }
  split.
  { intros out.
    destruct (Callback_keeps_wf k out _ Hwf eq_refl) as (out' & k' & Hrun & Hwf' & _).
    rewrite Hrun. exact Hwf'. }
  intros v start end_ Hstart Hlen Hwhole.
  destruct (Transfer_result k v start end_ Hwf Hstart Hlen Hwhole)
    as (Hn & Hnb & Hrun).
  rewrite Hrun. cbn [leaves].
  destruct Hring as (Hb & Hp & Hm & Hc).
  rewrite Hsame in Hb, Hm.
  set (bps := bytes_per_sample k) in *.
  set (n := Z.min _ _) in *.
  unfold wf, RingBuffer.wf, RingBuffer.ReadCapacity.
  cbn [ring_buf with_ring_buf RingBuffer.pending RingBuffer.bytes_per_sample
       RingBuffer.power state source_out bytes_per_sample].
  fold bps.
  assert (Hnb0 : 0 <= n * bps) by nia.
  assert (Hl : Z.of_nat (length (RingBuffer.pending (ring_buf k)
                 ++ take (Z.to_nat (n * bps)) (drop (Z.to_nat start) v)))
               = Z.of_nat (length (RingBuffer.pending (ring_buf k))) + n * bps).
  { rewrite length_app, length_take, length_drop. lia. }
  rewrite Hl.
  split; [|split; [reflexivity|exact Hend]].
  split; [exact Hb|]. split; [exact Hp|].
  split; [rewrite Z_mod_plus_full; exact Hm|].
  rewrite Z.div_add by lia.
  assert (Hnw : n <= RingBuffer.WriteCapacity (ring_buf k))
    by (unfold n; lia).
  revert Hnw Hc. unfold RingBuffer.WriteCapacity, RingBuffer.ReadCapacity.
  rewrite Hsame. fold bps. lia.
Qed.

End SinkMethods.

(** ** The device list *)

Section Devices.
Import SdlAudioSinkDevices.
Context `{SDL_devices}.

Lemma named_ids_sorted (n : nat) (m : Z) :
  let named i :=
    match SDL_GetAudioDeviceName i with
    | None => None
    | Some name => Some (i, name)
    end in
  StronglySorted Z.lt (map fst (omap named (seqZ m (Z.of_nat n)))) /\
  Forall (fun id => m <= id) (map fst (omap named (seqZ m (Z.of_nat n)))).
Proof.
  intros named. revert m. induction n as [|n IH]; intros m.
  - rewrite seqZ_nil by lia. split; constructor.
  - rewrite seqZ_cons by lia.
    replace (Z.pred (Z.of_nat (Datatypes.S n))) with (Z.of_nat n) by lia.
    destruct (IH (Z.succ m)) as [Hsorted Hlow].
    assert (Hlow' : Forall (fun id => m < id)
                      (map fst (omap named (seqZ (Z.succ m) (Z.of_nat n))))).
    { eapply Forall_impl; [exact Hlow|]. cbn. intros. lia. }
    cbn [omap list_omap].
    destruct (named m) as [[i name]|] eqn:Hnamed.
    + assert (Hi : i = m).
      { unfold named in Hnamed.
        destruct (SDL_GetAudioDeviceName m); inversion Hnamed; reflexivity. }
      subst i. cbn [map fst]. split.
      * constructor; [exact Hsorted|exact Hlow'].
      * constructor; [lia|]. eapply Forall_impl; [exact Hlow'|].
        cbn. intros. lia.
    + split; [exact Hsorted|].
      eapply Forall_impl; [exact Hlow'|]. cbn. intros. lia.
Qed.

(** X15.  [GetDevicesInfo] lists exactly the ids that [IsOutputDevice]
    accepts and SDL has a name for, each with that name and in
    increasing order of id, so no id is listed twice.  An id SDL has no
    name for is accepted by [IsOutputDevice] and is not in the list. *)
Theorem GetDevicesInfo_lists_named_ids :
  (forall id name,
     (id, name) ∈ GetDevicesInfo
     <-> IsOutputDevice id = true /\
         SDL_GetAudioDeviceName id = Some name) /\
  StronglySorted Z.lt (map fst GetDevicesInfo) /\
  (forall id,
     IsOutputDevice id = true ->
     SDL_GetAudioDeviceName id = None ->
     id ∉ map fst GetDevicesInfo).
Proof.
  assert (Hiff : forall id name,
            (id, name) ∈ GetDevicesInfo
            <-> IsOutputDevice id = true /\
                SDL_GetAudioDeviceName id = Some name).
  { intros id name. unfold GetDevicesInfo, IsOutputDevice.
    rewrite list_elem_of_omap. setoid_rewrite elem_of_seqZ.
    rewrite andb_true_iff, Z.leb_le, Z.ltb_lt. split.
    - intros (i & Hi & Hname).
      destruct (SDL_GetAudioDeviceName i) as [n|] eqn:Hn; [|discriminate].
      injection Hname as -> ->. split; [lia|exact Hn].
    - intros (Hi & Hname). exists id. split; [lia|].
      rewrite Hname. reflexivity. }
  split; [exact Hiff|]. split.
  - unfold GetDevicesInfo.
    destruct (Z.le_gt_cases SDL_GetNumAudioDevices 0) as [Hle|Hgt].
    + rewrite seqZ_nil by lia. constructor.
    + rewrite <- (Z2Nat.id SDL_GetNumAudioDevices) by lia.
      apply (named_ids_sorted _ 0).
  - intros id _ Hnone Hin.
    apply list_elem_of_fmap in Hin. destruct Hin as ([id' name] & Hid & Hin).
    cbn in Hid. subst id'.
    apply Hiff in Hin. destruct Hin as [_ Hname]. congruence.
Qed.

End Devices.

Section SinkRuns.
Import SdlAudioSink DemoHost.

Ltac demo_sink_wf :=
  split; [|split; [reflexivity|first [discriminate | intros _; reflexivity]]];
  split; [reflexivity|]; split; [discriminate|];
  split; [reflexivity|]; vm_compute; discriminate.

Lemma start_stop_compose_witness :
  let k := demo_sink Audio.AT_END true 4410 [] in
  state k = Audio.AT_END /\
  Start k = Returns tt k /\
  (Stop ;; Start) k = Returns tt (demo_sink Audio.PLAYING true 4410 []).
Proof.
  intros k. split; [reflexivity|].
  destruct (start_stop_compose k) as (_ & Hrestart & Hstart & _).
  split; [exact (Hstart eq_refl)|exact Hrestart].
Defined.

Lemma SetPosition_resets_witness :
  let k := demo_sink Audio.AT_END true 4410 [] in
  wf k /\
  exists k',
    SetPosition 0 k = Returns tt k' /\
    State k' = Audio.STOPPED /\
    paused k' = paused k /\
    wf k'.
Proof.
  intros k.
  assert (Hwf : wf k) by demo_sink_wf.
  split; [exact Hwf|].
  destruct (SetPosition_resets 0 k)
    as (k' & Hrun & _ & _ & _ & _ & Hst & _ & Hpaused & Hkeeps).
  exists k'. split; [exact Hrun|]. split; [exact Hst|].
  split; [exact Hpaused|exact (Hkeeps Hwf)].
Defined.

Lemma Transfer_appends_whole_samples_witness :
  let k := demo_sink Audio.PLAYING false 100 [] in
  wf k /\
  0 <= 0 <= 16 /\
  16 <= Z.of_nat (length two_samples) /\
  (16 - 0) mod bytes_per_sample k = 0 /\
  exists k',
    Transfer two_samples 0 16 k = Returns 16 k' /\
    RingBuffer.pending (ring_buf k') = two_samples /\
    RingBuffer.ReadCapacity (ring_buf k') = 2.
Proof.
  intros k.
  assert (Hwf : wf k) by demo_sink_wf.
  assert (H1 : 0 <= 0 <= 16) by lia.
  assert (H2 : 16 <= Z.of_nat (length two_samples)) by (vm_compute; discriminate).
  assert (H3 : (16 - 0) mod bytes_per_sample k = 0) by reflexivity.
  split; [exact Hwf|]. split; [exact H1|]. split; [exact H2|].
  split; [exact H3|].
  destruct (Transfer_appends_whole_samples k two_samples 0 16 Hwf H1 H2 H3)
    as (k' & Hrun & _ & _ & Hpending & Hcap & _).
  exists k'. split; [exact Hrun|]. split; [exact Hpending|exact Hcap].
Defined.

Lemma transfer_then_callback_round_trip_witness :
  let k := demo_sink Audio.PLAYING false 100 [] in
  wf k /\
  state k = Audio.PLAYING /\
  RingBuffer.pending (ring_buf k) = [] /\
  two_samples <> [] /\
  Z.of_nat (length two_samples) mod bytes_per_sample k = 0 /\
  Z.of_nat (length two_samples) / bytes_per_sample k
    <= 2 ^ RingBuffer.power (ring_buf k) /\
  (length two_samples <= length stale_buffer)%nat /\
  exists k',
    (start <- Transfer two_samples 0 16 ;;
     out' <- Callback stale_buffer 24 ;;
     ret (start, out')) k
    = Returns (16, (two_samples ++ replicate 8%nat zero_byte)%list) k' /\
    Position k' = 102.
Proof.
  intros k.
  assert (Hwf : wf k) by demo_sink_wf.
  assert (H1 : two_samples <> []) by discriminate.
  assert (H2 : Z.of_nat (length two_samples) mod bytes_per_sample k = 0)
    by reflexivity.
  assert (H3 : Z.of_nat (length two_samples) / bytes_per_sample k
               <= 2 ^ RingBuffer.power (ring_buf k))
    by (vm_compute; discriminate).
  assert (H4 : (length two_samples <= length stale_buffer)%nat)
    by (vm_compute; lia).
  split; [exact Hwf|]. split; [reflexivity|]. split; [reflexivity|].
  split; [exact H1|]. split; [exact H2|]. split; [exact H3|].
  split; [exact H4|].
  destruct (transfer_then_callback_round_trip k two_samples stale_buffer
              Hwf eq_refl eq_refl H1 H2 H3 H4)
    as (k' & Hrun & Hpos & _).
  exists k'. split; [exact Hrun|exact Hpos].
Defined.


Lemma sink_stays_well_formed_witness :
  let k := demo_sink Audio.PLAYING true 100 two_samples in
  wf k /\
  leaves wf (SourceOut k) /\
  leaves wf (Callback stale_buffer 24 k) /\
  leaves wf (Transfer two_samples 8 16 k).
Proof.
  intros k.
  assert (Hwf : wf k) by demo_sink_wf.
  split; [exact Hwf|].
  destruct (sink_stays_well_formed k Hwf)
    as (_ & _ & Hout & _ & Hcb & Htr).
  split; [exact Hout|]. split; [exact (Hcb stale_buffer)|].
  apply Htr; [lia|vm_compute; discriminate|reflexivity].
Defined.

End SinkRuns.

Section DeviceRuns.
Import SdlAudioSinkDevices DemoDevices.

Lemma GetDevicesInfo_lists_named_ids_witness :
  @IsOutputDevice _ three_devices 1 = true /\
  @SDL_GetAudioDeviceName three_ids 1 = None /\
  (1 ∉ map fst (@GetDevicesInfo _ three_devices)) /\
  ((2, "headphones") ∈ @GetDevicesInfo _ three_devices).
Proof.
  destruct (@GetDevicesInfo_lists_named_ids _ three_devices)
    as (Hiff & _ & Hunnamed).
  split; [reflexivity|]. split; [reflexivity|].
  split; [exact (Hunnamed 1 eq_refl eq_refl)|].
  apply Hiff. split; reflexivity.
Defined.

End DeviceRuns.

(** ** The source *)

Section Conversions.
Import AudioSource.
Context {S : Type} `{Properties S}.

(** X16.  Microseconds to samples and back, for a positive rate and a
    position whose product with the rate stays below 2^64: the result
    is never later than the position asked for, and is behind it by
    less than one sample period and a microsecond. *)
Theorem micros_round_trip_rounds_down (s : S) (rate m : Z) :
  SampleRate s = Some rate ->
  0 < rate ->
  0 <= m ->
  m * rate < 2 ^ 64 ->
  exists n m',
    SamplesFromMicros s m = Some n /\
    MicrosFromSamples s n = Some m' /\
    0 <= m' <= m /\
    (m - m') * rate < 1000000 + rate /\
    (m * rate mod 1000000 = 0 -> m' = m).
Proof.
  intros Hrate Hpos Hm Hrange.
  set (n := m * rate / 1000000).
  assert (Hn : 0 <= n) by (apply Z.div_pos; nia).
  pose proof (Z.div_mod (m * rate) 1000000 ltac:(lia)) as Hdm.
  pose proof (Z.mod_pos_bound (m * rate) 1000000 ltac:(lia)) as Hq.
  fold n in Hdm.
  assert (Hnr : n * 1000000 <= m * rate) by lia.
  set (m' := n * 1000000 / rate).
  pose proof (Z.div_mod (n * 1000000) rate ltac:(lia)) as Hdm'.
  pose proof (Z.mod_pos_bound (n * 1000000) rate Hpos) as Hq'.
  fold m' in Hdm'.
  assert (Hm' : 0 <= m') by (apply Z.div_pos; lia).
  exists n, m'.
  split; [apply SamplesFromMicros_in_range; [exact Hrate|nia]|].
  split; [apply MicrosFromSamples_in_range; [exact Hrate|lia|lia|lia]|].
  split; [split; [exact Hm'|]; apply Z.div_le_upper_bound; lia|].
  split; [nia|].
  intros Hexact. unfold m'.
  replace (n * 1000000) with (m * rate) by lia.
  apply Z.div_mul. lia.
Qed.

(** X17.  Both conversions are monotone as long as the products stay
    below 2^64: a later position is never converted to an earlier
    one. *)
Theorem conversions_are_monotone (s : S) (rate a b : Z) :
  SampleRate s = Some rate ->
  0 < rate ->
  0 <= a <= b ->
  (b * rate < 2 ^ 64 ->
   exists na nb,
     SamplesFromMicros s a = Some na /\
     SamplesFromMicros s b = Some nb /\ na <= nb) /\
  (b * 1000000 < 2 ^ 64 ->
   exists ma mb,
     MicrosFromSamples s a = Some ma /\
     MicrosFromSamples s b = Some mb /\ ma <= mb).
Proof.
  intros Hrate Hpos Hab. split; intros Hrange.
  - exists (a * rate / 1000000), (b * rate / 1000000).
    split; [apply SamplesFromMicros_in_range; [exact Hrate|nia]|].
    split; [apply SamplesFromMicros_in_range; [exact Hrate|nia]|].
    apply Z.div_le_mono; nia.
  - exists (a * 1000000 / rate), (b * 1000000 / rate).
    split; [apply MicrosFromSamples_in_range; [exact Hrate|lia|lia|lia]|].
    split; [apply MicrosFromSamples_in_range; [exact Hrate|lia|lia|lia]|].
    apply Z.div_le_mono; lia.
Qed.

End Conversions.

Section SoXDecoding.
Import SoXAudioSource SoXRounds.
Context `{LibSoX}.

(** The samples the next round reads: as many as fit the buffer, from
    the offset on. *)
Lemma SoX_Decode_result (s : SoXAudioSource.t) (ctx : sox_format_t) :
  SoXAudioSource.wf s ->
  context s = Some ctx ->
  let c := u8 (signal_channels ctx) in
  let cap := BUFFER_SIZE / (4 * c) in
  let got := take (Z.to_nat (cap * c))
               (drop (Z.to_nat (offset ctx)) (stream ctx)) in
  let ctx' := mk_sox (filename ctx) (signal_rate ctx) (signal_channels ctx)
                (signal_length ctx) (seekable ctx) (stream ctx)
                (offset ctx + Z.of_nat (length got)) in
  let st := if Z.of_nat (length got) =? 0
            then AudioSource.END_OF_FILE else AudioSource.DECODING in
  0 < cap * c /\
  exists buf',
    SoXAudioSource.Decode s
    = Returns (st, samples_bytes got) (mk buf' (Some ctx') st) /\
    SoXAudioSource.wf (mk buf' (Some ctx') st).
Proof.
  destruct s as [buf c0 ds]. intros Hwf Hctx.
  unfold SoXAudioSource.wf in Hwf. cbn [context buffer] in Hwf, Hctx.
  subst c0.
  destruct Hwf as (Hc & Hbuf & Hoff & Hoffc & Hlenc).
  intros c cap got ctx' st.
  fold c in Hc, Hoffc, Hlenc.
  assert (Hc256 : c < 256) by (unfold c, u8; apply Z.mod_pos_bound; lia).
  unfold BUFFER_SIZE in Hbuf, cap.
  pose proof (Z.mul_div_le 16384 (4 * c) ltac:(lia)) as Hcap.
  fold cap in Hcap.
  assert (Hcap1 : 16 <= cap).
  { unfold cap. apply Z.div_le_lower_bound; lia. }
  split; [nia|].
  assert (Hread : Z.of_nat (length got) <= cap * c).
  { unfold got. rewrite length_take. nia. }
  assert (Hgotc : Z.of_nat (length got) mod c = 0).
  { unfold got. rewrite length_take, length_drop.
    destruct (Nat.le_gt_cases (Z.to_nat (cap * c))
                (length (stream ctx) - Z.to_nat (offset ctx))) as [Hle|Hgt].
    - rewrite Nat.min_l by exact Hle. rewrite Z2Nat.id by nia.
      apply Z.mod_mul. lia.
    - rewrite Nat.min_r by lia.
      destruct (Nat.le_gt_cases (Z.to_nat (offset ctx)) (length (stream ctx))).
      + rewrite Nat2Z.inj_sub by assumption. rewrite Z2Nat.id by lia.
        rewrite Zminus_mod, Hlenc, Hoffc. reflexivity.
      + replace (length (stream ctx) - Z.to_nat (offset ctx))%nat
          with 0%nat by lia.
        apply Z.mod_0_l. lia. }
  exists (samples_bytes got ++ drop (length (samples_bytes got)) buf)%list.
  split.
  - unfold SoXAudioSource.Decode, bind, get, defined, ret, modify.
    cbn [context buffer].
    destruct buf as [|b0 buf']; [simpl in Hbuf; lia|].
    cbn [head].
    unfold BufferSampleCapacity, SoXAudioSource.BytesPerSample,
      SoXAudioSource.ChannelCount.
    cbn [context buffer mbind option_bind]. fold c.
    destruct (Z.eqb_spec (4 * c) 0); [lia|].
    rewrite Hbuf. fold cap.
    rewrite (u64_small (cap * c)) by nia.
    unfold sox_read. fold got. fold ctx'. unfold st.
    destruct (Z.eqb_spec (Z.of_nat (length got)) 0) as [Hz|Hnz].
    + assert (Hnil : got = []) by (destruct got; [reflexivity|simpl in Hz; lia]).
      rewrite Hnil. reflexivity.
    + unfold with_decode_state, with_buffer, with_context.
      cbn [buffer context decode_state mbind option_bind signal_channels].
      change (u8 (signal_channels ctx')) with c.
      assert (Hsmall : 0 <= 4 * c * Z.of_nat (length got) <= 16384 * 256)
        by nia.
      rewrite u64_small by lia.
      replace (4 * c * Z.of_nat (length got) / c)
        with (4 * Z.of_nat (length got))
        by (symmetry; rewrite <- Z.mul_assoc, (Z.mul_comm c), Z.mul_assoc;
            apply Z.div_mul; lia).
      rewrite <- length_samples_bytes, Nat2Z.id.
      rewrite take_app_length. reflexivity.
  - unfold SoXAudioSource.wf.
    cbn [context buffer signal_channels offset stream ctx']. fold c.
    split; [exact Hc|]. split.
    + rewrite length_app, length_drop.
      pose proof (length_samples_bytes got). unfold BUFFER_SIZE. nia.
    + split; [lia|]. split; [|exact Hlenc].
      rewrite Zplus_mod, Hoffc, Hgotc. reflexivity.
Qed.

(** X18.  A round of [Decode] on an open file hands out the bytes of the
    next samples of the stream, no more than the buffer holds and some
    whenever any is left, and advances the decoder past them.  It
    reports the end of the file exactly when no sample is left, and then
    delivers nothing and does not move. *)
Theorem SoX_Decode_hands_out_next_samples
    (s : SoXAudioSource.t) (ctx : sox_format_t) :
  SoXAudioSource.wf s ->
  context s = Some ctx ->
  let rest := drop (Z.to_nat (offset ctx)) (stream ctx) in
  exists got st s' ctx',
    SoXAudioSource.Decode s = Returns (st, samples_bytes got) s' /\
    (exists later, rest = got ++ later)%list /\
    (got = [] <-> rest = []) /\
    (st = AudioSource.END_OF_FILE <-> rest = []) /\
    (st = AudioSource.DECODING <-> rest <> []) /\
    Z.of_nat (length (samples_bytes got)) <= BUFFER_SIZE /\
    decode_state s' = st /\
    context s' = Some ctx' /\
    stream ctx' = stream ctx /\
    offset ctx' = offset ctx + Z.of_nat (length got) /\
    SoXAudioSource.wf s'.
Proof.
  intros Hwf Hctx rest.
  destruct (SoX_Decode_result s ctx Hwf Hctx) as (Hcap & buf' & Hrun & Hwf').
  set (c := u8 (signal_channels ctx)) in *.
  set (cap := BUFFER_SIZE / (4 * c)) in *.
  fold rest in Hrun, Hwf'.
  set (got := take (Z.to_nat (cap * c)) rest) in *.
  assert (Hnil : got = [] <-> rest = []).
  { unfold got. split.
    - destruct rest as [|z rest']; [reflexivity|].
      destruct (Z.to_nat (cap * c)) eqn:Hk; [lia|discriminate].
    - intros ->. apply take_nil. }
  assert (Hzero : (Z.of_nat (length got) =? 0) = true <-> rest = []).
  { rewrite Z.eqb_eq, <- Hnil. destruct got; simpl; split;
      try reflexivity; try discriminate; lia. }
  eexists got, _, _, _. split; [exact Hrun|].
  split; [exists (drop (Z.to_nat (cap * c)) rest); unfold got;
          symmetry; apply take_drop|].
  split; [exact Hnil|].
  split.
  { rewrite <- Hzero. destruct (Z.of_nat (length got) =? 0);
      split; intros; try reflexivity; discriminate. }
  split.
  { rewrite <- Hzero. destruct (Z.of_nat (length got) =? 0);
      split; intros; try reflexivity; try discriminate; congruence. }
  split.
  { rewrite length_samples_bytes. unfold got. rewrite length_take.
    unfold SoXAudioSource.wf in Hwf. rewrite Hctx in Hwf. fold c in Hwf.
    pose proof (Z.mul_div_le BUFFER_SIZE (4 * c) ltac:(lia)) as Hle.
    fold cap in Hle. nia. }
  split; [reflexivity|]. split; [reflexivity|]. split; [reflexivity|].
  split; [reflexivity|exact Hwf'].
Qed.

Lemma samples_bytes_app (a b : list Z) :
  samples_bytes (a ++ b) = (samples_bytes a ++ samples_bytes b)%list.
Proof. unfold samples_bytes. rewrite map_app, concat_app. reflexivity. Qed.

Lemma decode_to_end_delivers (rounds : nat) :
  forall (s : SoXAudioSource.t) (ctx : sox_format_t),
    SoXAudioSource.wf s ->
    context s = Some ctx ->
    (length (drop (Z.to_nat (offset ctx)) (stream ctx)) < rounds)%nat ->
    exists s' ctx',
      decode_to_end rounds s
      = Some (samples_bytes (drop (Z.to_nat (offset ctx)) (stream ctx)), s') /\
      decode_state s' = AudioSource.END_OF_FILE /\
      context s' = Some ctx' /\
      stream ctx' = stream ctx /\
      (length (stream ctx') <= Z.to_nat (offset ctx'))%nat /\
      SoXAudioSource.wf s'.
Proof.
  induction rounds as [|rounds IH]; intros s ctx Hwf Hctx Hfuel; [lia|].
  destruct (SoX_Decode_result s ctx Hwf Hctx) as (Hcap & buf' & Hrun & Hwf').
  assert (Hoff : 0 <= offset ctx).
  { unfold SoXAudioSource.wf in Hwf. rewrite Hctx in Hwf. tauto. }
  set (rest := drop (Z.to_nat (offset ctx)) (stream ctx)) in *.
  set (k := Z.to_nat (_ * _)) in *.
  assert (Hk : (0 < k)%nat) by (unfold k; lia).
  set (got := take k rest) in *.
  cbn [decode_to_end]. rewrite Hrun.
  destruct (Z.eqb_spec (Z.of_nat (length got)) 0) as [Hz|Hnz].
  - assert (Hrest : rest = []).
    { destruct rest as [|z rest']; [reflexivity|].
      unfold got in Hz. destruct k; [lia|]. simpl in Hz. lia. }
    assert (Hgot : got = []) by (unfold got; rewrite Hrest; apply take_nil).
    rewrite Hrest, Hgot in *. eexists _, _.
    split; [reflexivity|]. split; [reflexivity|]. split; [reflexivity|].
    split; [reflexivity|]. split; [|exact Hwf'].
    cbn [stream offset length]. rewrite Z.add_0_r.
    unfold rest in Hrest. apply (f_equal length) in Hrest.
    rewrite length_drop in Hrest. simpl in Hrest. lia.
  - set (ctx1 := mk_sox _ _ _ _ _ _ _) in *.
    assert (Hrest1 : drop (Z.to_nat (offset ctx1)) (stream ctx1)
                     = drop k rest).
    { unfold ctx1. cbn [offset stream].
      rewrite Z2Nat.inj_add, Nat2Z.id by lia.
      rewrite <- drop_drop. fold rest.
      unfold got. rewrite length_take.
      destruct (Nat.le_gt_cases k (length rest)) as [Hle|Hgt].
      - rewrite Nat.min_l by exact Hle. reflexivity.
      - rewrite Nat.min_r by lia.
        rewrite (drop_ge rest (length rest)) by lia.
        rewrite (drop_ge rest k) by lia. reflexivity. }
    destruct (IH (mk buf' (Some ctx1) AudioSource.DECODING) ctx1 Hwf' eq_refl)
      as (s' & ctx' & Hgo & Hst & Hctx' & Hstream & Hend & Hwf'').
    { rewrite Hrest1, length_drop.
      assert (Hsome : length rest <> 0%nat).
      { intros Hnone. apply Hnz. unfold got. rewrite length_take. lia. }
      lia. }
    rewrite Hgo, Hrest1. exists s', ctx'.
    split.
    { rewrite <- samples_bytes_app. unfold got. rewrite take_drop.
      reflexivity. }
    split; [exact Hst|]. split; [exact Hctx'|].
    split; [exact Hstream|]. split; [exact Hend|exact Hwf''].
Qed.

(** X19.  Decoding round after round delivers the file from the
    decoder's offset to its end, every sample once and in order, within
    one round per sample left and one more; the last round reports the
    end of the file and leaves the decoder at the end of the stream. *)
Theorem SoX_decodes_whole_file (s : SoXAudioSource.t) (ctx : sox_format_t) :
  SoXAudioSource.wf s ->
  context s = Some ctx ->
  let rest := drop (Z.to_nat (offset ctx)) (stream ctx) in
  exists s' ctx',
    decode_to_end (Datatypes.S (length rest)) s
    = Some (samples_bytes rest, s') /\
    decode_state s' = AudioSource.END_OF_FILE /\
    context s' = Some ctx' /\
    stream ctx' = stream ctx /\
    (length (stream ctx') <= Z.to_nat (offset ctx'))%nat /\
    SoXAudioSource.wf s'.
Proof.
  intros Hwf Hctx rest.
  apply (decode_to_end_delivers _ s ctx Hwf Hctx). unfold rest. lia.
Qed.

End SoXDecoding.

Section SoXSeeking.
Import SoXAudioSource.
Context `{LibSoX}.

(** X20.  [Seek] on an open file whose rate fits 32 bits.  While the
    source is not at the end of the file, a seek past the length of the
    file or on a file that cannot seek throws [SeekError] and leaves the
    source exactly as it was; any other seek moves the decoder and sets
    the state to decoding.  At the end of the file the source reopens
    the file first: if that fails, [FileError] is thrown and the source
    is left without a file; if it succeeds, the target is still
    computed from the rate and channels of the file as it was open
    before, and a [SeekError] leaves the reopened file at the state
    [END_OF_FILE]. *)
Theorem SoX_Seek_outcome
    (s : SoXAudioSource.t) (ctx : sox_format_t) (position : Z) :
  context s = Some ctx ->
  0 <= signal_rate ctx < 2 ^ 32 ->
  let samples := u64 (position * signal_rate ctx) / 1000000 in
  let sox_samples := u64 (samples * u8 (signal_channels ctx)) in
  let seek_in (c : sox_format_t) :=
    if (signal_length c <? sox_samples) || negb (seekable c)
    then Throws (SeekError MSG_SEEK_FAIL)
           (mk (buffer s) (Some c) (decode_state s))
    else Returns samples
           (mk (buffer s)
              (Some (mk_sox (filename c) (signal_rate c) (signal_channels c)
                       (signal_length c) true (stream c) sox_samples))
              AudioSource.DECODING) in
  (decode_state s <> AudioSource.END_OF_FILE ->
     SoXAudioSource.Seek position s = seek_in ctx /\
     (forall e s', SoXAudioSource.Seek position s = Throws e s' -> s' = s)) /\
  (decode_state s = AudioSource.END_OF_FILE ->
     SoXAudioSource.Seek position s =
       match sox_open_read (filename ctx) with
       | None =>
           Throws (FileError (MSG_TEXT ("couldn't open " +:+ filename ctx)))
             (mk (buffer s) None AudioSource.END_OF_FILE)
       | Some reopened => seek_in reopened
       end).
Proof.
  intros Hctx Hrate samples sox_samples seek_in.
  destruct s as [buf c0 ds]. cbn [context] in Hctx. subst c0.
  assert (Hsr : SampleRate (mk buf (Some ctx) ds) = Some (signal_rate ctx)).
  { unfold SampleRate. cbn [context mbind option_bind].
    destruct (Z.leb_spec 0 (signal_rate ctx)); [|lia].
    destruct (Z.ltb_spec (signal_rate ctx) (2 ^ 32)); [|lia].
    reflexivity. }
  assert (Hsfm : AudioSource.SamplesFromMicros (mk buf (Some ctx) ds) position
                 = Some samples).
  { unfold AudioSource.SamplesFromMicros.
    cbn [AudioSource.SampleRate SoX_properties]. rewrite Hsr. reflexivity. }
  assert (Hin : forall c d,
    (s1 <- get ;;
     ctx1 <- defined (context s1) ;;
     if signal_length ctx1 <? sox_samples then throw (SeekError MSG_SEEK_FAIL)
     else
       let '(success, ctx') := sox_seek ctx1 sox_samples in
       modify (with_context (Some ctx')) ;;
       if negb success then throw (SeekError MSG_SEEK_FAIL)
       else
         modify (with_decode_state AudioSource.DECODING) ;;
         ret samples) (mk buf (Some c) d)
    = if (signal_length c <? sox_samples) || negb (seekable c)
      then Throws (SeekError MSG_SEEK_FAIL) (mk buf (Some c) d)
      else Returns samples
             (mk buf
                (Some (mk_sox (filename c) (signal_rate c) (signal_channels c)
                         (signal_length c) true (stream c) sox_samples))
                AudioSource.DECODING)).
  { intros c d. unfold bind, get, defined, ret, throw, modify, sox_seek.
    cbn [context].
    destruct (signal_length c <? sox_samples); [reflexivity|].
    destruct (seekable c); reflexivity. }
  split.
  - intros Hds. cbn [decode_state] in Hds.
    assert (Hrun : SoXAudioSource.Seek position (mk buf (Some ctx) ds)
                   = seek_in ctx).
    { unfold SoXAudioSource.Seek.
      rewrite bind_get. cbn [context defined].
      unfold bind at 1. unfold ret at 1.
      rewrite Hsfm. cbn [defined].
      unfold bind at 1. unfold ret at 1.
      unfold ChannelCount. cbn [context mbind option_bind defined].
      unfold bind at 1. unfold ret at 1.
      cbn [decode_state].
      replace (AudioSource.DecodeState_eqb ds AudioSource.END_OF_FILE)
        with false by (destruct ds; try reflexivity; congruence).
      unfold bind at 1. unfold ret at 1.
      fold samples. fold sox_samples.
      rewrite (Hin ctx ds). reflexivity. }
    split; [exact Hrun|].
    intros e s' Hthrows. rewrite Hrun in Hthrows. unfold seek_in in Hthrows.
    cbn [buffer decode_state] in Hthrows.
    destruct ((signal_length ctx <? sox_samples) || negb (seekable ctx));
      [|discriminate].
    injection Hthrows as _ <-. reflexivity.
  - cbn [decode_state]. intros ->.
    unfold SoXAudioSource.Seek.
    rewrite bind_get. cbn [context defined].
    unfold bind at 1. unfold ret at 1.
    rewrite Hsfm. cbn [defined].
    unfold bind at 1. unfold ret at 1.
    unfold ChannelCount. cbn [context mbind option_bind defined].
    unfold bind at 1. unfold ret at 1.
    cbn [decode_state AudioSource.DecodeState_eqb].
    fold samples. fold sox_samples.
    unfold Path. cbn [context mbind option_bind defined].
    unfold seek_in. cbn [buffer decode_state].
    destruct (sox_open_read (filename ctx)) as [reopened|] eqn:Hopen.
    + rewrite <- (Hin reopened AudioSource.END_OF_FILE).
      unfold bind at 1.
      unfold bind at 1. unfold ret at 1.
      unfold Open, Close, bind, modify, get, ret, with_context.
      cbn [buffer decode_state context]. rewrite Hopen. reflexivity.
    + unfold bind at 1.
      unfold bind at 1. unfold ret at 1.
      unfold Open, Close, bind, modify, get, ret, throw, with_context.
      cbn [buffer decode_state context]. rewrite Hopen. reflexivity.
Qed.

End SoXSeeking.

Section SourceRuns.
Import SoXAudioSource SoXRounds DemoHost.

Lemma demo_source_wf : SoXAudioSource.wf demo_source.
Proof. vm_compute. repeat split; congruence. Qed.

Lemma micros_round_trip_rounds_down_witness :
  AudioSource.SampleRate demo_source = Some 44100 /\
  0 < 44100 /\ 0 <= 50000 /\ 50000 * 44100 < 2 ^ 64 /\
  exists n m',
    AudioSource.SamplesFromMicros demo_source 50000 = Some n /\
    AudioSource.MicrosFromSamples demo_source n = Some m' /\
    0 <= m' <= 50000 /\
    (50000 - m') * 44100 < 1000000 + 44100 /\
    (50000 * 44100 mod 1000000 = 0 -> m' = 50000).
Proof.
  split; [reflexivity|]. split; [lia|]. split; [lia|]. split; [lia|].
  apply (micros_round_trip_rounds_down demo_source 44100 50000);
    [reflexivity | lia | lia | lia].
Defined.

Lemma conversions_are_monotone_witness :
  AudioSource.SampleRate demo_source = Some 44100 /\
  0 < 44100 /\ 0 <= 22 <= 23 /\ 23 * 44100 < 2 ^ 64 /\
  exists na nb,
    AudioSource.SamplesFromMicros demo_source 22 = Some na /\
    AudioSource.SamplesFromMicros demo_source 23 = Some nb /\ na <= nb.
Proof.
  assert (H1 : 0 < 44100) by lia.
  assert (H2 : 0 <= 22 <= 23) by lia.
  assert (H3 : 23 * 44100 < 2 ^ 64) by lia.
  split; [reflexivity|]. split; [exact H1|]. split; [exact H2|].
  split; [exact H3|].
  exact (proj1 (conversions_are_monotone demo_source 44100 22 23
                  eq_refl H1 H2) H3).
Defined.

Lemma SoX_Decode_hands_out_next_samples_witness :
  SoXAudioSource.wf demo_source /\
  context demo_source = Some silence /\
  exists got st s' ctx',
    SoXAudioSource.Decode demo_source = Returns (st, samples_bytes got) s' /\
    (st = AudioSource.DECODING <-> stream silence <> []) /\
    context s' = Some ctx' /\
    offset ctx' = 0 + Z.of_nat (length got).
Proof.
  split; [exact demo_source_wf|]. split; [reflexivity|].
  destruct (SoX_Decode_hands_out_next_samples demo_source silence
              demo_source_wf eq_refl)
    as (got & st & s' & ctx' & Hrun & _ & _ & _ & Hdec & _ & _ & Hctx & _
        & Hoff & _).
  exists got, st, s', ctx'.
  split; [exact Hrun|]. split; [exact Hdec|]. split; [exact Hctx|exact Hoff].
Defined.

Lemma SoX_decodes_whole_file_witness :
  SoXAudioSource.wf demo_source /\
  context demo_source = Some silence /\
  exists s',
    decode_to_end (Datatypes.S (length (stream silence))) demo_source
    = Some (samples_bytes (stream silence), s') /\
    decode_state s' = AudioSource.END_OF_FILE.
Proof.
  split; [exact demo_source_wf|]. split; [reflexivity|].
  destruct (SoX_decodes_whole_file demo_source silence demo_source_wf eq_refl)
    as (s' & ctx' & Hrun & Hst & _).
  exists s'. split; [exact Hrun|exact Hst].
Defined.

Lemma SoX_Seek_outcome_witness :
  context demo_source = Some silence /\
  0 <= signal_rate silence < 2 ^ 32 /\
  decode_state demo_source <> AudioSource.END_OF_FILE /\
  (exists s', SoXAudioSource.Seek 50000 demo_source = Returns 2205 s') /\
  SoXAudioSource.Seek 200000 demo_source
  = Throws (SeekError MSG_SEEK_FAIL) demo_source.
Proof.
  assert (H1 : 0 <= signal_rate silence < 2 ^ 32) by (cbn; lia).
  assert (H2 : decode_state demo_source <> AudioSource.END_OF_FILE)
    by discriminate.
  split; [reflexivity|]. split; [exact H1|]. split; [exact H2|].
  split.
  - eexists.
    exact (proj1 (proj1 (SoX_Seek_outcome demo_source silence 50000
                           eq_refl H1) H2)).
  - exact (proj1 (proj1 (SoX_Seek_outcome demo_source silence 200000
                           eq_refl H1) H2)).
Defined.

End SourceRuns.

(** ** The pipe *)

Section PipeBytes.
Import AudioSource PipeQueue.
Context {S : Type} `{Interface S}.



End PipeBytes.

Section PipeSeeking.
Import AudioSource PipeQueue.
Context {S : Type} `{Interface S}.

Lemma SetPosition_result (samples : Z) (k : SdlAudioSink.t) :
  exists k',
    SdlAudioSink.SetPosition samples k = Returns tt k' /\
    RingBuffer.pending (SdlAudioSink.ring_buf k') = [] /\
    SdlAudioSink.state k' <> Audio.AT_END /\
    SdlAudioSink.source_out k' = false /\
    SdlAudioSink.position_sample_count k' = samples.
Proof.
  destruct k as [bps rb pos out st dev pa].
  destruct st; (eexists; split; [reflexivity|]); cbn;
    (split; [reflexivity|]); (split; [discriminate|]);
    split; reflexivity.
Qed.

(** X22.  A seek that returns starts the pipe afresh: no byte decoded
    before it is left in the frame or in the ring, the sink is at the
    position the source reported and is not at the end of the file, and
    the first TIME broadcast after it is sent to every listener,
    whatever second was on record for the listener before. *)
Theorem Seek_starts_afresh (position : Z) (p p' : PipeAudio.t S) :
  PipeAudio.Seek position p = Returns tt p' ->
  queued p' = [] /\
  SdlAudioSink.State (PipeAudio.sink p') <> Audio.AT_END /\
  SdlAudioSink.source_out (PipeAudio.sink p') = false /\
  (exists in_samples src',
     SamplesFromMicros (PipeAudio.src p) position = Some in_samples /\
     Seek in_samples (PipeAudio.src p)
     = Returns (SdlAudioSink.Position (PipeAudio.sink p')) src' /\
     PipeAudio.src p' = src') /\
  (forall rs micros,
     PipeAudio.Position p' = Some micros ->
     PipeAudio.Emit Response.TIME (Some rs) 0 p'
     = Returns
         (Some (mkRespond rs 0 (Response.mk Response.TIME [to_string micros])))
         (PipeAudio.with_last_times
            {[ rs := PipeAudio.whole_second micros ]} p')).
Proof.
  unfold PipeAudio.Seek. rewrite bind_get.
  destruct (SamplesFromMicros (PipeAudio.src p) position) as [in_samples|];
    [|discriminate].
  cbn [defined]. unfold bind at 1, ret at 1.
  unfold bind at 1, PipeAudio.on_src at 1, zoom at 1.
  destruct (Seek in_samples (PipeAudio.src p)) as [out_samples s'|e s'|]
    eqn:Hseek; [|discriminate|discriminate].
  unfold bind at 1, PipeAudio.on_sink at 1, zoom at 1.
  cbn [PipeAudio.sink PipeAudio.with_src].
  destruct (SetPosition_result out_samples (PipeAudio.sink p))
    as (k' & Hk' & Hpend & Hst & Hout & Hpos).
  rewrite Hk'.
  unfold bind, modify, PipeAudio.ClearFrame, bind, modify, get.
  intros Hrun. inversion Hrun as [Hp']. clear Hrun Hp'.
  destruct p as [s k v it lt].
  unfold PipeAudio.with_sink, PipeAudio.with_last_times, PipeAudio.with_frame,
    PipeAudio.with_frame_iterator, PipeAudio.with_src, PipeAudio.frame_end.
  cbn [PipeAudio.frame PipeAudio.src PipeAudio.sink PipeAudio.frame_iterator
       PipeAudio.last_times length Z.of_nat] in *.
  split; [unfold queued; cbn [PipeAudio.sink PipeAudio.frame
                              PipeAudio.frame_iterator];
          rewrite Hpend; reflexivity|].
  split; [exact Hst|]. split; [exact Hout|].
  split.
  { exists in_samples, s'. split; [reflexivity|].
    split; [|reflexivity].
    unfold SdlAudioSink.Position. rewrite Hpos. exact Hseek. }
  intros rs micros Hmicros.
  rewrite (Emit_TIME _ rs 0 micros Hmicros ltac:(lia)).
  cbn [PipeAudio.last_times Z.ltb Z.compare].
  rewrite lookup_empty. reflexivity.
Qed.

End PipeSeeking.

Section PipeEnding.
Import AudioSource.
Context {S : Type} `{Interface S}.

(** X23.  How playback ends.  Once the decoder reports the end of the
    file, a tick tells the sink that the source is out and still
    reports the sink as playing; the first callback that then finds the
    ring empty delivers silence and moves the sink to the end, leaving
    the position where it was; and the next tick reports the end. *)
Theorem playback_reaches_the_end
    (s s' s'' : S) (k : SdlAudioSink.t) (lt : gmap ResponseSink Z)
    (out : list byte) :
  SdlAudioSink.state k = Audio.PLAYING ->
  RingBuffer.pending (SdlAudioSink.ring_buf k) = [] ->
  Decode s = Returns (END_OF_FILE, []) s' ->
  Decode s' = Returns (END_OF_FILE, []) s'' ->
  let k1 := SdlAudioSink.with_source_out true k in
  let k2 := SdlAudioSink.with_state Audio.AT_END k1 in
  PipeAudio.Update (PipeAudio.mk s k [] 0 lt)
  = Returns Audio.PLAYING (PipeAudio.mk s' k1 [] 0 lt) /\
  SdlAudioSink.Callback out (Z.of_nat (length out)) k1
  = Returns (replicate (length out) zero_byte) k2 /\
  SdlAudioSink.Position k2 = SdlAudioSink.Position k /\
  PipeAudio.Update (PipeAudio.mk s' k2 [] 0 lt)
  = Returns Audio.AT_END (PipeAudio.mk s'' k2 [] 0 lt).
Proof.
  intros Hst Hpend HD HD' k1 k2. subst k1 k2.
  destruct k as [b rb pos so st dev pa]. destruct rb as [pw rbps pend].
  cbn [SdlAudioSink.state SdlAudioSink.ring_buf RingBuffer.pending] in *.
  subst st pend.
  assert (Hdecode : forall a a' k0,
    Decode a = Returns (END_OF_FILE, []) a' ->
    PipeAudio.DecodeIfFrameEmpty (PipeAudio.mk a k0 [] 0 lt)
    = Returns false (PipeAudio.mk a' k0 [] 0 lt)).
  { intros a a' k0 Ha.
    unfold PipeAudio.DecodeIfFrameEmpty, PipeAudio.on_src, zoom, bind, get,
      assert, ret, modify. simpl. rewrite Ha. reflexivity. }
  split.
  { unfold PipeAudio.Update.
    rewrite (bind_Returns _ _ _ _ _ (Hdecode _ _ _ HD)). cbn [negb].
    unfold PipeAudio.on_sink, zoom, bind, get, assert, ret, modify,
      SdlAudioSink.SourceOut.
    simpl. destruct so; reflexivity. }
  split.
  { assert (Hmemset : SdlAudioSink.memset_zero out (Z.of_nat (length out))
                      = Some (replicate (length out) zero_byte)).
    { unfold SdlAudioSink.memset_zero. rewrite Nat2Z.id.
      destruct (Z.leb_spec 0 (Z.of_nat (length out))); [|lia].
      rewrite Z.leb_refl. simpl.
      rewrite drop_all, app_nil_r. reflexivity. }
    assert (Hnn : (0 <=? Z.of_nat (length out)) = true)
      by (apply Z.leb_le; lia).
    unfold SdlAudioSink.Callback, bind, assert, defined, get, ret, modify.
    rewrite Hnn, Hmemset.
    cbn [SdlAudioSink.with_source_out SdlAudioSink.state SdlAudioSink.ring_buf
         SdlAudioSink.source_out SdlAudioSink.bytes_per_sample
         SdlAudioSink.position_sample_count SdlAudioSink.device
         SdlAudioSink.paused Audio.State_eqb negb].
    unfold RingBuffer.ReadCapacity.
    cbn [RingBuffer.pending length Z.of_nat RingBuffer.bytes_per_sample].
    rewrite Zdiv_0_l. reflexivity. }
  split; [reflexivity|].
  unfold PipeAudio.Update.
  rewrite (bind_Returns _ _ _ _ _ (Hdecode _ _ _ HD')). cbn [negb].
  unfold PipeAudio.on_sink, zoom, bind, get, assert, ret, modify,
    SdlAudioSink.SourceOut.
  reflexivity.
Qed.

End PipeEnding.

Section PipeEmitting.
Import AudioSource.
Context {S : Type} `{Interface S}.

(** X24.  What [Emit] never does.  It never throws and never touches
    the source, the sink or the frame; it changes the pipe only on a
    TIME request with id 0 that it answers.  It answers nothing to a
    null sink or to a code other than STATE, FILE and TIME, and an
    answer goes to the sink and id of the request under the code of the
    request, with one argument.  It is undefined only when the source
    has no path, or the pipe no position, to report. *)
Theorem Emit_only_touches_the_time_record
    (code : Response.Code) (rs : option ResponseSink) (id : Z)
    (p : PipeAudio.t S) :
  match PipeAudio.Emit code rs id p with
  | Returns r p' =>
      PipeAudio.src p' = PipeAudio.src p /\
      PipeAudio.sink p' = PipeAudio.sink p /\
      PipeAudio.frame p' = PipeAudio.frame p /\
      PipeAudio.frame_iterator p' = PipeAudio.frame_iterator p /\
      (code <> Response.TIME \/ 0 < id \/ r = None -> p' = p) /\
      match r with
      | None => True
      | Some response =>
          rs = Some (to_sink response) /\
          to_id response = id /\
          Response.code (sent response) = code /\
          length (Response.args (sent response)) = 1%nat /\
          (code = Response.STATE \/ code = Response.FILE \/
           code = Response.TIME)
      end
  | Throws _ _ => False
  | Undefined =>
      rs <> None /\
      ((code = Response.FILE /\ Path (PipeAudio.src p) = None) \/
       (code = Response.TIME /\ PipeAudio.Position p = None))
  end.
Proof.
  destruct p as [s k v it lt].
  destruct rs as [rs|]; [|cbn; repeat split; auto].
  destruct code; cbn [PipeAudio.Emit];
    try (cbn; repeat split; auto; fail).
  - (* TIME *)
    unfold bind at 1. unfold get at 1.
    destruct (PipeAudio.Position (PipeAudio.mk s k v it lt)) as [micros|]
      eqn:Hpos; cbn [defined].
    2:{ unfold bind, undefined. split; [discriminate|]. right.
        split; reflexivity. }
    unfold bind at 1. unfold ret at 1.
    destruct (Z.ltb_spec 0 id) as [Hid|Hid].
    + unfold bind, ret. cbn. repeat split; auto.
    + unfold PipeAudio.CanAnnounceTime, bind, get, ret, modify.
      cbn [PipeAudio.last_times].
      destruct (lt !! rs) as [last|]; [destruct (last <? micros / 1000 / 1000)|];
        cbn; repeat split; auto;
        intros [Hc|[Hc|Hc]]; solve [congruence | lia | discriminate].
  - (* FILE *)
    unfold bind at 1. unfold get at 1. cbn [PipeAudio.src].
    destruct (Path s) as [path|] eqn:Hpath; cbn [defined].
    + unfold bind, ret. cbn. repeat split; auto.
    + unfold bind, undefined. split; [discriminate|]. left.
      split; reflexivity.
Qed.

End PipeEmitting.

Section PipeFurtherRuns.
Import SoXAudioSource DemoHost DemoEnd PipeQueue.


Lemma Seek_starts_afresh_witness :
  exists p',
    PipeAudio.Seek 50000 demo_pipe = Returns tt p' /\
    queued p' = [] /\
    SdlAudioSink.State (PipeAudio.sink p') <> Audio.AT_END.
Proof.
  destruct (Seek_converts_twice demo_pipe silence 50000)
    as (p' & Hrun & _).
  - reflexivity.
  - discriminate.
  - vm_compute. split; reflexivity.
  - reflexivity.
  - vm_compute. discriminate.
  - exists p'. split; [exact Hrun|].
    destruct (Seek_starts_afresh 50000 demo_pipe p' Hrun)
      as (Hq & Hst & _).
    split; [exact Hq|exact Hst].
Defined.

Lemma playback_reaches_the_end_witness :
  let k := demo_sink Audio.PLAYING false 4410 [] in
  SdlAudioSink.state k = Audio.PLAYING /\
  RingBuffer.pending (SdlAudioSink.ring_buf k) = [] /\
  AudioSource.Decode (ended_source AudioSource.DECODING)
  = Returns (AudioSource.END_OF_FILE, [])
      (ended_source AudioSource.END_OF_FILE) /\
  AudioSource.Decode (ended_source AudioSource.END_OF_FILE)
  = Returns (AudioSource.END_OF_FILE, [])
      (ended_source AudioSource.END_OF_FILE) /\
  PipeAudio.Update
    (PipeAudio.mk (ended_source AudioSource.END_OF_FILE)
       (SdlAudioSink.with_state Audio.AT_END
          (SdlAudioSink.with_source_out true k)) [] 0 ∅)
  = Returns Audio.AT_END
      (PipeAudio.mk (ended_source AudioSource.END_OF_FILE)
         (SdlAudioSink.with_state Audio.AT_END
            (SdlAudioSink.with_source_out true k)) [] 0 ∅).
Proof.
  intros k.
  assert (H3 : AudioSource.Decode (ended_source AudioSource.DECODING)
               = Returns (AudioSource.END_OF_FILE, [])
                   (ended_source AudioSource.END_OF_FILE))
    by (vm_compute; reflexivity).
  assert (H4 : AudioSource.Decode (ended_source AudioSource.END_OF_FILE)
               = Returns (AudioSource.END_OF_FILE, [])
                   (ended_source AudioSource.END_OF_FILE))
    by (vm_compute; reflexivity).
  split; [reflexivity|]. split; [reflexivity|].
  split; [exact H3|]. split; [exact H4|].
  destruct (playback_reaches_the_end
              (ended_source AudioSource.DECODING)
              (ended_source AudioSource.END_OF_FILE)
              (ended_source AudioSource.END_OF_FILE)
              k ∅ stale_buffer eq_refl eq_refl H3 H4)
    as (_ & _ & _ & Hlast).
  exact Hlast.
Defined.

Lemma Emit_only_touches_the_time_record_witness :
  match PipeAudio.Emit Response.TIME (Some 1%positive) 1 demo_pipe with
  | Returns _ p' => p' = demo_pipe
  | _ => False
  end.
Proof.
  pose proof (Emit_only_touches_the_time_record
                Response.TIME (Some 1%positive) 1 demo_pipe) as Hemit.
  destruct (PipeAudio.Emit Response.TIME (Some 1%positive) 1 demo_pipe)
    as [r p'|e p'|].
  - destruct Hemit as (_ & _ & _ & _ & Hsame & _).
    apply Hsame. right. left. lia.
  - exact Hemit.
  - destruct Hemit as [_ [[Hcode _]|[_ Hpos]]]; [discriminate Hcode|].
    vm_compute in Hpos. discriminate Hpos.
Defined.

End PipeFurtherRuns.

(** ** The time parser *)

Section TimeParsing.
Import TimeParser.

Lemma pretty_N_go_append (x : N) :
  forall s t, pretty_N_go x s +:+ t = pretty_N_go x (s +:+ t).
Proof.
  induction (N.lt_wf_0 x) as [x _ IH]. intros s t.
  destruct (N.eq_0_gt_0_cases x) as [->|Hpos].
  - rewrite !pretty_N_go_0. reflexivity.
  - rewrite (pretty_N_go_step x s), (pretty_N_go_step x (s +:+ t))
      by exact Hpos.
    rewrite IH by (apply N.div_lt; lia). reflexivity.
Qed.

Lemma isdigit_pretty_N_char (d : N) :
  (d < 10)%N ->
  isdigit (pretty_N_char d) = true /\
  Z.of_nat (nat_of_ascii (pretty_N_char d)) - 48 = Z.of_N d.
Proof.
  intros Hd.
  assert (Hcases : (d = 0 \/ d = 1 \/ d = 2 \/ d = 3 \/ d = 4 \/ d = 5 \/
                    d = 6 \/ d = 7 \/ d = 8 \/ d = 9)%N) by lia.
  repeat (destruct Hcases as [->|Hcases]; [split; reflexivity|]).
  subst d. split; reflexivity.
Qed.

Lemma read_digits_pretty_N_go (x : N) :
  (0 < x)%N ->
  forall s b,
    read_digits (pretty_N_go x s) 0 b = read_digits s (Z.of_N x) true.
Proof.
  induction (N.lt_wf_0 x) as [x _ IH]. intros Hpos s b.
  rewrite pretty_N_go_step by exact Hpos.
  destruct (isdigit_pretty_N_char (x mod 10)%N) as [Hdigit Hvalue];
    [apply N.mod_lt; lia|].
  assert (Hx : Z.of_N x = Z.of_N (x / 10) * 10 + Z.of_N (x mod 10)).
  { rewrite (N.div_mod x 10) at 1 by lia. lia. }
  destruct (N.eq_0_gt_0_cases (x / 10)%N) as [Hzero|Hmore].
  - rewrite Hzero, pretty_N_go_0. cbn [read_digits].
    rewrite Hdigit, Hvalue, Hx, Hzero. reflexivity.
  - rewrite IH by (try apply N.div_lt; lia).
    cbn [read_digits]. rewrite Hdigit, Hvalue, Hx. reflexivity.
Qed.

Lemma pretty_N_go_head (x : N) :
  (0 < x)%N ->
  forall s, exists c s', pretty_N_go x s = String c s' /\ isdigit c = true.
Proof.
  induction (N.lt_wf_0 x) as [x _ IH]. intros Hpos s.
  rewrite pretty_N_go_step by exact Hpos.
  destruct (N.eq_0_gt_0_cases (x / 10)%N) as [Hzero|Hmore].
  - rewrite Hzero, pretty_N_go_0. eexists _, _. split; [reflexivity|].
    apply isdigit_pretty_N_char, N.mod_lt. lia.
  - apply IH; [apply N.div_lt; lia|exact Hmore].
Qed.

Lemma read_digits_stops (s : string) (acc : Z) (seen : bool) :
  no_digit_ahead s -> read_digits s acc seen = (acc, seen, s).
Proof.
  destruct s as [|c s']; [reflexivity|].
  cbn [no_digit_ahead read_digits]. intros ->. reflexivity.
Qed.

Lemma read_digits_to_string (n : Z) (rest : string) :
  0 <= n ->
  no_digit_ahead rest ->
  read_digits (to_string n +:+ rest) 0 false = (n, true, rest).
Proof.
  intros Hn Hrest. unfold to_string, pretty, pretty_N.
  destruct (decide (Z.to_N n = 0%N)) as [Hzero|Hpos].
  - assert (n = 0) by lia. subst n.
    change ("0" +:+ rest) with (String "0" rest).
    cbn [read_digits]. change (isdigit "0") with true. cbv iota.
    apply read_digits_stops. exact Hrest.
  - rewrite pretty_N_go_append.
    change (EmptyString +:+ rest) with rest.
    rewrite read_digits_pretty_N_go by lia.
    rewrite Z2N.id by lia. apply read_digits_stops. exact Hrest.
Qed.

Lemma to_string_head (n : Z) (rest : string) :
  exists c s', to_string n +:+ rest = String c s' /\ isdigit c = true.
Proof.
  unfold to_string, pretty, pretty_N.
  destruct (decide (Z.to_N n = 0%N)) as [Hzero|Hpos].
  - exists "0"%char, rest. split; reflexivity.
  - rewrite pretty_N_go_append. apply pretty_N_go_head. lia.
Qed.

Lemma digit_is_no_space_or_sign (c : ascii) :
  isdigit c = true ->
  isspace c = false /\ Ascii.eqb c "-" = false /\ Ascii.eqb c "+" = false.
Proof.
  intros Hdigit. split; [|split].
  - unfold isdigit, isspace in *. lia.
  - destruct (Ascii.eqb_spec c "-") as [->|_]; [discriminate|reflexivity].
  - destruct (Ascii.eqb_spec c "+") as [->|_]; [discriminate|reflexivity].
Qed.

Lemma extract_unsigned_to_string (n : Z) (rest : string) :
  0 <= n ->
  no_digit_ahead rest ->
  extract_unsigned (to_string n +:+ rest)
  = if 2 ^ 64 <=? n then None else Some (n, rest).
Proof.
  intros Hn Hrest.
  destruct (to_string_head n rest) as (c & s' & Hhead & Hdigit).
  destruct (digit_is_no_space_or_sign c Hdigit) as (Hspace & Hminus & Hplus).
  pose proof (read_digits_to_string n rest Hn Hrest) as Hread.
  unfold extract_unsigned. rewrite Hhead in Hread |- *.
  cbn [skipws]. rewrite Hspace, Hminus, Hplus, Hread. reflexivity.
Qed.

Lemma extract_word_of_word (word : string) :
  no_space_in word -> extract_word word = word.
Proof.
  unfold extract_word, no_space_in. intros Hword.
  assert (Hskip : skipws word = word).
  { destruct word as [|c w]; [reflexivity|].
    cbn in Hword. inversion Hword as [|? ? Hc _]; subst.
    cbn [skipws]. rewrite Hc. reflexivity. }
  rewrite Hskip. induction word as [|c w IH]; [reflexivity|].
  cbn in Hword. inversion Hword as [|? ? Hc Hw]; subst.
  cbn [read_word]. rewrite Hc. f_equal. apply IH; [exact Hw|].
  destruct w as [|c' w']; [reflexivity|].
  cbn in Hw. inversion Hw as [|? ? Hc' _]; subst.
  cbn [skipws]. rewrite Hc'. reflexivity.
Qed.

(** X25.  Parsing what [std::to_string] prints, for a number that fits
    64 bits, followed by a unit: the result is the number times the
    multiplier of the unit, wrapped to 64 bits; without a unit the
    number is in microseconds. *)
Theorem Parse_round_trip (n : Z) :
  0 <= n < 2 ^ 64 ->
  Parse (to_string n) = inr n /\
  Parse (to_string n +:+ "us") = inr n /\
  Parse (to_string n +:+ "ms") = inr (u64 (1000 * n)) /\
  Parse (to_string n +:+ "s") = inr (u64 (1000000 * n)) /\
  Parse (to_string n +:+ "m") = inr (u64 (60000000 * n)) /\
  Parse (to_string n +:+ "h") = inr (u64 (3600000000 * n)).
Proof.
  intros Hn.
  assert (Hrun : forall unit m,
            no_digit_ahead unit ->
            extract_word unit = unit ->
            UnitMultiplier unit = inr m ->
            Parse (to_string n +:+ unit)
            = inr (u64 (u64 (Multiplier_value m) * n))).
  { intros unit m Hunit Hword Hm. unfold Parse, Split.
    rewrite (extract_unsigned_to_string n unit ltac:(lia) Hunit).
    destruct (Z.leb_spec (2 ^ 64) n) as [?|_]; [lia|].
    cbn [fst snd]. rewrite Hword, Hm. reflexivity. }
  assert (Hplain : to_string n = to_string n +:+ EmptyString).
  { generalize (to_string n). intros t.
    induction t as [|c t IH]; [reflexivity|].
    change (String c t +:+ EmptyString) with (String c (t +:+ EmptyString)).
    rewrite <- IH. reflexivity. }
  split.
  { rewrite Hplain, (Hrun EmptyString MICROSECONDS I eq_refl eq_refl).
    cbn [Multiplier_value]. rewrite (u64_small 1) by lia.
    rewrite Z.mul_1_l, u64_small by lia. reflexivity. }
  split.
  { rewrite (Hrun "us" MICROSECONDS eq_refl eq_refl eq_refl).
    cbn [Multiplier_value]. rewrite (u64_small 1) by lia.
    rewrite Z.mul_1_l, u64_small by lia. reflexivity. }
  split; [exact (Hrun "ms" MILLISECONDS eq_refl eq_refl eq_refl)|].
  split; [exact (Hrun "s" SECONDS eq_refl eq_refl eq_refl)|].
  split; [exact (Hrun "m" MINUTES eq_refl eq_refl eq_refl)|].
  exact (Hrun "h" HOURS eq_refl eq_refl eq_refl).
Qed.

(** X26.  The errors of [Parse].  A string that, after any whitespace,
    starts with neither a digit nor a sign, and a number that does not
    fit 64 bits, give the [SeekError] of playd.  A number followed by a
    word that is none of the units gives the [std::out_of_range] of the
    standard library, which is no [Error] of playd, with the word as
    its message. *)
Theorem Parse_errors :
  (forall s,
     no_number_ahead (skipws s) ->
     Parse s = inl (PlaydError (SeekError MSG_SEEK_FAIL))) /\
  (forall n rest,
     2 ^ 64 <= n ->
     no_digit_ahead rest ->
     Parse (to_string n +:+ rest)
     = inl (PlaydError (SeekError MSG_SEEK_FAIL))) /\
  (forall n word,
     0 <= n < 2 ^ 64 ->
     no_digit_ahead word ->
     no_space_in word ->
     IsIn word units = false ->
     Parse (to_string n +:+ word) = inl (out_of_range word)).
Proof.
  split; [|split].
  - intros s Hs. unfold Parse, Split, extract_unsigned.
    destruct (skipws s) as [|c s'] eqn:Hskip; [reflexivity|].
    cbn [no_number_ahead] in Hs. destruct Hs as (Hdigit & Hminus & Hplus).
    rewrite Hminus, Hplus. cbn [read_digits]. rewrite Hdigit. reflexivity.
  - intros n rest Hn Hrest. unfold Parse, Split.
    rewrite (extract_unsigned_to_string n rest ltac:(lia) Hrest).
    destruct (Z.leb_spec (2 ^ 64) n) as [_|?]; [reflexivity|lia].
  - intros n word Hn Hdigit Hword Hunknown. unfold Parse, Split.
    rewrite (extract_unsigned_to_string n word ltac:(lia) Hdigit).
    destruct (Z.leb_spec (2 ^ 64) n) as [?|_]; [lia|].
    cbn [fst snd]. rewrite (extract_word_of_word word Hword).
    unfold IsIn, units in Hunknown. cbn [existsb] in Hunknown.
    repeat (apply orb_false_elim in Hunknown;
            destruct Hunknown as [? Hunknown]).
    unfold UnitMultiplier.
    repeat match goal with
           | Heq : (word =? ?u)%string = false |- _ => rewrite Heq; clear Heq
           end.
    reflexivity.
Qed.

End TimeParsing.

Section TimeParsingRuns.
Import TimeParser.

Lemma Parse_round_trip_witness :
  0 <= 90 < 2 ^ 64 /\
  Parse "90" = inr 90 /\
  Parse "90s" = inr 90000000 /\
  Parse "90m" = inr 5400000000.
Proof.
  assert (Hn : 0 <= 90 < 2 ^ 64) by lia.
  destruct (Parse_round_trip 90 Hn) as (Hplain & _ & _ & Hs & Hm & _).
  split; [exact Hn|]. split; [exact Hplain|]. split; [exact Hs|exact Hm].
Defined.

Lemma Parse_errors_witness :
  no_number_ahead (skipws " fast") /\
  Parse " fast" = inl (PlaydError (SeekError MSG_SEEK_FAIL)) /\
  2 ^ 64 <= 18446744073709551616 /\
  no_digit_ahead "s" /\
  Parse "18446744073709551616s" = inl (PlaydError (SeekError MSG_SEEK_FAIL)) /\
  0 <= 5 < 2 ^ 64 /\
  no_digit_ahead "sec" /\
  no_space_in "sec" /\
  IsIn "sec" units = false /\
  Parse "5sec" = inl (out_of_range "sec").
Proof.
  destruct Parse_errors as (Hnone & Hbig & Hunit).
  assert (H1 : no_number_ahead (skipws " fast"))
    by (cbn; repeat split; reflexivity).
  assert (H2 : 2 ^ 64 <= 18446744073709551616) by lia.
  assert (H3 : no_digit_ahead "s") by reflexivity.
  assert (H4 : 0 <= 5 < 2 ^ 64) by lia.
  assert (H5 : no_digit_ahead "sec") by reflexivity.
  assert (H6 : no_space_in "sec") by (repeat constructor).
  assert (H7 : IsIn "sec" units = false) by reflexivity.
  split; [exact H1|]. split; [exact (Hnone " fast" H1)|].
  split; [exact H2|]. split; [exact H3|].
  split; [exact (Hbig 18446744073709551616 "s" H2 H3)|].
  split; [exact H4|]. split; [exact H5|]. split; [exact H6|].
  split; [exact H7|].
  exact (Hunit 5 "sec" H4 H5 H6 H7).
Defined.

End TimeParsingRuns.

(** ** Seeking in the player *)

Section PlayerSeeking.
Import Player.
Context {audio : Type} `{Engine audio}.

Lemma extract_time_and_rest_to_string (n : Z) (word : string) :
  0 <= n < 2 ^ 64 ->
  TimeParser.no_digit_ahead word ->
  TimeParser.no_space_in word ->
  SeekStream.extract_time_and_rest (to_string n +:+ word) = Some (n, word).
Proof.
  intros Hn Hdigit Hword.
  destruct (to_string_head n word) as (c & s' & Hhead & Hc).
  destruct (digit_is_no_space_or_sign c Hc) as (Hspace & Hminus & Hplus).
  pose proof (read_digits_to_string n word ltac:(lia) Hdigit) as Hread.
  unfold SeekStream.extract_time_and_rest. rewrite Hhead in Hread |- *.
  cbn [TimeParser.skipws]. rewrite Hspace, Hminus, Hplus, Hread.
  cbn [negb]. destruct (Z.leb_spec (2 ^ 64) n) as [?|_]; [lia|].
  rewrite (extract_word_of_word word Hword). reflexivity.
Qed.

(** X6.  [cmd_seek] in state Stop, with an engine whose extraction is
    that of the C++ library, on a time string from which a time is
    extracted (any string that is not blank): it seeks and does nothing
    else; the audio is not stopped or started, the state stays Stop, no
    line is written, and an exception of the seek goes through.  For a
    decimal number followed by a word, the target is the number of
    seconds when the word is [s] or [sec], and the number of
    microseconds for any other word or none: the units [ms], [m] and
    [h] are not understood. *)
Theorem cmd_seek_from_stop (p : player audio) (a : audio) :
  cstate p = S_STOP ->
  au p = Some a ->
  (forall s held,
     SeekStream.extract_time_and_rest s = Some held ->
     extract_time_rest s = held) ->
  let seeks_to (time : Z) : outcome error (player audio) bool :=
    match seek_usec time a with
    | (a', None) =>
        Returns true
          (mkPlayer S_STOP (device p) (Some a') (ptime p) (responses p))
    | (a', Some e) =>
        Throws e
          (mkPlayer S_STOP (device p) (Some a') (ptime p) (responses p))
    end in
  (forall time_str time0 rest,
     SeekStream.extract_time_and_rest time_str = Some (time0, rest) ->
     cmd_seek time_str p
     = seeks_to (if (rest =? "s")%string || (rest =? "sec")%string
                 then u64 (time0 * 1000000) else time0)) /\
  (forall n word,
     0 <= n < 2 ^ 64 ->
     TimeParser.no_digit_ahead word ->
     TimeParser.no_space_in word ->
     cmd_seek (to_string n +:+ word) p
     = seeks_to (if (word =? "s")%string || (word =? "sec")%string
                 then u64 (n * 1000000) else n)).
Proof.
  intros Hs Ha Hlibrary seeks_to.
  assert (Hrun : forall time_str time0 rest,
            SeekStream.extract_time_and_rest time_str = Some (time0, rest) ->
            cmd_seek time_str p
            = seeks_to (if (rest =? "s")%string || (rest =? "sec")%string
                        then u64 (time0 * 1000000) else time0)).
  { intros time_str time0 rest Hheld.
    destruct p as [cs dev a0 pt rs]. cbn [cstate au] in Hs, Ha. subst cs a0.
    unfold cmd_seek. rewrite (Hlibrary _ _ Hheld).
    change USECS_IN_SEC with 1000000.
    unfold seeks_to. cbn [device ptime responses].
    repeat first
      [ progress simpl
      | progress unfold gate_state, cmd_stop, cmd_play, au_seek_usec, au_call,
          set_state, bind, get, put, modify, ret, throw, undefined, with_au,
          with_cstate, respond ].
    destruct (seek_usec _ a) as [a' [e|]]; reflexivity. }
  split; [exact Hrun|].
  intros n word Hn Hdigit Hword. apply Hrun.
  apply extract_time_and_rest_to_string; assumption.
Qed.

End PlayerSeeking.

Section PlayerSeekingRuns.
Import Player DemoEngine.

Lemma cmd_seek_from_stop_witness :
  cstate stopped_player = S_STOP /\
  au stopped_player = Some (mkDemo "a.wav" false 0 10000000) /\
  (forall s held,
     SeekStream.extract_time_and_rest s = Some held ->
     extract_time_rest s = held) /\
  SeekStream.extract_time_and_rest " 5 sec" = Some (5, "sec") /\
  cmd_seek " 5 sec" stopped_player =
    Returns true
      (mkPlayer S_STOP 0 (Some (mkDemo "a.wav" false 5000000 10000000)) 0 []) /\
  0 <= 5 < 2 ^ 64 /\
  TimeParser.no_digit_ahead "ms" /\
  TimeParser.no_space_in "ms" /\
  cmd_seek "5ms" stopped_player =
    Returns true
      (mkPlayer S_STOP 0 (Some (mkDemo "a.wav" false 5 10000000)) 0 []).
Proof.
  assert (Hlibrary : forall s held,
            SeekStream.extract_time_and_rest s = Some held ->
            extract_time_rest (Engine := demo_engine) s = held).
  { intros s held Hheld. cbn [extract_time_rest demo_engine].
    unfold extract. rewrite Hheld. reflexivity. }
  assert (Hheld : SeekStream.extract_time_and_rest " 5 sec" = Some (5, "sec"))
    by reflexivity.
  assert (Hn : 0 <= 5 < 2 ^ 64) by lia.
  assert (Hdigit : TimeParser.no_digit_ahead "ms") by reflexivity.
  assert (Hword : TimeParser.no_space_in "ms") by (repeat constructor).
  destruct (cmd_seek_from_stop stopped_player
              (mkDemo "a.wav" false 0 10000000) eq_refl eq_refl Hlibrary)
    as [Hany Hnumber].
  split; [reflexivity|]. split; [reflexivity|]. split; [exact Hlibrary|].
  split; [exact Hheld|].
  split; [exact (Hany " 5 sec" 5 "sec" Hheld)|].
  split; [exact Hn|]. split; [exact Hdigit|]. split; [exact Hword|].
  exact (Hnumber 5 "ms" Hn Hdigit Hword).
Defined.

End PlayerSeekingRuns.
